(** * SysMon (Theme Edition): the sampling pipeline of [main.py]

    A shallow embedding of the parts of [main.py] that carry contracts:
    the unit converters, the settings loader and saver, the interval
    shortcuts and menu, the zoom handlers, the theme resolution, the probes
    of the host, the bars, the disk percentage, the process table and the
    self-rescheduling update loop.

    Conventions of the embedding:
    - a Python [int] is a [Z];
    - a Python [float] is an IEEE binary64 number.  A finite one is the exact
      rational it denotes ([Q]); every arithmetic operation rounds its exact
      result to the nearest binary64 number, ties to even ([RN]).  Infinities
      are kept; NaN and the sign of zero are not represented (no operation
      used here produces a NaN from numbers);
    - a Python [str] is a [string], its characters code points below 256;
      the command line of a process, which is cut by its length, is the
      list of its code points, whatever they are ([text]);
    - a value that may be [None] is an [option];
    - a raised exception is a value of [result], with its class and its
      message; stateful methods of the application object thread a
      [SysMon] record through a small monad;
    - what the operating system answers (psutil, the configuration file,
      the commands of the desktop) is an input: the answer, or what was
      raised.  Calls of Tk on widgets that exist are taken to succeed. *)

From Stdlib Require Import ZArith QArith Qabs Lia Lqa List Bool.
From Stdlib Require Import Ascii String DecimalString DecimalN.
From Stdlib Require Import Sorted Permutation.
From stdpp Require Import base strings gmap.

Open Scope string_scope.
Open Scope Z_scope.

(** ** Exceptions *)

Inductive exn_class :=
| NoSuchProcess | ZombieProcess | AccessDenied
| ZeroDivisionError | OverflowError | ValueError | TypeError | AttributeError
| ParsingError | InterpolationSyntaxError | InterpolationMissingOptionError
| InterpolationDepthError
| OSError | TclError
| KeyboardInterrupt | SystemExit.

(** [isinstance(e, Exception)]: everything but the two interpreter-exit
    classes, which derive from [BaseException] only. *)
Definition is_Exception (c : exn_class) : bool :=
  match c with
  | KeyboardInterrupt | SystemExit => false
  | _ => true
  end.

(** [isinstance(e, (psutil.NoSuchProcess, psutil.AccessDenied))];
    [ZombieProcess] is a subclass of [NoSuchProcess]. *)
Definition is_gone_or_denied (c : exn_class) : bool :=
  match c with
  | NoSuchProcess | ZombieProcess | AccessDenied => true
  | _ => false
  end.

Record exn := Exn { exn_cls : exn_class; exn_msg : string }.

Inductive result (A : Type) :=
| Ok (a : A)
| Raise (e : exn).
Arguments Ok {A} a.
Arguments Raise {A} e.

Definition rbind {A B} (r : result A) (k : A -> result B) : result B :=
  match r with
  | Ok a => k a
  | Raise e => Raise e
  end.

#[global] Instance result_ret : MRet result := @Ok.
#[global] Instance result_bind : MBind result := fun A B k r => rbind r k.

(** ** Binary64 floats *)

Inductive float :=
| Fin (q : Q)          (* a finite number, by its exact value *)
| Inf (neg : bool).    (* +inf, -inf *)

Definition emin : Z := -1074.

(** [2 ^ k], and [1] when [k] is negative. *)
Definition pow2 (k : Z) : Z := 2 ^ Z.max 0 k.

(** [floor (log2 (p / q))] for positive [p] and [q]. *)
Definition ilog2_frac (p q : Z) : Z :=
  let d := Z.log2 p - Z.log2 q in
  if q * pow2 d <=? p * pow2 (- d) then d else d - 1.

(** The integer nearest to [num / den], ties to the even one ([den > 0]). *)
Definition round_half_even (num den : Z) : Z :=
  let m := num / den in
  let r := num mod den in
  if 2 * r <? den then m
  else if den <? 2 * r then m + 1
  else if Z.even m then m else m + 1.

(** The binary64 number nearest to [p / q] ([p], [q] positive): a 53-bit
    mantissa at the exponent of the binade of [p / q], not below [emin]
    (subnormals), and an infinity from [2 ^ 1024] on. *)
Definition round_pos (p q : Z) : float :=
  let e := Z.max (ilog2_frac p q - 52) emin in
  let m := round_half_even (p * pow2 (- e)) (q * pow2 e) in
  if 2 ^ 1024 * pow2 (- e) <=? m * pow2 e then Inf false
  else Fin (m * pow2 e # Z.to_pos (pow2 (- e))).

Definition fneg (x : float) : float :=
  match x with
  | Fin q => Fin (- q)%Q
  | Inf s => Inf (negb s)
  end.

(** Round to nearest, ties to even. *)
Definition RN (x : Q) : float :=
  match Qnum x with
  | Z0 => Fin 0%Q
  | Zpos p => round_pos (Zpos p) (Zpos (Qden x))
  | Zneg p => fneg (round_pos (Zpos p) (Zpos (Qden x)))
  end.

(** [x < k] for a float [x] and an int [k]: Python compares the two
    numbers exactly. *)
Definition flt_int (x : float) (k : Z) : bool :=
  match x with
  | Fin q => if Qlt_le_dec q (inject_Z k) then true else false
  | Inf s => s
  end.

(** [x < y] and [x == y] on floats. *)
Definition flt (x y : float) : bool :=
  match x, y with
  | Fin a, Fin b => if Qlt_le_dec a b then true else false
  | Fin _, Inf s => negb s
  | Inf s, Fin _ => s
  | Inf s, Inf s' => s && negb s'
  end.

Definition feq (x y : float) : bool :=
  match x, y with
  | Fin a, Fin b => Qeq_bool a b
  | Inf s, Inf s' => Bool.eqb s s'
  | _, _ => false
  end.

(** [float(z)] for an int [z]. *)
Definition float_of_int (z : Z) : result Q :=
  match RN (inject_Z z) with
  | Fin q => Ok q
  | Inf _ => Raise (Exn OverflowError "int too large to convert to float")
  end.

(** [a / b] on ints: the correctly rounded quotient, always finite. *)
Definition int_truediv (a b : Z) : result Q :=
  if b =? 0 then Raise (Exn ZeroDivisionError "division by zero")
  else match RN (inject_Z a / inject_Z b)%Q with
       | Fin q => Ok q
       | Inf _ => Raise (Exn OverflowError "integer division result too large for a float")
       end.

(** [x / k] for a float [x] and a nonzero int constant [k] that a float
    holds exactly (here 1024). *)
Definition float_div_const (x : float) (k : Z) : float :=
  match x with
  | Fin q => RN (q / inject_Z k)%Q
  | Inf s => Inf (xorb s (k <? 0))
  end.

(** [x * k] for a finite float [x] and an int constant [k] that a float
    holds exactly (here 100). *)
Definition float_mul_const (x : Q) (k : Z) : float := RN (x * inject_Z k)%Q.

(** ** Formatting with [:.1f] and reading back with [float()] *)

Definition digits (n : Z) : string :=
  NilZero.string_of_uint (N.to_uint (Z.to_N n)).

(** [|x|] in tenths, rounded to the nearest integer, ties to even: the
    digits that [:.1f] prints for the exact value of the float. *)
Definition tenths (x : Q) : Z :=
  round_half_even (10 * Z.abs (Qnum x)) (Zpos (Qden x)).

Definition format_1f (x : float) : string :=
  match x with
  | Inf false => "inf"
  | Inf true => "-inf"
  | Fin q =>
      let t := tenths q in
      (if Qnum q <? 0 then "-" else "") +:+ digits (t / 10) +:+ "." +:+ digits (t mod 10)
  end.

(** A value of the variable [n] of [bytes2human]: an int on entry, a float
    after the first division. *)
Inductive num :=
| NInt (z : Z)
| NFloat (x : float).

Definition num_lt_int (n : num) (k : Z) : bool :=
  match n with
  | NInt z => z <? k
  | NFloat x => flt_int x k
  end.

Definition num_div_const (n : num) (k : Z) : result num :=
  match n with
  | NInt z => q ← int_truediv z k; Ok (NFloat (Fin q))
  | NFloat x => Ok (NFloat (float_div_const x k))
  end.

Definition num_format_1f (n : num) : result string :=
  match n with
  | NInt z => q ← float_of_int z; Ok (format_1f (Fin q))
  | NFloat x => Ok (format_1f x)
  end.

(** ** Text *)

(** The [str] methods that the probes of the host use.  A character is a
    code point below 256; [code] is [ord]. *)
Definition code (c : ascii) : Z := Z.of_N (N_of_ascii c).

(** [c.isspace()] *)
Definition is_space (c : ascii) : bool :=
  let n := code c in
  (9 <=? n) && (n <=? 13) || (28 <=? n) && (n <=? 32) || (n =? 133) || (n =? 160).

(** The line boundaries of [str.splitlines]. *)
Definition is_linebreak (c : ascii) : bool :=
  let n := code c in
  (10 <=? n) && (n <=? 13) || (28 <=? n) && (n <=? 30) || (n =? 133).

(** [c.lower()] *)
Definition lower_char (c : ascii) : ascii :=
  let n := code c in
  if (65 <=? n) && (n <=? 90) || (192 <=? n) && (n <=? 222) && negb (n =? 215)
  then ascii_of_N (Z.to_N (n + 32))
  else c.

Fixpoint str_lower (s : string) : string :=
  match s with
  | EmptyString => EmptyString
  | String c r => String (lower_char c) (str_lower r)
  end.

Fixpoint lstrip (p : ascii -> bool) (s : string) : string :=
  match s with
  | EmptyString => EmptyString
  | String c r => if p c then lstrip p r else s
  end.

Fixpoint rstrip (p : ascii -> bool) (s : string) : string :=
  match s with
  | EmptyString => EmptyString
  | String c r =>
      match rstrip p r with
      | EmptyString => if p c then EmptyString else String c EmptyString
      | r' => String c r'
      end
  end.

(** [s.strip()], and [s.strip(chars)] for the characters that [p] accepts. *)
Definition strip_with (p : ascii -> bool) (s : string) : string :=
  rstrip p (lstrip p s).

Definition str_strip (s : string) : string := strip_with is_space s.

(** [needle in s] *)
Fixpoint contains (needle s : string) : bool :=
  String.prefix needle s ||
  match s with
  | EmptyString => false
  | String _ r => contains needle r
  end.

(** [s.split(sep, 1)] when [sep] occurs in [s]: the text before its first
    occurrence and the text behind it.  [None] is the list of one element
    that Python returns otherwise, whose index [1] does not exist. *)
Fixpoint split_once (sep : ascii) (s : string) : option (string * string) :=
  match s with
  | EmptyString => None
  | String c r =>
      if Ascii.eqb c sep then Some (EmptyString, r)
      else match split_once sep r with
           | Some (a, b) => Some (String c a, b)
           | None => None
           end
  end.

(** [s.split(sep, 2)[-1]] *)
Definition after_two (sep : ascii) (s : string) : string :=
  match split_once sep s with
  | None => s
  | Some (_, r) =>
      match split_once sep r with
      | None => r
      | Some (_, r') => r'
      end
  end.

(** [s.splitlines()], with the line read so far; a carriage return and the
    line feed behind it are one boundary. *)
Fixpoint splitlines_from (cur s : string) : list string :=
  match s with
  | EmptyString => match cur with EmptyString => [] | _ => [cur] end
  | String c r =>
      if is_linebreak c then
        cur :: match r with
               | String c' r' =>
                   if (code c =? 13) && (code c' =? 10) then splitlines_from EmptyString r'
                   else splitlines_from EmptyString r
               | EmptyString => splitlines_from EmptyString r
               end
      else splitlines_from (cur +:+ String c EmptyString) r
  end.

Definition splitlines (s : string) : list string := splitlines_from EmptyString s.

(** [str(z)] for an int, and the limit that the interpreter puts on the
    length of the conversion: [sys.get_int_max_str_digits()], 4300 unless
    changed. *)
Definition str_int (z : Z) : string :=
  (if z <? 0 then "-" else "") +:+ digits (Z.abs z).

Definition int_max_str_digits : Z := 4300.

Definition py_str (z : Z) : result string :=
  if 10 ^ int_max_str_digits <=? Z.abs z
  then Raise (Exn ValueError
    "Exceeds the limit (4300 digits) for integer string conversion; use sys.set_int_max_str_digits() to increase the limit")
  else Ok (str_int z).

Definition is_digit (c : ascii) : bool :=
  match c with
  | "0" | "1" | "2" | "3" | "4" | "5" | "6" | "7" | "8" | "9" => true
  | _ => false
  end%char.

Fixpoint all_digits (s : string) : bool :=
  match s with
  | EmptyString => true
  | String c r => is_digit c && all_digits r
  end.

(** A text in which the character [c] does not occur. *)
Fixpoint lacks (c : ascii) (s : string) : bool :=
  match s with
  | EmptyString => true
  | String c' r => negb (Ascii.eqb c' c) && lacks c r
  end.

(** [repr(s)]: the text between quotes, the single one unless the text has
    it and has no double one; the quote and the backslash are escaped, and
    so is every character that is not printable. *)
Definition hex_digit (n : Z) : ascii :=
  nth (Z.to_nat n) (list_ascii_of_string "0123456789abcdef") "0"%char.

Definition is_printable (c : ascii) : bool :=
  let n := code c in
  (32 <=? n) && (n <? 127) || (161 <=? n) && negb (n =? 173).

Definition repr_char (quote c : ascii) : string :=
  let n := code c in
  if Ascii.eqb c quote || Ascii.eqb c "\" then String "\" (String c EmptyString)
  else if n =? 9 then "\t"
  else if n =? 10 then "\n"
  else if n =? 13 then "\r"
  else if is_printable c then String c EmptyString
  else "\x" +:+ String (hex_digit (n / 16)) (String (hex_digit (n mod 16)) EmptyString).

Fixpoint repr_body (quote : ascii) (s : string) : string :=
  match s with
  | EmptyString => EmptyString
  | String c r => repr_char quote c +:+ repr_body quote r
  end.

Definition py_repr (s : string) : string :=
  let double := ascii_of_nat 34 in
  let quote := if negb (lacks "'" s) && lacks double s then double else "'"%char in
  String quote (repr_body quote s +:+ String quote EmptyString).

(** [int(s)] for a text.  Blanks around the literal are skipped; a sign may
    stand before the digits; one underscore may stand between two digits;
    more than [int_max_str_digits] digits are refused.  The message of an
    invalid literal shows the first 200 characters of [repr(s)]. *)
Definition int_space (c : ascii) : bool :=
  let n := code c in
  (9 <=? n) && (n <=? 13) || (n =? 32) || (n =? 133) || (n =? 160).

(** The digits and underscores at the head of a text, and what follows
    them. *)
Fixpoint digit_run (s : string) : string * string :=
  match s with
  | EmptyString => (EmptyString, EmptyString)
  | String c r =>
      if is_digit c || Ascii.eqb c "_"
      then let '(run, rest) := digit_run r in (String c run, rest)
      else (EmptyString, s)
  end.

(** No underscore at the head or at the end of the run, no two in a row
    ([after_underscore] at the head), and a digit at least. *)
Fixpoint underscores_between (after_underscore : bool) (run : string) : bool :=
  match run with
  | EmptyString => negb after_underscore
  | String c r =>
      if Ascii.eqb c "_" then negb after_underscore && underscores_between true r
      else underscores_between false r
  end.

Fixpoint drop_underscores (run : string) : string :=
  match run with
  | EmptyString => EmptyString
  | String c r => if Ascii.eqb c "_" then drop_underscores r else String c (drop_underscores r)
  end.

(** The sign at the head of a literal, and what stands behind it. *)
Definition int_sign (s : string) : bool * string :=
  match s with
  | String "-" r => (true, r)
  | String "+" r => (false, r)
  | _ => (false, s)
  end.

Definition py_int (s : string) : result Z :=
  let invalid :=
    Raise (Exn ValueError ("invalid literal for int() with base 10: "
                           +:+ substring 0 200 (py_repr s))) in
  let '(neg, body) := int_sign (lstrip int_space s) in
  let '(run, rest) := digit_run body in
  if negb (underscores_between true run) then invalid
  else
    let ds := drop_underscores run in
    if int_max_str_digits <? Z.of_nat (String.length ds)
    then Raise (Exn ValueError
      ("Exceeds the limit (4300 digits) for integer string conversion: value has "
       +:+ digits (Z.of_nat (String.length ds))
       +:+ " digits; use sys.set_int_max_str_digits() to increase the limit"))
    else
      match lstrip int_space rest, NilZero.uint_of_string ds with
      | EmptyString, Some d =>
          Ok (if neg : bool then - Z.of_N (N.of_uint d) else Z.of_N (N.of_uint d))
      | _, _ => invalid
      end.

(** [int(x)] for a float: the fraction is dropped. *)
Definition py_int_of_float (x : float) : result Z :=
  match x with
  | Fin q => Ok (Z.quot (Qnum q) (Zpos (Qden q)))
  | Inf _ => Raise (Exn OverflowError "cannot convert float infinity to integer")
  end.

(** [:.0f]: the nearest integer, ties to the even one, with the sign of
    the number. *)
Definition format_0f (x : float) : string :=
  match x with
  | Inf false => "inf"
  | Inf true => "-inf"
  | Fin q =>
      (if Qnum q <? 0 then "-" else "")
      +:+ digits (round_half_even (Z.abs (Qnum q)) (Zpos (Qden q)))
  end.

(** ** Utilities *)

(** The [for u in [...]] loop of [bytes2human], and the [return] after it. *)
Fixpoint bytes2human_loop (units : list string) (n : num) : result string :=
  match units with
  | [] => s ← num_format_1f n; Ok (s +:+ "P")
  | u :: units' =>
      if num_lt_int n 1024 then s ← num_format_1f n; Ok (s +:+ u)
      else n' ← num_div_const n 1024; bytes2human_loop units' n'
  end.

Definition bytes2human (n : num) : result string :=
  bytes2human_loop ["B"; "K"; "M"; "G"; "T"] n.

(** A colour table: one value of the [THEMES] dict. *)
Record palette := Palette {
  bg : string; panel : string; fg : string;
  accent : string; warn : string; crit : string;
  disk : string; swap : string; status_fg : string (* key "status" *)
}.

Definition dark : palette :=
  Palette "#121212" "#1e1e1e" "#e0e0e0" "#4caf50" "#ff9800"
          "#f44336" "#03a9f4" "#9c27b0" "#888888".
Definition light : palette :=
  Palette "#f5f5f5" "#e0e0e0" "#202020" "#388e3c" "#f57c00"
          "#d32f2f" "#0288d1" "#7b1fa2" "#555555".

Definition THEMES : gmap string palette := {[ "dark" := dark; "light" := light ]}.

Definition color_for_load (pct : float) (colors : palette) : string :=
  if flt_int pct 50 then accent colors
  else if flt_int pct 75 then warn colors
  else crit colors.

(** ** Configuration *)

(** What [ConfigParser.read] finds at [cfg_path()]: no file (silently
    skipped), a file it parses into the options of [[DEFAULT]] and the
    other sections with their options, or a file it rejects with a parsing
    error.  The names of options are in lower case, as the parser stores
    them. *)
Inductive cfg_file :=
| NoFile
| Parsed (defaults : gmap string string) (sections : gmap string (gmap string string))
| Unparsable (msg : string).

(** The parser after [read]: its [_defaults] and its [_sections]. *)
Record config := Config {
  cfg_defaults : gmap string string;
  cfg_sections : gmap string (gmap string string)
}.

Definition cfg_read (f : cfg_file) : result config :=
  match f with
  | NoFile => Ok (Config ∅ ∅)
  | Parsed defaults sections => Ok (Config defaults sections)
  | Unparsable msg => Raise (Exn ParsingError msg)
  end.

(** [_unify_values]: the options that a section has, its own before those
    of [[DEFAULT]]; [None] is the [NoSectionError]. *)
Definition unify_values (cfg : config) (section : string) : option (gmap string string) :=
  match cfg_sections cfg !! section with
  | Some own => Some (own ∪ cfg_defaults cfg)
  | None => if String.eqb section "DEFAULT" then Some (cfg_defaults cfg) else None
  end.

Section Interpolation.

(** [BasicInterpolation.before_get] for the value of [option] in
    [section], whose options are [options]. *)
Variable options : gmap string string.
Variables option section rawval : string.

(** Where the scan of a value stands: outside a reference, behind a [%],
    inside the name of [%(name)s], behind its [)]; [rest] is the value from
    the [%] on. *)
Inductive reference :=
| InText
| AfterPercent (rest : string)
| InName (rest name : string)
| AfterName (rest name : string).

Definition syntax_error (rest : string) : exn :=
  Exn InterpolationSyntaxError
      ("'%' must be followed by '%' or '(', found: " +:+ py_repr rest).

Definition bad_reference (rest : string) : exn :=
  Exn InterpolationSyntaxError
      ("bad interpolation variable reference " +:+ py_repr rest).

Definition missing_option (name : string) : exn :=
  Exn InterpolationMissingOptionError
      ("Bad value substitution: option " +:+ py_repr option +:+ " in section "
       +:+ py_repr section +:+ " contains an interpolation key " +:+ py_repr name
       +:+ " which is not a valid option name. Raw value: " +:+ py_repr rawval).

Definition depth_error : exn :=
  Exn InterpolationDepthError
      ("Recursion limit exceeded in value substitution: option " +:+ py_repr option
       +:+ " in section " +:+ py_repr section
       +:+ " contains an interpolation key which cannot be substituted in 10 steps. Raw value: "
       +:+ py_repr rawval).

(** [_interpolate_some]: [%%] stands for a [%], [%(name)s] for the value of
    the option [name], interpolated in its turn when it has a [%]; [depth]
    is the number of nested values that may still be entered
    ([MAX_INTERPOLATION_DEPTH] at the start). *)
Fixpoint interpolate_some (depth : nat) (value : string) : result string :=
  match depth with
  | O => Raise depth_error
  | S depth' =>
      (fix scan (at_ : reference) (s : string) {struct s} : result string :=
         match s with
         | EmptyString =>
             match at_ with
             | InText => Ok EmptyString
             | AfterPercent rest => Raise (syntax_error rest)
             | InName rest _ | AfterName rest _ => Raise (bad_reference rest)
             end
         | String c r =>
             match at_ with
             | InText =>
                 if Ascii.eqb c "%" then scan (AfterPercent s) r
                 else t ← scan InText r; Ok (String c t)
             | AfterPercent rest =>
                 if Ascii.eqb c "%" then t ← scan InText r; Ok (String "%" t)
                 else if Ascii.eqb c "(" then scan (InName rest EmptyString) r
                 else Raise (syntax_error rest)
             | InName rest name =>
                 if Ascii.eqb c ")" then
                   match name with
                   | EmptyString => Raise (bad_reference rest)
                   | _ => scan (AfterName rest name) r
                   end
                 else scan (InName rest (name +:+ String c EmptyString)) r
             | AfterName rest name =>
                 if Ascii.eqb c "s" then
                   let var := str_lower name in
                   match options !! var with
                   | None => Raise (missing_option var)
                   | Some v =>
                       t ← (if contains "%" v then interpolate_some depth' v else Ok v);
                       u ← scan InText r;
                       Ok (t +:+ u)
                   end
                 else Raise (bad_reference rest)
             end
         end) InText value
  end.

End Interpolation.

Definition MAX_INTERPOLATION_DEPTH : nat := 10.

(** [cfg.get(section, key)]: the value of the option, interpolated; [None]
    is the [NoSectionError] or the [NoOptionError]. *)
Definition cfg_lookup (cfg : config) (section key : string) : result (option string) :=
  match unify_values cfg section with
  | None => Ok None
  | Some options =>
      let key := str_lower key in
      match options !! key with
      | None => Ok None
      | Some value =>
          v ← interpolate_some options key section value MAX_INTERPOLATION_DEPTH value;
          Ok (Some v)
      end
  end.

(** [cfg.get(section, key, fallback=...)]: the fallback stands in for a
    missing section or a missing option. *)
Definition cfg_get (cfg : config) (section key fallback : string) : result string :=
  v ← cfg_lookup cfg section key;
  Ok (default fallback v).

(** [cfg.getint(section, key, fallback=...)]: a value that is present is
    converted with [int]. *)
Definition cfg_getint (cfg : config) (section key : string) (fallback : Z) : result Z :=
  v ← cfg_lookup cfg section key;
  match v with
  | Some text => py_int text
  | None => Ok fallback
  end.

Definition load_settings (f : cfg_file) : result (Z * Z * string) :=
  cfg ← cfg_read f;
  fs ← cfg_getint cfg "ui" "font_size" 10;
  interval ← cfg_getint cfg "ui" "update_interval_ms" 1000;
  theme_mode ← cfg_get cfg "ui" "theme_mode" "auto";
  Ok (fs, interval, theme_mode).

(** ** Process rows *)

(** A command line is cut by the number of its characters, which may be
    any characters: it is kept as the list of its code points, not as a
    [string]. *)
Definition text : Type := list N.

Definition text_of (s : string) : text := map N_of_ascii (list_ascii_of_string s).

(** One tuple of [rows]: PID, USER, %CPU, %MEM, VIRT, RES, TIME, CMD. *)
Record row := Row {
  r_pid : Z; r_user : string; r_cpu : string; r_mem : string;
  r_virt : string; r_res : string; r_time : string; r_cmd : text
}.

(** [memory_info]: the [pmem] tuple of psutil, of which the table shows
    two fields. *)
Record pmem := Pmem { rss : Z; vms : Z }.

(** The [info] dict that [psutil.process_iter] attaches to a process.
    Every attribute but [pid] is [None] when psutil could not read it
    (access denied, or a zombie); [cmdline] may also be empty. *)
Record proc_info := ProcInfo {
  pid : Z;
  username : option string;
  cpu_percent : option float;
  memory_percent : option float;
  memory_info : option pmem;
  cmdline : option (list text);
  create_time : option Q
}.

(** A process handle: its [info], and what calling [p.name()] does. *)
Record process := Process {
  info : proc_info;
  name : result text
}.

(** [" ".join(parts)] *)
Fixpoint join_space (parts : list text) : text :=
  match parts with
  | [] => []
  | [part] => part
  | part :: parts' => (part ++ 32%N :: join_space parts')%list
  end.

(** Line 444: [if len(cmd) > 100: cmd = cmd[:97] + "..."]. *)
Definition truncate_cmd (cmd : text) : text :=
  if (100 <? length cmd)%nat then (take 97 cmd ++ text_of "...")%list else cmd.

(** [f"{x:.1f}"] for an attribute of [info]; [None] has no such format. *)
Definition format_attr (x : option float) : result string :=
  match x with
  | Some v => Ok (format_1f v)
  | None => Raise (Exn TypeError "unsupported format string passed to NoneType.__format__")
  end.

(** [i["memory_info"].vms] and [.rss], which [None] does not have. *)
Definition memory_field (field : string) (get : pmem -> Z) (m : option pmem) : result Z :=
  match m with
  | Some v => Ok (get v)
  | None =>
      Raise (Exn AttributeError ("'NoneType' object has no attribute '" +:+ field +:+ "'"))
  end.

(** Reading back a number printed in positional notation. *)
Fixpoint split_dot (s : string) : string * option string :=
  match s with
  | EmptyString => (EmptyString, None)
  | String c r =>
      if Ascii.eqb c "." then (EmptyString, Some r)
      else let '(a, b) := split_dot r in (String c a, b)
  end.

Definition decimal_value (ip fp : string) : option Q :=
  match NilZero.uint_of_string ip, NilZero.uint_of_string fp with
  | Some a, Some b =>
      let scale := 10 ^ Z.of_nat (String.length fp) in
      Some ((Z.of_N (N.of_uint a) * scale + Z.of_N (N.of_uint b)) # Z.to_pos scale)
  | _, _ => None
  end.

Definition strip_minus (s : string) : bool * string :=
  match s with
  | String "-" r => (true, r)
  | _ => (false, s)
  end.

(** [float(s)] for the strings that [:.1f] prints, [inf], [-inf] and an
    optional minus sign before digits, a dot and digits, and for plain
    integers.  The nearest binary64 number is returned. *)
Definition py_float (s : string) : result float :=
  if String.eqb s "inf" then Ok (Inf false)
  else if String.eqb s "-inf" then Ok (Inf true)
  else
    let '(neg, body) := strip_minus s in
    match split_dot body with
    | (ip, Some fp) =>
        match decimal_value ip fp with
        | Some v => Ok (RN (if neg : bool then - v else v)%Q)
        | None => Raise (Exn ValueError "could not convert string to float")
        end
    | (ip, None) =>
        match NilZero.uint_of_string ip with
        | Some a => Ok (RN (inject_Z (if neg : bool then - Z.of_N (N.of_uint a)
                                      else Z.of_N (N.of_uint a))))
        | None => Raise (Exn ValueError "could not convert string to float")
        end
    end.

(** The sort key of [_update_procs]: [lambda r: float(r[2])]. *)
Definition row_cpu (r : row) : result float := py_float (r_cpu r).

(** [list.sort(key=..., reverse=True)]: the keys are computed first, then
    the list is sorted on them from the largest down; the sort is stable,
    also when reversed.  Insertion from the right is such a sort: an element
    moves behind the ones with a strictly larger key only. *)
Fixpoint insert_desc {A} (x : float * A) (l : list (float * A)) : list (float * A) :=
  match l with
  | [] => [x]
  | y :: l' => if flt (fst x) (fst y) then y :: insert_desc x l' else x :: l
  end.

Fixpoint sort_desc {A} (l : list (float * A)) : list (float * A) :=
  match l with
  | [] => []
  | x :: l' => insert_desc x (sort_desc l')
  end.

Fixpoint keyed {A} (key : A -> result float) (l : list A) : result (list (float * A)) :=
  match l with
  | [] => Ok []
  | x :: l' => k ← key x; kl ← keyed key l'; Ok ((k, x) :: kl)
  end.

Definition sort_key_reverse {A} (key : A -> result float) (l : list A) : result (list A) :=
  kl ← keyed key l; Ok (map snd (sort_desc kl)).

Section Procs.

(** [time.strftime("%H:%M:%S", time.localtime(t))] in the host's time
    zone; for [None], [time.localtime] takes the current time. *)
Variable clock : option Q -> string.

(** The body of the [try] of [_update_procs], lines 442-454: the command
    first, then the columns in the order of the tuple. *)
Definition build_row (p : process) : result row :=
  let i := info p in
  parts ← match cmdline i with
          | Some (a :: l) => Ok (a :: l)
          | _ => n ← name p; Ok [n]
          end;
  let cmd := truncate_cmd (join_space parts) in
  cpu ← format_attr (cpu_percent i);
  mem ← format_attr (memory_percent i);
  v ← memory_field "vms" vms (memory_info i);
  virt ← bytes2human (NInt v);
  r ← memory_field "rss" rss (memory_info i);
  res ← bytes2human (NInt r);
  Ok (Row (pid i) (default "" (username i)) cpu mem virt res (clock (create_time i)) cmd).

(** The [for p in psutil.process_iter(...)] loop with its [except ...:
    continue], lines 440-456. *)
Fixpoint collect_rows (procs : list process) : result (list row) :=
  match procs with
  | [] => Ok []
  | p :: procs' =>
      match build_row p with
      | Ok r => rows ← collect_rows procs'; Ok (r :: rows)
      | Raise e =>
          if is_gone_or_denied (exn_cls e) then collect_rows procs'
          else Raise e
      end
  end.

(** Lines 439-458: the rows shown for one enumeration, [rows[:80]] after the
    sort, next to [len(rows)]. *)
Definition snapshot_processes (procs : list process) : result (list row * nat) :=
  rows ← collect_rows procs;
  sorted ← sort_key_reverse row_cpu rows;
  Ok (take 80 sorted, length sorted).

End Procs.

(** ** The host *)

(** The outcome of [subprocess.check_output(..., text=True)] is the text
    that the command printed, or what was raised (the command is missing,
    it failed, the user interrupted it). *)

(** Lines 63-68 of [get_os_name]: the first [PRETTY_NAME=] line of
    [/etc/os-release], else [platform.system()].  [lines] are the lines that
    the file gave before it ended or failed; the bare [except] swallows
    whatever is raised there. *)
Fixpoint os_release_name (lines : list string) (system : string) : string :=
  match lines with
  | [] => system
  | line :: lines' =>
      if String.prefix "PRETTY_NAME=" line then
        match split_once "=" line with
        | Some (_, v) => strip_with (Ascii.eqb (ascii_of_nat 34)) (str_strip v)
        | None => system
        end
      else os_release_name lines' system
  end.

Definition get_os_name (lsb_release : result string) (os_release : list string)
    (system : string) : result string :=
  let others := Ok (os_release_name os_release system) in
  match lsb_release with
  | Ok out =>
      match split_once ":" out with
      | Some (_, v) => Ok (str_strip v)
      | None => others                 (* IndexError, an [Exception] *)
      end
  | Raise e => if is_Exception (exn_cls e) then others else Raise e
  end.

(** The loop of [get_cpu_model]: the value it returns, [Some None] when the
    first line that names the model has no colon ([IndexError]), [None] when
    no line names it. *)
Fixpoint cpu_model_line (lines : list string) : option (option string) :=
  match lines with
  | [] => None
  | line :: lines' =>
      if contains "Model name" line || contains "Modelnavn" line then
        Some (match split_once ":" line with
              | Some (_, v) => Some (str_strip v)
              | None => None
              end)
      else cpu_model_line lines'
  end.

Definition get_cpu_model (lscpu : result string) (processor : string) : result string :=
  let others := Ok (if String.eqb processor "" then "Unknown CPU" else processor) in
  match lscpu with
  | Ok out =>
      match cpu_model_line (splitlines out) with
      | Some (Some v) => Ok v
      | Some None => others
      | None => others
      end
  | Raise e => if is_Exception (exn_cls e) then others else Raise e
  end.

Definition is_gpu_line (l : string) : bool :=
  contains "VGA" l || contains "3D controller" l.

Definition get_gpu_list (lspci : result string) : result (list string) :=
  match lspci with
  | Ok out =>
      Ok (map (fun l => str_strip (after_two ":" l))
              (List.filter is_gpu_line (splitlines out)))
  | Raise e => if is_Exception (exn_cls e) then Ok [] else Raise e
  end.

(** [%02d] for a number that is not negative. *)
Definition two_digits (n : Z) : string :=
  if n <? 10 then "0" +:+ digits n else digits n.

(** [str(timedelta(seconds=secs))] for less than a day. *)
Definition hms (secs : Z) : string :=
  let mm := secs / 60 in
  let ss := secs mod 60 in
  let hh := mm / 60 in
  let mm := mm mod 60 in
  digits hh +:+ ":" +:+ two_digits mm +:+ ":" +:+ two_digits ss.

(** [timedelta(seconds=n)]: whole days and the seconds of the last day, in
    the range that a [timedelta] has. *)
Definition timedelta_seconds (n : Z) : result (Z * Z) :=
  let days := n / 86400 in
  if (days <? - 2 ^ 31) || (2 ^ 31 - 1 <? days)
  then Raise (Exn OverflowError "Python int too large to convert to C int")
  else if (days <? - 999999999) || (999999999 <? days)
  then Raise (Exn OverflowError
                ("days=" +:+ str_int days +:+ "; must have magnitude <= 999999999"))
  else Ok (days, n mod 86400).

(** [format_uptime], with [time.time()] and [psutil.boot_time()]. *)
Definition format_uptime (now boot : Q) : result string :=
  n ← py_int_of_float (RN (now - boot));
  delta ← timedelta_seconds n;
  let days := fst delta in
  let rest := hms (snd delta) in
  Ok (if days =? 0 then rest
      else str_int days +:+ " day" +:+ (if days =? 1 then "" else "s") +:+ " " +:+ rest).

(** ** Sampling memory, swap and disk *)

Record mem_sample := MemSample { m_used : Z; m_total : Z; m_percent : float }.
Record disk_usage := DiskUsage { d_total : Z; d_used : Z; d_free : Z }.

(** Line 431: [pct = (d.used/d.total)*100 if d.total else 0.0]. *)
Definition disk_pct (d : disk_usage) : result float :=
  if d_total d =? 0 then Ok (Fin 0%Q)
  else q ← int_truediv (d_used d) (d_total d); Ok (float_mul_const q 100).

(** [f"{tag}: {bytes2human(used)}/{bytes2human(total)} ({pct:.1f}%)"] *)
Definition usage_text (tag : string) (used total : Z) (pct : float) : result string :=
  u ← bytes2human (NInt used);
  t ← bytes2human (NInt total);
  Ok (tag +:+ ": " +:+ u +:+ "/" +:+ t +:+ " (" +:+ format_1f pct +:+ "%)").

(** ** Bars *)

(** What a canvas holds: the size that Tk reports for it and the items
    drawn on it, in the order of drawing. *)
Inductive item :=
| Rectangle (x0 y0 x1 y1 : Z) (fill : string)
| Text (x y : Z) (text fill : string) (size : Z).

Record canvas := Canvas { winfo_width : Z; winfo_height : Z; items : list item }.

Definition set_items (l : list item) (c : canvas) : canvas :=
  Canvas (winfo_width c) (winfo_height c) l.

(** [w * pct] for an int [w] that is not zero and a float. *)
Definition int_mul_float (w : Z) (pct : float) : result float :=
  wq ← float_of_int w;
  Ok (match pct with
      | Fin p => RN (wq * p)
      | Inf s => Inf (xorb s (w <? 0))
      end).

(** [int(w*pct/100)] *)
Definition fill_width (w : Z) (pct : float) : result Z :=
  x ← int_mul_float w pct;
  py_int_of_float (float_div_const x 100).

Definition _draw_bar (colors : palette) (size : Z) (c : canvas) (pct : float)
    (color : string) : result unit * canvas :=
  let w := if winfo_width c =? 0 then 100 else winfo_width c in
  let h := if winfo_height c =? 0 then 14 else winfo_height c in
  let back := Rectangle 0 0 w h (bg colors) in
  match fill_width w pct with
  | Raise e => (Raise e, set_items [back] c)
  | Ok x =>
      (Ok tt,
       set_items [back; Rectangle 0 0 x h color;
                  Text (w - 25) (h / 2) (format_0f pct +:+ "%") (fg colors)
                       (Z.max 7 (size - 2))] c)
  end.

(** The three canvases of the memory panel, and lines 433-435 of
    [_update_mem_swap_disk]: the three bars, drawn in this order; a bar
    that fails ends the method. *)
Record usage_canvases := UsageCanvases {
  mem_canvas : canvas; swap_canvas : canvas; disk_canvas : canvas
}.

Definition draw_bars (colors : palette) (size : Z) (mem_pct swap_pct pct : float)
    (cs : usage_canvases) : result unit * usage_canvases :=
  match _draw_bar colors size (mem_canvas cs) mem_pct (color_for_load mem_pct colors) with
  | (Raise e, c1) => (Raise e, UsageCanvases c1 (swap_canvas cs) (disk_canvas cs))
  | (Ok _, c1) =>
      match _draw_bar colors size (swap_canvas cs) swap_pct (swap colors) with
      | (Raise e, c2) => (Raise e, UsageCanvases c1 c2 (disk_canvas cs))
      | (Ok _, c2) =>
          let '(r, c3) := _draw_bar colors size (disk_canvas cs) pct (disk colors) in
          (r, UsageCanvases c1 c2 c3)
      end
  end.

(** Lines 431 and 433-435: the disk percentage and the three bars. *)
Definition draw_usage_bars (colors : palette) (size : Z) (m s : mem_sample)
    (d : disk_usage) (cs : usage_canvases) : result unit * usage_canvases :=
  match disk_pct d with
  | Raise e => (Raise e, cs)
  | Ok pct => draw_bars colors size (m_percent m) (m_percent s) pct cs
  end.

(** ** The application object *)

(** The attributes of [SysMon] that the update path reads or writes, with
    the two pieces of the world it acts on: the lines printed to [sys.stderr]
    and the delays of the pending [after] callbacks (every one of them is
    [_update_all]). *)
Record SysMon := mkSysMon {
  font_size : Z;
  update_interval : Z;
  theme_mode : string;
  mem_label : string;
  swap_label : string;
  disk_label : string;
  tree : list row;
  status : string;
  stderr : list string;
  timers : list Z;
  colors : palette;
  canvases : usage_canvases       (* mem_canvas, swap_canvas, disk_canvas *)
}.

Definition set_font_size (v : Z) (s : SysMon) : SysMon :=
  mkSysMon v (update_interval s) (theme_mode s) (mem_label s) (swap_label s)
           (disk_label s) (tree s) (status s) (stderr s) (timers s) (colors s) (canvases s).
Definition set_update_interval (v : Z) (s : SysMon) : SysMon :=
  mkSysMon (font_size s) v (theme_mode s) (mem_label s) (swap_label s)
           (disk_label s) (tree s) (status s) (stderr s) (timers s) (colors s) (canvases s).
Definition set_mem_label (t : string) (s : SysMon) : SysMon :=
  mkSysMon (font_size s) (update_interval s) (theme_mode s) t (swap_label s)
           (disk_label s) (tree s) (status s) (stderr s) (timers s) (colors s) (canvases s).
Definition set_swap_label (t : string) (s : SysMon) : SysMon :=
  mkSysMon (font_size s) (update_interval s) (theme_mode s) (mem_label s) t
           (disk_label s) (tree s) (status s) (stderr s) (timers s) (colors s) (canvases s).
Definition set_disk_label (t : string) (s : SysMon) : SysMon :=
  mkSysMon (font_size s) (update_interval s) (theme_mode s) (mem_label s)
           (swap_label s) t (tree s) (status s) (stderr s) (timers s) (colors s) (canvases s).
Definition set_tree (t : list row) (s : SysMon) : SysMon :=
  mkSysMon (font_size s) (update_interval s) (theme_mode s) (mem_label s)
           (swap_label s) (disk_label s) t (status s) (stderr s) (timers s) (colors s)
           (canvases s).
Definition set_status (t : string) (s : SysMon) : SysMon :=
  mkSysMon (font_size s) (update_interval s) (theme_mode s) (mem_label s)
           (swap_label s) (disk_label s) (tree s) t (stderr s) (timers s) (colors s)
           (canvases s).
Definition set_stderr (l : list string) (s : SysMon) : SysMon :=
  mkSysMon (font_size s) (update_interval s) (theme_mode s) (mem_label s)
           (swap_label s) (disk_label s) (tree s) (status s) l (timers s) (colors s)
           (canvases s).
Definition set_timers (l : list Z) (s : SysMon) : SysMon :=
  mkSysMon (font_size s) (update_interval s) (theme_mode s) (mem_label s)
           (swap_label s) (disk_label s) (tree s) (status s) (stderr s) l (colors s)
           (canvases s).
Definition set_canvases (cs : usage_canvases) (s : SysMon) : SysMon :=
  mkSysMon (font_size s) (update_interval s) (theme_mode s) (mem_label s)
           (swap_label s) (disk_label s) (tree s) (status s) (stderr s) (timers s)
           (colors s) cs.

(** A method of the object: it returns or raises, and leaves a state. *)
Definition M (A : Type) : Type := SysMon -> result A * SysMon.

#[global] Instance M_ret : MRet M := fun A a s => (Ok a, s).
#[global] Instance M_bind : MBind M := fun A B k m s =>
  match m s with
  | (Ok a, s') => k a s'
  | (Raise e, s') => (Raise e, s')
  end.

Definition lift {A} (r : result A) : M A := fun s => (r, s).
Definition get : M SysMon := fun s => (Ok s, s).
Definition modify (f : SysMon -> SysMon) : M unit := fun s => (Ok tt, f s).

(** [try: body / except Exception as e: handler(e)] *)
Definition try_except_Exception (body : M unit) (handler : exn -> M unit) : M unit :=
  fun s =>
    match body s with
    | (Raise e, s') =>
        if is_Exception (exn_cls e) then handler e s' else (Raise e, s')
    | done => done
    end.

(** [f"Interval: {self.update_interval/1000:.1f}s"] *)
Definition interval_text : M string :=
  s ← get;
  sec ← lift (int_truediv (update_interval s) 1000);
  mret ("Interval: " +:+ format_1f (Fin sec) +:+ "s").

Definition _increase_interval : M unit :=
  modify (fun s => set_update_interval (Z.min (update_interval s + 500) 10000) s);;
  t ← interval_text;
  modify (set_status t).

Definition _decrease_interval : M unit :=
  modify (fun s => set_update_interval (Z.max (update_interval s - 500) 250) s);;
  t ← interval_text;
  modify (set_status t).

(** The Alt-plus and Alt-minus shortcuts, pressed in some order. *)
Inductive request := Increase | Decrease.

Definition handle (r : request) : M unit :=
  match r with
  | Increase => _increase_interval
  | Decrease => _decrease_interval
  end.

Fixpoint handle_all (rs : list request) : M unit :=
  match rs with
  | [] => mret tt
  | r :: rs' => handle r;; handle_all rs'
  end.

(** Lines 433-435 on the canvases of the application, in its colours and
    at its font size. *)
Definition draw_usage (mem_pct swap_pct pct : float) : M unit :=
  fun s =>
    let '(r, cs) := draw_bars (colors s) (font_size s) mem_pct swap_pct pct (canvases s) in
    (r, set_canvases cs s).

(** [_update_mem_swap_disk], with what [psutil.virtual_memory()],
    [psutil.swap_memory()] and [shutil.disk_usage("/")] gave or raised:
    the three labels, then the three bars. *)
Definition _update_mem_swap_disk
    (vm sw : result mem_sample) (du : result disk_usage) : M unit :=
  m ← lift vm;
  s ← lift sw;
  d ← lift du;
  ml ← lift (usage_text "RAM" (m_used m) (m_total m) (m_percent m));
  modify (set_mem_label ml);;
  sl ← lift (usage_text "SWAP" (m_used s) (m_total s) (m_percent s));
  modify (set_swap_label sl);;
  pct ← lift (disk_pct d);
  dl ← lift (usage_text "Disk /" (d_used d) (d_total d) pct);
  modify (set_disk_label dl);;
  draw_usage (m_percent m) (m_percent s) pct.

(** ** The process table *)

(** What the status line of [_update_procs] asks the host, in the order of
    lines 460-462; each call returns or raises. *)
Record host := Host {
  hostname : result string;            (* socket.gethostname() *)
  boot_time : result Q;                (* psutil.boot_time(), in format_uptime *)
  time_now : Q;                        (* time.time(), in format_uptime *)
  cpu_now : result float               (* psutil.cpu_percent() *)
}.

Definition _update_procs (clock : option Q -> string) (h : host) (procs : list process)
    : M unit :=
  modify (set_tree []);;
  snap ← lift (snapshot_processes clock procs);
  modify (set_tree (fst snap));;
  host_name ← lift (hostname h);
  boot ← lift (boot_time h);
  up ← lift (format_uptime (time_now h) boot);
  iv ← interval_text;
  cpu ← lift (cpu_now h);
  modify (set_status
    ("Host: " +:+ host_name +:+ " | Uptime: " +:+ up +:+ " | Processes: "
     +:+ digits (Z.of_nat (snd snap)) +:+ " | " +:+ iv +:+ " | CPU: "
     +:+ format_1f cpu +:+ "%")).

(** ** The update loop *)

(** What one tick meets: the outcome of every query to the operating
    system, and the two display updates that touch neither the table nor
    the schedule ([_update_cpu], [_update_top_info]) as methods that may
    raise. *)
Record tick_env := TickEnv {
  e_update_cpu : M unit;
  e_vm : result mem_sample;
  e_swap : result mem_sample;
  e_disk : result disk_usage;
  e_clock : option Q -> string;
  e_host : host;
  e_procs : list process;
  e_update_top_info : M unit
}.

(** The body of the [try] of [_update_all]. *)
Definition update_body (env : tick_env) : M unit :=
  e_update_cpu env;;
  _update_mem_swap_disk (e_vm env) (e_swap env) (e_disk env);;
  _update_procs (e_clock env) (e_host env) (e_procs env);;
  e_update_top_info env.

(** [print("Update error:", e, file=sys.stderr)] *)
Definition print_update_error (e : exn) : M unit :=
  modify (fun s => set_stderr (stderr s ++ ["Update error: " +:+ exn_msg e]) s).

(** [self.after(self.update_interval, self._update_all)] *)
Definition after_update_all : M unit :=
  modify (fun s => set_timers (timers s ++ [update_interval s]) s).

Definition _update_all (env : tick_env) : M unit :=
  try_except_Exception (update_body env) print_update_error;;
  after_update_all.

(** The event loop firing the pending timers, one tick per environment:
    how many ticks ran, and the final state.  A tick that lets an exception
    out leaves the loop with whatever timers are still pending. *)
Fixpoint run_ticks (envs : list tick_env) (s : SysMon) : nat * SysMon :=
  match envs with
  | [] => (0%nat, s)
  | env :: envs' =>
      match timers s with
      | [] => (0%nat, s)
      | _ :: pending =>
          let '(_, s') := _update_all env (set_timers pending s) in
          let '(n, s'') := run_ticks envs' s' in
          (S n, s'')
      end
  end.

(** ** Reading the definitions back *)

(** The [k]-th unit of [bytes2human], [P] from the fifth on. *)
Definition unit_name (k : nat) : string :=
  nth k ["B"; "K"; "M"; "G"; "T"] "P".

(** [n] after [k] divisions by 1024. *)
Fixpoint scale (k : nat) (n : num) : result num :=
  match k with
  | O => Ok n
  | S k' => n' ← num_div_const n 1024; scale k' n'
  end.

(** The number a finite [num] denotes. *)
Definition num_value (n : num) : option Q :=
  match n with
  | NInt z => Some (inject_Z z)
  | NFloat (Fin q) => Some q
  | NFloat (Inf _) => None
  end.

(** The three load tones of a palette are three colours. *)
Definition distinct_tones (colors : palette) : Prop :=
  accent colors <> warn colors /\ warn colors <> crit colors /\
  accent colors <> crit colors.

(** The value that the section [ui] has for an option, its own or the one
    of [[DEFAULT]], if any, as the file has it. *)
Definition ui_option (cfg : config) (key : string) : option string :=
  unify_values cfg "ui" ≫= lookup key.

(** What [load_settings] reads for an option of [ui] whose value has no
    [%]: the fallback when neither [ui] nor [[DEFAULT]] has the option, the
    value as it stands otherwise, for a number what [int] reads from it. *)
Definition plain_option (cfg : config) (key fallback v : string) : Prop :=
  match ui_option cfg key with
  | None => v = fallback
  | Some value => contains "%" value = false /\ v = value
  end.

Definition plain_int_option (cfg : config) (key : string) (fallback n : Z) : Prop :=
  match ui_option cfg key with
  | None => n = fallback
  | Some value => contains "%" value = false /\ py_int value = Ok n
  end.

(** The application right after [load_settings] fell back to the defaults,
    with the first tick about to be scheduled: the dark colours, and three
    canvases that are not drawn yet (Tk reports a width and a height of 1
    for them). *)
Definition sysmon0 : SysMon :=
  mkSysMon 10 1000 "auto" "" "" "" [] "" [] [] dark
           (UsageCanvases (Canvas 1 1 []) (Canvas 1 1 []) (Canvas 1 1 [])).

(** A tick never lets anything but an [Exception] out of its body. *)
Definition raises_only_Exception (env : tick_env) : Prop :=
  forall s e s', update_body env s = (Raise e, s') -> is_Exception (exn_cls e) = true.

(** A tick in which nothing fails and no process runs, one second after
    the start of the host. *)
Definition quiet_env : tick_env :=
  TickEnv (mret tt) (Ok (MemSample 4000000000 8000000000 (Fin 50)))
          (Ok (MemSample 0 0 (Fin 0))) (Ok (DiskUsage 100 40 60))
          (fun _ => "00:00:00") (Host (Ok "host") (Ok 0%Q) 1%Q (Ok (Fin 0))) []
          (mret tt).

(** The same tick with [psutil.cpu_percent] failing in [_update_cpu], and
    with the user interrupting it there. *)
Definition failing_env : tick_env :=
  TickEnv (lift (Raise (Exn OSError "cannot read /proc/stat")))
          (e_vm quiet_env) (e_swap quiet_env) (e_disk quiet_env)
          (e_clock quiet_env) (e_host quiet_env) [] (mret tt).
Definition interrupted_env : tick_env :=
  TickEnv (lift (Raise (Exn KeyboardInterrupt "")))
          (e_vm quiet_env) (e_swap quiet_env) (e_disk quiet_env)
          (e_clock quiet_env) (e_host quiet_env) [] (mret tt).

(** A tick in which the host does not tell its name: the status line of
    [_update_procs] fails. *)
Definition nameless_env : tick_env :=
  TickEnv (mret tt) (e_vm quiet_env) (e_swap quiet_env) (e_disk quiet_env)
          (e_clock quiet_env)
          (Host (Raise (Exn OSError "gethostname failed")) (Ok 0%Q) 1%Q (Ok (Fin 0))) []
          (mret tt).

(** The ints that [bytes2human] can divide without overflow, and the
    floats that come out of the division. *)
Definition in_float_range (v : num) : Prop :=
  match v with
  | NInt z => 0 <= z < 2 ^ 1024
  | NFloat (Fin q) => (0 <= q)%Q /\ (q <= inject_Z (2 ^ 52 * 2 ^ 962))%Q
  | NFloat (Inf _) => False
  end.

(** A CPU percentage as the table has it: printed with one decimal and
    read back. *)
Definition shown_cpu (x : float) : float :=
  match x with
  | Fin q => RN (if Qnum q <? 0 then - (tenths q # 10) else tenths q # 10)%Q
  | Inf sg => Inf sg
  end.

(** [a >= b] on sort keys, and on the rows that carry them. *)
Definition key_ge {A} (a b : float * A) : Prop := flt (fst a) (fst b) = false.

Definition cpu_ge (r1 r2 : row) : Prop :=
  exists k1 k2, row_cpu r1 = Ok k1 /\ row_cpu r2 = Ok k2 /\ flt k1 k2 = false.

(** The rows whose CPU column reads [k]. *)
Definition same_cpu (k : float) (r : row) : bool :=
  match row_cpu r with
  | Ok x => feq x k
  | Raise _ => false
  end.

(** [p.name()] is called for a process without a command line. *)
Definition needs_name (p : process) : bool :=
  match cmdline (info p) with
  | Some (_ :: _) => false
  | _ => true
  end.

(** Reading the attributes of [p] raises. *)
Definition read_fails (p : process) : bool :=
  needs_name p && match name p with Raise _ => true | Ok _ => false end.

(** When reading [p] raises, it is because [p] is gone or access to it is
    denied. *)
Definition gone_or_denied (p : process) : Prop :=
  forall e, needs_name p = true -> name p = Raise e ->
            is_gone_or_denied (exn_cls e) = true.

(** The memory counters of [p], when they were read, are byte counts that a
    float can hold. *)
Definition memory_fits (p : process) : Prop :=
  forall m, memory_info (info p) = Some m ->
            0 <= vms m < 2 ^ 1024 /\ 0 <= rss m < 2 ^ 1024.

(** psutil read every attribute that the row formats: none of them is the
    [None] that [process_iter] stores for an attribute it was denied. *)
Definition attributes_read (p : process) : bool :=
  match cpu_percent (info p), memory_percent (info p), memory_info (info p) with
  | Some _, Some _, Some _ => true
  | _, _, _ => false
  end.

(** The command of [p] before it is cut: its command line, or its name
    when there is none and the name can be read. *)
Definition command (p : process) : option text :=
  match cmdline (info p) with
  | Some (a :: l) => Some (join_space (a :: l))
  | _ => match name p with
         | Ok n => Some n
         | Raise _ => None
         end
  end.

(** The host answers the queries of the status line, and its uptime is one
    that [format_uptime] can show. *)
Definition host_answers (h : host) : Prop :=
  exists host_name boot up cpu,
    hostname h = Ok host_name /\ boot_time h = Ok boot /\
    format_uptime (time_now h) boot = Ok up /\ cpu_now h = Ok cpu.

(** The row of a process that could be read. *)
Definition row_of (clock : option Q -> string) (p : process) : option row :=
  match build_row clock p with
  | Ok r => Some r
  | Raise _ => None
  end.

(** The key of a row whose CPU column reads as a number, and the rows in
    the order [rows.sort] leaves them. *)
Definition cpu_key (r : row) : float :=
  match row_cpu r with
  | Ok k => k
  | Raise _ => Fin 0%Q
  end.

Definition sorted_rows (rows : list row) : list row :=
  map snd (sort_desc (map (fun r => (cpu_key r, r)) rows)).

(** A CPU column that [:.1f] printed. *)
Definition printed_cpu (r : row) : Prop := exists x, r_cpu r = format_1f x.

(** Processes for the examples: a process with a command line, a kernel
    thread without one (its name is shown), and one whose name cannot be
    read. *)
Definition example_info (id : Z) (cpu : Q) (cmd : option (list string)) : proc_info :=
  ProcInfo id (Some "root") (Some (Fin cpu)) (Some (Fin (1 # 3)))
           (Some (Pmem 123456 4000000000)) (option_map (map text_of) cmd) (Some 5%Q).

Definition example_process (id : Z) (cpu : Q) (cmd : option (list string))
    (name : result string) : process :=
  Process (example_info id cpu cmd) (n ← name; Ok (text_of n)).

Definition example_procs : list process :=
  [ example_process 1 (1 # 16) (Some ["sshd"; "-D"]) (Ok "sshd");
    example_process 2 (1 # 8) None (Ok "kthreadd");
    example_process 3 5 (Some []) (Raise (Exn AccessDenied "pid=3"));
    example_process 4 (3 # 2) (Some ["python3"; "main.py"]) (Ok "python3") ].

Definition example_clock (t : option Q) : string := "00:00:05".

Definition example_row (id : Z) (cpu cmd : string) : row :=
  Row id "root" cpu "0.3" "3.7G" "120.6K" "00:00:05" (text_of cmd).

(** A process whose command line has 150 characters: two arguments of 75
    and 74 characters and the blank between them. *)
Definition long_process : process :=
  Process (ProcInfo 7 (Some "root") (Some (Fin 1)) (Some (Fin (1 # 3)))
                    (Some (Pmem 123456 4000000000))
                    (Some [repeat 120%N 75; repeat 120%N 74]) (Some 5%Q))
          (Ok (text_of "x")).

(** The same processes, but psutil was denied the memory counters of the
    second one: [process_iter] leaves [None] in its [info]. *)
Definition denied_procs : list process :=
  [ example_process 1 (1 # 16) (Some ["sshd"; "-D"]) (Ok "sshd");
    Process (ProcInfo 2 (Some "root") (Some (Fin 0)) (Some (Fin 0)) None
                      (Some [text_of "init"]) (Some 5%Q)) (Ok (text_of "init"));
    example_process 4 (3 # 2) (Some ["python3"; "main.py"]) (Ok "python3") ].

(** A tick that meets these processes. *)
Definition denied_env : tick_env :=
  TickEnv (mret tt) (e_vm quiet_env) (e_swap quiet_env) (e_disk quiet_env)
          example_clock (e_host quiet_env) denied_procs (mret tt).

(** The application with the interval set to 1.5 s. *)
Definition sysmon_1500 : SysMon := set_update_interval 1500 sysmon0.

(** [bytes2human] in exact arithmetic, as the specification words it: the
    unit is the first one at which [n / 1024 ^ k] is below 1024, the sixth
    ([P]) if there is none, and the number printed is [n / 1024 ^ k]. *)
Fixpoint unit_index_from (units : nat) (bound n : Z) : nat :=
  match units with
  | O => O
  | S units' => if n <? bound then O else S (unit_index_from units' (bound * 1024) n)
  end.

Definition unit_index (n : Z) : nat := unit_index_from 5 1024 n.

Definition bytes_to_human (n : Z) : string :=
  let k := unit_index n in
  format_1f (Fin (inject_Z n / inject_Z (1024 ^ Z.of_nat k))) +:+ unit_name k.

(** ** Themes *)

(** One probe of [detect_system_theme]: the theme that the answer of the
    desktop names, if it names one and nothing was raised. *)
Definition probe_theme (answer : result string) : result (option string) :=
  match answer with
  | Ok out =>
      let out := str_lower (str_strip out) in
      Ok (if contains "dark" out then Some "dark"
          else if contains "light" out then Some "light"
          else None)
  | Raise e => if is_Exception (exn_cls e) then Ok None else Raise e
  end.

(** [detect_system_theme], with what [gsettings] and [xdg-settings] answer
    when they are asked. *)
Definition detect_system_theme (gsettings xdg_settings : result string) : result string :=
  first ← probe_theme gsettings;
  match first with
  | Some t => Ok t
  | None =>
      second ← probe_theme xdg_settings;
      match second with
      | Some t => Ok t
      | None => Ok "dark"
      end
  end.

Definition _resolve_theme (mode : string) (gsettings xdg_settings : result string)
    : result string :=
  if String.eqb mode "auto" then detect_system_theme gsettings xdg_settings
  else Ok (match THEMES !! mode with Some _ => mode | None => "dark" end).

(** Lines 149 and 172: [THEMES[self._resolve_theme()]]; [None] is the
    [KeyError] of a name that [THEMES] does not have. *)
Definition resolved_colors (mode : string) (gsettings xdg_settings : result string)
    : result (option palette) :=
  t ← _resolve_theme mode gsettings xdg_settings;
  Ok (THEMES !! t).

(** ** Saving the settings *)

(** [BasicInterpolation.before_set], which [ConfigParser] runs on a value
    that is stored: after [%%] is dropped and every [%(name)s] is dropped, a
    [%] that is left is a syntax error. *)
Fixpoint drop_escaped_percents (s : string) : string :=
  match s with
  | EmptyString => EmptyString
  | String c r =>
      match r with
      | String c' r' =>
          if Ascii.eqb c "%" && Ascii.eqb c' "%" then drop_escaped_percents r'
          else String c (drop_escaped_percents r)
      | EmptyString => String c EmptyString
      end
  end.

Inductive key_scan := Outside | SeenPercent | KeyOpened | InKey | KeyClosed.

(** Whether a [%] of [s] is outside every [%(name)s], reading from the
    left. *)
Fixpoint stray_percent (st : key_scan) (s : string) : bool :=
  match s with
  | EmptyString => match st with Outside => false | _ => true end
  | String c r =>
      match st with
      | Outside => stray_percent (if Ascii.eqb c "%" then SeenPercent else Outside) r
      | SeenPercent => if Ascii.eqb c "(" then stray_percent KeyOpened r else true
      | KeyOpened => if Ascii.eqb c ")" then true else stray_percent InKey r
      | InKey => stray_percent (if Ascii.eqb c ")" then KeyClosed else InKey) r
      | KeyClosed => if Ascii.eqb c "s" then stray_percent Outside r else true
      end
  end.

Definition before_set (value : string) : result string :=
  if stray_percent Outside (drop_escaped_percents value)
  then Raise (Exn ValueError "invalid interpolation syntax")
  else Ok value.

(** [save_settings]: the sections that end up in the file at [cfg_path()],
    which has no [[DEFAULT]] section.  The file is taken to be writable. *)
Definition save_settings (fs interval : Z) (mode : string) : result cfg_file :=
  f ← py_str fs;
  i ← py_str interval;
  f ← before_set f;
  i ← before_set i;
  m ← before_set mode;
  Ok (Parsed ∅ {[ "ui" := {[ "font_size" := f; "update_interval_ms" := i;
                             "theme_mode" := m ]} ]}).

(** [_save_settings_now]: the value is the file that is written; the check
    mark of the status text is kept as its UTF-8 bytes.  [_on_close] makes
    the same call of [save_settings]. *)
Definition _save_settings_now : M cfg_file :=
  s ← get;
  file ← lift (save_settings (font_size s) (update_interval s) (theme_mode s));
  modify (set_status "Settings saved ✓");;
  mret file.

(** A value that the text of a configuration file carries unchanged: no
    [%], no blank at either end, no line boundary. *)
Definition ini_plain (v : string) : Prop :=
  contains "%" v = false /\ str_strip v = v /\ splitlines v = match v with EmptyString => [] | _ => [v] end.

(** ** Zoom and the interval menu *)

(** The three zoom handlers.  [_apply_font_size] hands the new size to the
    widgets and swallows their [TclError]s; it leaves the attributes
    alone. *)
Definition _zoom_in : M unit :=
  modify (fun s => set_font_size (font_size s + 1) s).

Definition _zoom_out : M unit :=
  s ← get;
  if 6 <? font_size s then modify (set_font_size (font_size s - 1)) else mret tt.

Definition _zoom_reset : M unit := modify (set_font_size 10).

Inductive zoom := ZoomIn | ZoomOut | ZoomReset.

Definition handle_zoom (z : zoom) : M unit :=
  match z with
  | ZoomIn => _zoom_in
  | ZoomOut => _zoom_out
  | ZoomReset => _zoom_reset
  end.

Fixpoint handle_zooms (zs : list zoom) : M unit :=
  match zs with
  | [] => mret tt
  | z :: zs' => handle_zoom z;; handle_zooms zs'
  end.

(** [sec * 1000] and [int(...)] for an entry of the interval menu, an int
    or a float. *)
Definition num_mul_const (n : num) (k : Z) : num :=
  match n with
  | NInt z => NInt (z * k)
  | NFloat (Fin q) => NFloat (float_mul_const q k)
  | NFloat (Inf s) => NFloat (Inf (xorb s (k <? 0)))
  end.

Definition py_int_of_num (n : num) : result Z :=
  match n with
  | NInt z => Ok z
  | NFloat x => py_int_of_float x
  end.

Definition _set_interval (sec : num) : M unit :=
  v ← lift (py_int_of_num (num_mul_const sec 1000));
  modify (set_update_interval v);;
  t ← lift (num_format_1f sec);
  modify (set_status ("Interval " +:+ t +:+ "s (saved on exit)")).

(** The entries of the menu, line 201. *)
Definition menu_intervals : list num :=
  [NFloat (Fin (1 # 2)); NInt 1; NInt 2; NInt 5].

(** The seconds that [_set_interval] turns into an interval within the
    range of the shortcuts: an int from 1 to 10, a float from 0.25 to 10. *)
Definition menu_range (sec : num) : Prop :=
  match sec with
  | NInt z => 1 <= z <= 10
  | NFloat (Fin q) => (1 # 4 <= q)%Q /\ (q <= 10)%Q
  | NFloat (Inf _) => False
  end.

(** One entry of [cpu_labels]: the name of the core, its bar and the text
    of its percentage. *)
Record cpu_cell := CpuCell { c_name : string; c_bar : canvas; c_pct : string }.

(** The loop of [_update_cpu] over [zip(self.cpu_labels, per)]. *)
Fixpoint update_cells (colors : palette) (size : Z) (cells : list cpu_cell)
    (per : list float) : result unit * list cpu_cell :=
  match cells, per with
  | cell :: cells', p :: per' =>
      let text := format_0f p +:+ "%" in
      match _draw_bar colors size (c_bar cell) p (color_for_load p colors) with
      | (Ok _, b) =>
          let '(r, rest) := update_cells colors size cells' per' in
          (r, CpuCell (c_name cell) b text :: rest)
      | (Raise e, b) => (Raise e, CpuCell (c_name cell) b text :: cells')
      end
  | _, _ => (Ok tt, cells)
  end.

(** [_update_cpu], with what the two calls of [psutil.cpu_percent] gave or
    raised, on the canvas of the total and the cells of the cores. *)
Definition _update_cpu (colors : palette) (size : Z)
    (total : result float) (per : result (list float))
    (panel : canvas * list cpu_cell) : result unit * (canvas * list cpu_cell) :=
  match total with
  | Raise e => (Raise e, panel)
  | Ok t =>
      match _draw_bar colors size (fst panel) t (color_for_load t colors) with
      | (Raise e, c) => (Raise e, (c, snd panel))
      | (Ok _, c) =>
          match per with
          | Raise e => (Raise e, (c, snd panel))
          | Ok ps =>
              let '(r, cells) := update_cells colors size (snd panel) ps in
              (r, (c, cells))
          end
      end
  end.

(** [_create_cpu_panel]: the cell of core [i] sits in row [i // 4] and
    column [i % 4] of the grid, and shows [0%]. *)
Definition cpu_grid_cell (i : Z) : Z * Z := (i / 4, i mod 4).

Definition new_cpu_cell (blank : canvas) (i : Z) : cpu_cell :=
  CpuCell ("CPU" +:+ digits i) blank "0%".

(** ** The top lines *)

(** Line 308: one line for every GPU, or one line that says there is
    none. *)
Definition gpu_lines (gpus : list string) : list string :=
  match imap (fun i g => "GPU" +:+ digits (Z.of_nat i + 1) +:+ ": " +:+ g) gpus with
  | [] => ["GPU: (none detected)"]
  | l => l
  end.

Definition top_lines (host_name up os_info cpu_info : string) (gpus : list string)
    (py : string) : list string :=
  (["Host: " +:+ host_name; "Uptime: " +:+ up; "OS: " +:+ os_info; "CPU: " +:+ cpu_info]
   ++ gpu_lines gpus ++ ["Python " +:+ py])%list.

(** Lines 311-317 on the texts of [top_labels]: labels are added until
    there is one for every line, and every label is given its line, or the
    empty text. *)
Definition show_lines (lines labels : list string) : list string :=
  let labels :=
    (labels ++ repeat "" (Nat.max (length labels) (length lines) - length labels))%list in
  let texts := (lines ++ repeat "" (length labels - length lines))%list in
  (zip_with (fun _ text => text) labels texts ++ drop (length texts) labels)%list.

(** What [_update_top_info] asks the host. *)
Record top_env := TopEnv {
  t_hostname : result string;          (* socket.gethostname() *)
  t_boot_time : result Q;              (* psutil.boot_time() *)
  t_time : Q;                          (* time.time() *)
  t_lsb_release : result string;
  t_os_release : list string;
  t_system : string;                   (* platform.system() *)
  t_lscpu : result string;
  t_processor : string;                (* platform.processor() *)
  t_lspci : result string;
  t_python_version : string            (* platform.python_version() *)
}.

Definition _update_top_info (env : top_env) (labels : list string)
    : result (list string) :=
  host_name ← t_hostname env;
  _ ← t_boot_time env;
  boot ← t_boot_time env;
  up ← format_uptime (t_time env) boot;
  os_info ← get_os_name (t_lsb_release env) (t_os_release env) (t_system env);
  cpu_info ← get_cpu_model (t_lscpu env) (t_processor env);
  gpus ← get_gpu_list (t_lspci env);
  Ok (show_lines
        (top_lines host_name up os_info cpu_info gpus (t_python_version env)) labels).

(** ** Reading the further definitions back *)

(** A method that neither schedules nor cancels a tick and leaves the
    interval alone. *)
Definition keeps_schedule {A} (m : M A) : Prop :=
  forall s, timers (snd (m s)) = timers s /\
            update_interval (snd (m s)) = update_interval s.

(** A tick whose body lets nothing but an [Exception] out, and whose two
    display updates keep the schedule. *)
Definition steady_tick (env : tick_env) : Prop :=
  raises_only_Exception env /\
  keeps_schedule (e_update_cpu env) /\ keeps_schedule (e_update_top_info env).

(** A call that raises nothing but an [Exception]: the command is missing,
    or it failed. *)
Definition only_Exception {A} (r : result A) : Prop :=
  forall e, r = Raise e -> is_Exception (exn_cls e) = true.

(** A method that raises nothing but an [Exception]. *)
Definition method_only_Exception {A} (m : M A) : Prop :=
  forall s e s', m s = (Raise e, s') -> is_Exception (exn_cls e) = true.

(** A tick in which the operating system raises nothing but [Exception]s:
    no query (memory, swap, disk, host name, boot time, CPU load) and no
    process name raises anything else, and neither do the two display
    updates. *)
Definition calm_tick (env : tick_env) : Prop :=
  method_only_Exception (e_update_cpu env) /\
  method_only_Exception (e_update_top_info env) /\
  only_Exception (e_vm env) /\ only_Exception (e_swap env) /\
  only_Exception (e_disk env) /\
  Forall (fun p => only_Exception (name p)) (e_procs env) /\
  only_Exception (hostname (e_host env)) /\
  only_Exception (boot_time (e_host env)) /\
  only_Exception (cpu_now (e_host env)).

(** A text without blanks at its ends, and one without a colon. *)
Definition stripped (s : string) : Prop := str_strip s = s.

Definition colon_free (s : string) : Prop := split_once ":" s = None.

(** A line: a text without a line boundary; and lines written one after
    the other, each ended by a line feed, as commands print them. *)
Fixpoint plain_line (s : string) : bool :=
  match s with
  | EmptyString => true
  | String c r => negb (is_linebreak c) && plain_line r
  end.

Fixpoint unlines (lines : list string) : string :=
  match lines with
  | [] => EmptyString
  | l :: lines' => l +:+ String "010" (unlines lines')
  end.

(** The longest uptime that a [timedelta] holds, in seconds. *)
Definition max_uptime : Z := 999999999 * 86400 + 86399.

(** A host on which [lsb_release], [lscpu] and [lspci] are missing, a day
    and an hour after it was started. *)
Definition bare_host : top_env :=
  TopEnv (Ok "box") (Ok 1000%Q) (182123 # 2)
         (Raise (Exn OSError "lsb_release")) ["NAME=Debian"; "PRETTY_NAME=Debian 12"] "Linux"
         (Raise (Exn OSError "lscpu")) "" (Raise (Exn OSError "lspci")) "3.11.2".

(** A percentage: a float from 0 to 100. *)
Definition percentage (x : float) : Prop :=
  match x with
  | Fin p => (0 <= p)%Q /\ (p <= 100)%Q
  | Inf _ => False
  end.

(** A canvas that shows a bar of the colour [color] within its bounds: the
    background over the whole canvas, the bar from the left edge to some
    point of the canvas, and a text. *)
Definition shows_bar (colors : palette) (c : canvas) (color : string) : Prop :=
  let w := if winfo_width c =? 0 then 100 else winfo_width c in
  let h := if winfo_height c =? 0 then 14 else winfo_height c in
  exists x text,
    items c = [Rectangle 0 0 w h (bg colors); Rectangle 0 0 x h color; text] /\
    0 <= x <= w.

(** A number that a binary64 float holds: [m * 2 ^ e] with [|m| < 2 ^ 53]
    and [emin <= e <= 971]. *)
Definition binary64 (q : Q) : Prop :=
  exists m e, Z.abs m < 2 ^ 53 /\ emin <= e <= 971 /\
              (q == (m * pow2 e # Z.to_pos (pow2 (- e))))%Q.

(** * Properties *)

(** ** Rounding *)

Lemma round_half_even_le num den K :
  0 < den -> num <= K * den -> round_half_even num den <= K.
Proof.
  intros Hden Hle. unfold round_half_even.
  assert (Hq : num / den <= K) by (apply Z.div_le_upper_bound; lia).
  pose proof (Z.mod_pos_bound num den Hden) as Hr.
  pose proof (Z.div_mod num den ltac:(lia)) as Hdm.
  destruct (2 * (num mod den) <? den) eqn:E1; [lia|].
  apply Z.ltb_ge in E1.
  assert (num / den <> K) by nia.
  destruct (den <? 2 * (num mod den)); [lia|].
  destruct (Z.even (num / den)); lia.
Qed.

Lemma round_half_even_nonneg num den :
  0 < den -> 0 <= num -> 0 <= round_half_even num den.
Proof.
  intros Hden Hnum. unfold round_half_even.
  assert (0 <= num / den) by (apply Z.div_pos; lia).
  destruct (2 * (num mod den) <? den); [lia|].
  destruct (den <? 2 * (num mod den)); [lia|].
  destruct (Z.even (num / den)); lia.
Qed.

(** The rounded quotient is within half a unit of the exact one. *)
Lemma round_half_even_near num den :
  0 < den -> 2 * Z.abs (num - round_half_even num den * den) <= den.
Proof.
  intros Hden. unfold round_half_even.
  pose proof (Z.mod_pos_bound num den Hden) as Hr.
  pose proof (Z.div_mod num den ltac:(lia)) as Hdm.
  destruct (2 * (num mod den) <? den) eqn:E1.
  - apply Z.ltb_lt in E1. nia.
  - apply Z.ltb_ge in E1.
    destruct (den <? 2 * (num mod den)) eqn:E2.
    + apply Z.ltb_lt in E2. nia.
    + apply Z.ltb_ge in E2. destruct (Z.even (num / den)); nia.
Qed.

Lemma round_half_even_scale a b k :
  0 < b -> 0 < k -> round_half_even (a * k) (b * k) = round_half_even a b.
Proof.
  intros Hb Hk. unfold round_half_even.
  rewrite Z.div_mul_cancel_r by lia. rewrite Z.mul_mod_distr_r by lia.
  replace (2 * (a mod b * k) <? b * k) with (2 * (a mod b) <? b)
    by (destruct (2 * (a mod b) <? b) eqn:E; symmetry;
        [apply Z.ltb_lt in E; apply Z.ltb_lt; nia | apply Z.ltb_ge in E; apply Z.ltb_ge; nia]).
  replace (b * k <? 2 * (a mod b * k)) with (b <? 2 * (a mod b))
    by (destruct (b <? 2 * (a mod b)) eqn:E; symmetry;
        [apply Z.ltb_lt in E; apply Z.ltb_lt; nia | apply Z.ltb_ge in E; apply Z.ltb_ge; nia]).
  reflexivity.
Qed.

Lemma pow2_pos k : 0 < pow2 k.
Proof. unfold pow2. apply Z.pow_pos_nonneg; lia. Qed.

Lemma pow2_nonpos k : k <= 0 -> pow2 k = 1.
Proof. intros H. unfold pow2. rewrite Z.max_l by lia. reflexivity. Qed.

Lemma pow2_nonneg k : 0 <= k -> pow2 k = 2 ^ k.
Proof. intros H. unfold pow2. rewrite Z.max_r by lia. reflexivity. Qed.

Lemma ilog2_frac_le p q : ilog2_frac p q <= Z.log2 p - Z.log2 q.
Proof. unfold ilog2_frac. destruct (_ <=? _); lia. Qed.

(** [ilog2_frac] is the exponent of the binade of [p / q]:
    [2 ^ L <= p / q < 2 ^ (L + 1)]. *)
Lemma ilog2_frac_spec p q :
  0 < p -> 0 < q ->
  let L := ilog2_frac p q in
  q * pow2 L <= p * pow2 (- L) /\ p * pow2 (- (L + 1)) < q * pow2 (L + 1).
Proof.
  intros Hp Hq. cbn zeta. unfold ilog2_frac.
  pose proof (Z.log2_spec p Hp) as [Hp1 Hp2].
  pose proof (Z.log2_spec q Hq) as [Hq1 Hq2].
  pose proof (Z.log2_nonneg p) as Ha. pose proof (Z.log2_nonneg q) as Hb.
  set (a := Z.log2 p) in *. set (b := Z.log2 q) in *.
  rewrite <- Z.add_1_r in Hp2, Hq2. rewrite Z.pow_add_r in Hp2, Hq2 by lia.
  change (2 ^ 1) with 2 in *.
  assert (HA : 0 < 2 ^ a) by (apply Z.pow_pos_nonneg; lia).
  assert (HB : 0 < 2 ^ b) by (apply Z.pow_pos_nonneg; lia).
  destruct (q * pow2 (a - b) <=? p * pow2 (- (a - b))) eqn:E.
  - apply Z.leb_le in E. split; [exact E|].
    destruct (Z.le_gt_cases b (a + 1)) as [Hab | Hab].
    + rewrite (pow2_nonpos (- (a - b + 1))), (pow2_nonneg (a - b + 1)) by lia.
      assert (2 ^ a * 2 = 2 ^ (a - b + 1) * 2 ^ b) as Hs.
      { rewrite <- Z.pow_add_r by lia. replace (a - b + 1 + b) with (a + 1) by lia.
        rewrite Z.pow_add_r by lia. reflexivity. }
      assert (0 < 2 ^ (a - b + 1)) by (apply Z.pow_pos_nonneg; lia). nia.
    + rewrite (pow2_nonneg (- (a - b + 1))), (pow2_nonpos (a - b + 1)) by lia.
      assert (2 ^ b = 2 ^ (- (a - b + 1)) * (2 ^ a * 2)) as Hs.
      { replace (2 ^ a * 2) with (2 ^ (a + 1)) by (rewrite Z.pow_add_r by lia; reflexivity).
        rewrite <- Z.pow_add_r by lia. f_equal. lia. }
      assert (0 < 2 ^ (- (a - b + 1))) by (apply Z.pow_pos_nonneg; lia). nia.
  - apply Z.leb_gt in E. replace (a - b - 1 + 1) with (a - b) by lia.
    split; [|exact E].
    destruct (Z.le_gt_cases (b + 1) a) as [Hab | Hab].
    + rewrite (pow2_nonneg (a - b - 1)), (pow2_nonpos (- (a - b - 1))) by lia.
      assert (2 ^ a = 2 ^ (a - b - 1) * (2 ^ b * 2)) as Hs.
      { replace (2 ^ b * 2) with (2 ^ (b + 1)) by (rewrite Z.pow_add_r by lia; reflexivity).
        rewrite <- Z.pow_add_r by lia. f_equal. lia. }
      assert (0 < 2 ^ (a - b - 1)) by (apply Z.pow_pos_nonneg; lia). nia.
    + rewrite (pow2_nonpos (a - b - 1)), (pow2_nonneg (- (a - b - 1))) by lia.
      assert (2 ^ b * 2 = 2 ^ (- (a - b - 1)) * 2 ^ a) as Hs.
      { rewrite <- Z.pow_add_r by lia. replace (- (a - b - 1) + a) with (b + 1) by lia.
        rewrite Z.pow_add_r by lia. reflexivity. }
      assert (0 < 2 ^ (- (a - b - 1))) by (apply Z.pow_pos_nonneg; lia). nia.
Qed.

(** Rounding cannot step over a bound that lies on the grid of the binade:
    a quotient of at most [b * 2 ^ t], with [b] of at most 53 bits, rounds
    to a finite number that is at most [b * 2 ^ t]. *)
Lemma round_pos_bounded p q b t :
  0 < p -> 0 < q -> 0 <= t <= 971 -> 0 <= b <= 2 ^ 52 ->
  p <= b * 2 ^ t * q ->
  exists r, round_pos p q = Fin r /\ (0 <= r)%Q /\ (r <= inject_Z (b * 2 ^ t))%Q.
Proof.
  intros Hp Hq Ht Hb Hle. unfold round_pos.
  set (e := Z.max (ilog2_frac p q - 52) emin).
  assert (H2t : 0 < 2 ^ t) by (apply Z.pow_pos_nonneg; lia).
  assert (He : e <= t).
  { pose proof (ilog2_frac_le p q) as HL.
    assert (Z.log2 p <= 52 + t + Z.log2 q).
    { rewrite <- Z.log2_mul_pow2 by lia. apply Z.log2_le_mono.
      rewrite Z.pow_add_r by lia. nia. }
    unfold e, emin. lia. }
  assert (Hbig : b * 2 ^ t < 2 ^ 1024).
  { apply Z.le_lt_trans with (2 ^ 52 * 2 ^ 971).
    - apply Z.mul_le_mono_nonneg; try lia. apply Z.pow_le_mono_r; lia.
    - reflexivity. }
  destruct (Z.le_gt_cases e 0) as [Hneg | Hpos].
  - rewrite (pow2_nonpos e) by lia. rewrite (pow2_nonneg (- e)) by lia.
    set (X := 2 ^ (- e)).
    assert (HX : 0 < X) by (apply Z.pow_pos_nonneg; lia).
    set (m := round_half_even (p * X) (q * 1)).
    assert (Hm : m <= b * 2 ^ t * X).
    { apply round_half_even_le; [lia | nia]. }
    assert (Hm0 : 0 <= m) by (apply round_half_even_nonneg; nia).
    destruct (2 ^ 1024 * X <=? m * 1) eqn:Ov.
    { apply Z.leb_le in Ov. nia. }
    eexists. split; [reflexivity|]. unfold Qle; cbn [Qnum Qden inject_Z].
    rewrite Z2Pos.id by lia. split; nia.
  - rewrite (pow2_nonneg e) by lia. rewrite (pow2_nonpos (- e)) by lia.
    set (X := 2 ^ e).
    assert (HX : 0 < X) by (apply Z.pow_pos_nonneg; lia).
    assert (Hsplit : 2 ^ t = 2 ^ (t - e) * X).
    { unfold X. rewrite <- Z.pow_add_r by lia. f_equal. lia. }
    assert (HY : 0 < 2 ^ (t - e)) by (apply Z.pow_pos_nonneg; lia).
    set (m := round_half_even (p * 1) (q * X)).
    assert (Hm : m <= b * 2 ^ (t - e)).
    { apply round_half_even_le; [nia|]. rewrite Hsplit in Hle. nia. }
    assert (Hm0 : 0 <= m) by (apply round_half_even_nonneg; nia).
    destruct (2 ^ 1024 * 1 <=? m * X) eqn:Ov.
    { apply Z.leb_le in Ov. rewrite Hsplit in Hbig. nia. }
    eexists. split; [reflexivity|]. unfold Qle; cbn [Qnum Qden inject_Z].
    change (Z.pos (Z.to_pos 1)) with 1. rewrite Hsplit. split; nia.
Qed.

Lemma RN_bounded (x : Q) b t :
  0 <= t <= 971 -> 0 <= b <= 2 ^ 52 ->
  (0 <= x)%Q -> (x <= inject_Z (b * 2 ^ t))%Q ->
  exists r, RN x = Fin r /\ (0 <= r)%Q /\ (r <= inject_Z (b * 2 ^ t))%Q.
Proof.
  intros Ht Hb H0 Hle. destruct x as [n d]. unfold RN. cbn [Qnum Qden].
  unfold Qle in *. cbn [Qnum Qden inject_Z] in *.
  assert (0 < 2 ^ t) by (apply Z.pow_pos_nonneg; lia).
  destruct n as [|n|n]; [ | | lia].
  - exists 0%Q. split; [reflexivity|]. unfold Qle; cbn. nia.
  - apply round_pos_bounded; lia.
Qed.

Lemma int_truediv_bounded a b B t :
  0 <= t <= 971 -> 0 <= B <= 2 ^ 52 ->
  0 <= a -> 0 < b -> a <= B * 2 ^ t * b ->
  exists r, int_truediv a b = Ok r /\ (0 <= r)%Q /\ (r <= inject_Z (B * 2 ^ t))%Q.
Proof.
  intros Ht HB Ha Hb Hle. unfold int_truediv.
  destruct (b =? 0) eqn:Eb; [apply Z.eqb_eq in Eb; lia|].
  destruct (RN_bounded (inject_Z a / inject_Z b) B t Ht HB) as (r & Hr & H0 & H1).
  - destruct b as [|pb|pb]; try lia.
    unfold Qle; cbn. lia.
  - destruct b as [|pb|pb]; try lia.
    unfold Qle; cbn. lia.
  - exists r. rewrite Hr. auto.
Qed.

(** Rounding is exact on a number that a float holds: a positive [m / 2 ^ j]
    with [m] below [2 ^ 53]. *)
Lemma round_pos_exact p q m j :
  0 < p -> 0 < q -> 0 < m < 2 ^ 53 -> 0 <= j <= 1022 ->
  p * 2 ^ j = m * q ->
  exists r, round_pos p q = Fin r /\ (r == p # Z.to_pos q)%Q.
Proof.
  intros Hp Hq Hm Hj Heq. unfold round_pos.
  pose proof (ilog2_frac_spec p q Hp Hq) as [Hlo _]. cbn zeta in Hlo.
  set (L := ilog2_frac p q) in *.
  assert (H2j : 0 < 2 ^ j) by (apply Z.pow_pos_nonneg; lia).
  assert (HL : L <= 52 - j).
  { destruct (Z.le_gt_cases L (52 - j)) as [|Hgt]; [assumption | exfalso].
    assert (Hlo' : 2 ^ j * pow2 L <= m * pow2 (- L)).
    { apply Z.mul_le_mono_pos_l with q; [assumption|].
      replace (q * (2 ^ j * pow2 L)) with (2 ^ j * (q * pow2 L)) by ring.
      replace (q * (m * pow2 (- L))) with (p * 2 ^ j * pow2 (- L)) by (rewrite Heq; ring).
      nia. }
    destruct (Z.le_gt_cases 0 L) as [HL0 | HL0].
    - rewrite (pow2_nonneg L), (pow2_nonpos (- L)) in Hlo' by lia.
      rewrite <- Z.pow_add_r in Hlo' by lia.
      assert (2 ^ 53 <= 2 ^ (j + L)) by (apply Z.pow_le_mono_r; lia). lia.
    - rewrite (pow2_nonpos L), (pow2_nonneg (- L)) in Hlo' by lia.
      assert (2 ^ 53 * 2 ^ (- L) <= 2 ^ j).
      { rewrite <- Z.pow_add_r by lia. apply Z.pow_le_mono_r; lia. }
      assert (0 < 2 ^ (- L)) by (apply Z.pow_pos_nonneg; lia). nia. }
  set (e := Z.max (L - 52) emin).
  assert (He : e <= - j) by (unfold e, emin; lia).
  rewrite (pow2_nonpos e), (pow2_nonneg (- e)) by lia.
  assert (Hsplit : 2 ^ (- e) = 2 ^ (- e - j) * 2 ^ j).
  { rewrite <- Z.pow_add_r by lia. f_equal. lia. }
  set (Y := 2 ^ (- e - j)) in *.
  assert (HY : 0 < Y) by (apply Z.pow_pos_nonneg; lia).
  assert (Hnum : p * 2 ^ (- e) = m * Y * (q * 1)) by (rewrite Hsplit; nia).
  assert (Hm' : round_half_even (p * 2 ^ (- e)) (q * 1) = m * Y).
  { unfold round_half_even. rewrite Hnum.
    rewrite Z.div_mul, Z.mod_mul by lia.
    destruct (2 * 0 <? q * 1) eqn:E; [reflexivity|]. apply Z.ltb_ge in E. lia. }
  rewrite Hm'.
  destruct (2 ^ 1024 * 2 ^ (- e) <=? m * Y * 1) eqn:Ov.
  { apply Z.leb_le in Ov. rewrite Hsplit in Ov.
    assert (2 ^ 53 < 2 ^ 1024) by reflexivity. nia. }
  eexists. split; [reflexivity|].
  unfold Qeq. cbn [Qnum Qden]. rewrite !Z2Pos.id by lia. rewrite Hsplit. nia.
Qed.

(** An int below [2 ^ 53] converts to the float of the same value. *)
Lemma float_of_int_exact z :
  0 <= z < 2 ^ 53 -> exists q, float_of_int z = Ok q /\ (q == inject_Z z)%Q.
Proof.
  intros [H0 H1]. unfold float_of_int, RN. cbn [inject_Z Qnum Qden].
  destruct z as [|p|p]; [| |lia].
  { exists 0%Q. split; reflexivity. }
  unfold round_pos.
  pose proof (Z.log2_spec (Z.pos p) ltac:(lia)) as [Hlo Hhi].
  pose proof (Z.log2_nonneg (Z.pos p)) as Hd0.
  assert (Hd : Z.log2 (Z.pos p) <= 52).
  { enough (Z.log2 (Z.pos p) < 53) by lia. apply Z.log2_lt_pow2; lia. }
  set (d := Z.log2 (Z.pos p)) in *.
  assert (HL : ilog2_frac (Z.pos p) 1 = d).
  { unfold ilog2_frac. change (Z.log2 1) with 0. fold d.
    rewrite Z.sub_0_r. rewrite pow2_nonneg, pow2_nonpos by lia.
    destruct (1 * 2 ^ d <=? Z.pos p * 1) eqn:E; [reflexivity|].
    apply Z.leb_gt in E. lia. }
  rewrite HL. unfold emin. rewrite Z.max_l by lia.
  rewrite (pow2_nonpos (d - 52)), (pow2_nonneg (- (d - 52))) by lia.
  set (X := 2 ^ (- (d - 52))).
  assert (HX : 0 < X) by (apply Z.pow_pos_nonneg; lia).
  assert (Hm : round_half_even (Z.pos p * X) (1 * 1) = Z.pos p * X).
  { unfold round_half_even. change (1 * 1) with 1.
    rewrite Z.div_1_r, Z.mod_1_r. reflexivity. }
  rewrite Hm.
  destruct (2 ^ 1024 * X <=? Z.pos p * X * 1) eqn:Ov.
  { apply Z.leb_le in Ov. assert (2 ^ 53 < 2 ^ 1024) by reflexivity. nia. }
  eexists. split; [reflexivity|].
  unfold Qeq. cbn [Qnum Qden inject_Z]. rewrite Z2Pos.id by lia. lia.
Qed.

(** [RN] on numbers whose binary64 value is known: 0.1 is
    [0x1.999999999999ap-4], [2 ^ 53 + 1] is a tie that goes to the even
    [2 ^ 53], the largest finite number is kept and the midpoint above it
    overflows, and half the smallest subnormal goes to zero. *)
Example RN_known_values :
  RN (1 # 10) = Fin (7205759403792794 # 2 ^ 56) /\
  RN (inject_Z (2 ^ 53 + 1)) = Fin (inject_Z (2 ^ 53)) /\
  RN (inject_Z (2 ^ 53 + 3)) = Fin (inject_Z (2 ^ 53 + 4)) /\
  RN (inject_Z (2 ^ 1024 - 2 ^ 971)) = Fin (inject_Z (2 ^ 1024 - 2 ^ 971)) /\
  RN (inject_Z (2 ^ 1024 - 2 ^ 970)) = Inf false /\
  RN (3 # 2 ^ 1075) = Fin (2 # 2 ^ 1074) /\
  (exists d, RN (1 # 2 ^ 1075) = Fin (0 # d)).
Proof. vm_compute. repeat split. eexists. reflexivity. Qed.

(** ** The order on floats *)

Lemma flt_int_Fin q k : flt_int (Fin q) k = true <-> (q < inject_Z k)%Q.
Proof.
  cbn. destruct (Qlt_le_dec q (inject_Z k)) as [H|H]; split; intros; try easy.
  exfalso. apply (Qlt_not_le _ _ H0 H).
Qed.

Lemma flt_int_Fin_false q k : flt_int (Fin q) k = false <-> (inject_Z k <= q)%Q.
Proof.
  cbn. destruct (Qlt_le_dec q (inject_Z k)) as [H|H]; split; intros; try easy.
  exfalso. apply (Qlt_not_le _ _ H H0).
Qed.

Lemma flt_Fin a b : flt (Fin a) (Fin b) = true <-> (a < b)%Q.
Proof.
  cbn. destruct (Qlt_le_dec a b); split; intros; try easy. lra.
Qed.

Lemma flt_Fin_false a b : flt (Fin a) (Fin b) = false <-> (b <= a)%Q.
Proof.
  cbn. destruct (Qlt_le_dec a b); split; intros; try easy. lra.
Qed.

Lemma flt_asym x y : flt x y = true -> flt y x = false.
Proof.
  destruct x as [a|[]], y as [b|[]]; try easy.
  rewrite flt_Fin, flt_Fin_false. lra.
Qed.

Lemma flt_ge_trans x y z : flt x y = false -> flt y z = false -> flt x z = false.
Proof.
  destruct x as [a|[]], y as [b|[]], z as [c|[]]; try easy.
  rewrite !flt_Fin_false. lra.
Qed.

Lemma flt_irrefl x : flt x x = false.
Proof. destruct x as [a|[]]; try reflexivity. apply flt_Fin_false. lra. Qed.

Lemma feq_refl x : feq x x = true.
Proof. destruct x as [a|[]]; try reflexivity. apply Qeq_bool_iff. reflexivity. Qed.

Lemma feq_not_lt x y k : feq x k = true -> feq y k = true -> flt x y = false.
Proof.
  destruct x as [a|[]], y as [b|[]], k as [c|[]]; try easy.
  cbn [feq]. rewrite !Qeq_bool_iff, flt_Fin_false. lra.
Qed.

Lemma feq_of_not_lt x y : flt x y = false -> flt y x = false -> feq x y = true.
Proof.
  destruct x as [a|[]], y as [b|[]]; try easy.
  rewrite !flt_Fin_false. cbn [feq]. rewrite Qeq_bool_iff. lra.
Qed.

(** ** Strings and binds *)

Lemma app_String c a b : String c a +:+ b = String c (a +:+ b).
Proof. reflexivity. Qed.

Lemma app_empty b : "" +:+ b = b.
Proof. reflexivity. Qed.

Lemma length_app_string a b :
  String.length (a +:+ b) = (String.length a + String.length b)%nat.
Proof.
  induction a as [|c a IH]; [reflexivity|].
  rewrite app_String. cbn [String.length]. now rewrite IH.
Qed.

Lemma substring_0_length n : forall s,
  (n <= String.length s)%nat -> String.length (substring 0 n s) = n.
Proof.
  induction n as [|n IH]; intros [|c s] H; cbn in *; try reflexivity; try lia.
  rewrite IH by lia. reflexivity.
Qed.

Lemma substring_0_prefix n : forall s, exists rest, s = substring 0 n s +:+ rest.
Proof.
  induction n as [|n IH]; intros [|c s].
  - exists "". reflexivity.
  - exists (String c s). reflexivity.
  - exists "". reflexivity.
  - destruct (IH s) as (rest & Hr). exists rest.
    cbn [substring]. rewrite app_String. now f_equal.
Qed.

Lemma bind_Ok {A B} (r : result A) (k : A -> result B) b :
  r ≫= k = Ok b -> exists a, r = Ok a /\ k a = Ok b.
Proof. destruct r as [a|e]; [|discriminate]. intros H. now exists a. Qed.

Lemma bind_Ok_l {A B} (a : A) (k : A -> result B) : Ok a ≫= k = k a.
Proof. reflexivity. Qed.

(** ** Printing with [:.1f] *)

(** The digits printed depend on the number only, not on the fraction
    that writes it. *)
Lemma tenths_Qeq x y : (x == y)%Q -> tenths x = tenths y.
Proof.
  destruct x as [nx dx], y as [ny dy]. unfold Qeq, tenths. cbn [Qnum Qden]. intros E.
  rewrite <- (round_half_even_scale (10 * Z.abs nx) (Z.pos dx) (Z.pos dy)) by lia.
  rewrite <- (round_half_even_scale (10 * Z.abs ny) (Z.pos dy) (Z.pos dx)) by lia.
  f_equal; [|lia].
  replace (10 * Z.abs nx * Z.pos dy) with (10 * Z.abs (nx * Z.pos dy)) by (rewrite Z.abs_mul; lia).
  replace (10 * Z.abs ny * Z.pos dx) with (10 * Z.abs (ny * Z.pos dx)) by (rewrite Z.abs_mul; lia).
  now rewrite E.
Qed.

(** [:.1f] prints the tenth nearest to the number. *)
Lemma tenths_near x : (0 <= x)%Q -> (Qabs (10 * x - inject_Z (tenths x)) <= 1 # 2)%Q.
Proof.
  destruct x as [n d]. unfold Qle at 1. cbn [Qnum Qden]. intros Hn.
  assert (H : 2 * Z.abs (10 * Z.abs n - tenths (n # d) * Z.pos d) <= Z.pos d)
    by (apply round_half_even_near; lia).
  set (t := tenths (n # d)) in *.
  rewrite (Z.abs_eq n) in H by lia.
  apply Qabs_Qle_condition. unfold Qle, Qminus, Qplus, Qmult, Qopp, inject_Z.
  cbn [Qnum Qden]. split; lia.
Qed.

Lemma tenths_nonneg x : 0 <= tenths x.
Proof. unfold tenths. apply round_half_even_nonneg; lia. Qed.

Lemma digits_one_char d : 0 <= d < 10 -> String.length (digits d) = 1%nat.
Proof.
  intros H.
  assert (d = 0 \/ d = 1 \/ d = 2 \/ d = 3 \/ d = 4 \/ d = 5 \/ d = 6 \/ d = 7
          \/ d = 8 \/ d = 9) as Hd by lia.
  repeat (destruct Hd as [-> | Hd]; [reflexivity|]). subst. reflexivity.
Qed.

Lemma format_1f_nonneg x :
  (0 <= x)%Q ->
  format_1f (Fin x) = digits (tenths x / 10) +:+ "." +:+ digits (tenths x mod 10).
Proof.
  intros H. unfold format_1f.
  destruct (Qnum x <? 0) eqn:E; [|reflexivity].
  apply Z.ltb_lt in E. unfold Qle in H. cbn in H. lia.
Qed.

Lemma format_1f_Qeq x y : (x == y)%Q -> format_1f (Fin x) = format_1f (Fin y).
Proof.
  intros E. unfold format_1f. rewrite (tenths_Qeq x y E).
  replace (Qnum y <? 0) with (Qnum x <? 0); [reflexivity|].
  destruct x as [nx dx], y as [ny dy]. unfold Qeq in E. cbn [Qnum Qden] in *.
  destruct (nx <? 0) eqn:Ex, (ny <? 0) eqn:Ey; try reflexivity;
    [apply Z.ltb_lt in Ex; apply Z.ltb_ge in Ey | apply Z.ltb_ge in Ex; apply Z.ltb_lt in Ey];
    nia.
Qed.

(** [:.1f] on known values: ties of the exact binary value go to the even
    digit. *)
Example format_1f_known_values :
  format_1f (Fin (1 # 4)) = "0.2" /\ format_1f (Fin (3 # 4)) = "0.8" /\
  format_1f (Fin (- (1 # 25))) = "-0.0" /\ format_1f (Fin 1023) = "1023.0" /\
  format_1f (Inf false) = "inf".
Proof. vm_compute. repeat split. Qed.

(** ** Reading back what [:.1f] printed *)

Lemma digit_facts c :
  is_digit c = true ->
  Ascii.eqb c "." = false /\ Ascii.eqb c "-" = false /\ Ascii.eqb c "i" = false /\
  forall r, strip_minus (String c r) = (false, String c r).
Proof.
  destruct c as [[] [] [] [] [] [] [] []]; cbn; intros H; try discriminate H;
    repeat split.
Qed.

Lemma all_digits_uint d : all_digits (NilEmpty.string_of_uint d) = true.
Proof. induction d; cbn; auto. Qed.

Lemma digits_shape n :
  exists c r, digits n = String c r /\ is_digit c = true /\ all_digits r = true.
Proof.
  unfold digits, NilZero.string_of_uint.
  destruct (N.to_uint (Z.to_N n)) as [|d|d|d|d|d|d|d|d|d|d]; cbn;
    do 2 eexists; (split; [reflexivity | split; [reflexivity|]]);
    try reflexivity; apply all_digits_uint.
Qed.

Lemma digits_all_digits n : all_digits (digits n) = true.
Proof.
  destruct (digits_shape n) as (c & r & -> & Hc & Hr). cbn. now rewrite Hc, Hr.
Qed.

Lemma split_dot_digits a b :
  all_digits a = true -> split_dot (a +:+ "." +:+ b) = (a, Some b).
Proof.
  induction a as [|c a IH]; [reflexivity|].
  cbn [all_digits]. intros [Hc Ha]%andb_prop.
  rewrite app_String. cbn [split_dot].
  rewrite (proj1 (digit_facts c Hc)), (IH Ha). reflexivity.
Qed.

Lemma uint_of_string_digits n :
  NilZero.uint_of_string (digits n) = Some (N.to_uint (Z.to_N n)).
Proof.
  unfold digits. apply NilZero.usu. intros E.
  pose proof (DecimalN.Unsigned.of_to (Z.to_N n)) as H. rewrite E in H.
  cbn in H. rewrite <- H in E. discriminate E.
Qed.

Lemma decimal_value_digits a b :
  0 <= a -> 0 <= b < 10 ->
  decimal_value (digits a) (digits b) = Some ((a * 10 + b) # 10).
Proof.
  intros Ha Hb. unfold decimal_value.
  rewrite !uint_of_string_digits, !DecimalN.Unsigned.of_to, !Z2N.id by lia.
  rewrite digits_one_char by lia. reflexivity.
Qed.

Lemma head_digit_not_inf X c r :
  X = String c r -> is_digit c = true ->
  String.eqb X "inf" = false /\ String.eqb X "-inf" = false /\
  String.eqb (String "-" X) "inf" = false /\ String.eqb (String "-" X) "-inf" = false /\
  strip_minus X = (false, X).
Proof.
  intros -> Hc. destruct (digit_facts c Hc) as (_ & Hm & Hi & Hs).
  cbn [String.eqb]. rewrite Hm, Hi. cbn. repeat split. apply Hs.
Qed.

(** The sort key of a row is the percentage as it was printed. *)
Lemma py_float_format_1f x : py_float (format_1f x) = Ok (shown_cpu x).
Proof.
  destruct x as [q | [|]]; [|reflexivity|reflexivity].
  unfold format_1f, shown_cpu.
  set (t := tenths q).
  assert (Ht : 0 <= t) by apply tenths_nonneg.
  set (X := digits (t / 10) +:+ "." +:+ digits (t mod 10)).
  assert (HX : exists c r, X = String c r /\ is_digit c = true).
  { destruct (digits_shape (t / 10)) as (c & r & Hd & Hc & _).
    exists c, (r +:+ "." +:+ digits (t mod 10)). unfold X. rewrite Hd. auto. }
  destruct HX as (c & r & HX & Hc).
  destruct (head_digit_not_inf X c r HX Hc) as (H1 & H2 & H3 & H4 & H5).
  assert (Hsplit : split_dot X = (digits (t / 10), Some (digits (t mod 10))))
    by apply split_dot_digits, digits_all_digits.
  assert (Hval : decimal_value (digits (t / 10)) (digits (t mod 10)) = Some (t # 10)).
  { rewrite decimal_value_digits.
    - do 2 f_equal. pose proof (Z.div_mod t 10). lia.
    - apply Z.div_pos; lia.
    - apply Z.mod_pos_bound. lia. }
  unfold py_float. destruct (Qnum q <? 0).
  - rewrite app_String, app_empty. rewrite H3, H4.
    cbn [strip_minus]. rewrite Hsplit, Hval. reflexivity.
  - rewrite app_empty. rewrite H1, H2, H5, Hsplit, Hval. reflexivity.
Qed.

(** ** [bytes2human] *)

Lemma num_div_in_range v :
  in_float_range v ->
  exists q, num_div_const v 1024 = Ok (NFloat (Fin q)) /\ in_float_range (NFloat (Fin q)).
Proof.
  destruct v as [z | [q | sg]]; cbn [in_float_range num_div_const]; intros H; [| |easy].
  - destruct (int_truediv_bounded z 1024 (2 ^ 52) 962) as (r & Hr & H0 & H1); try lia.
    exists r. rewrite Hr. cbn. auto.
  - destruct H as [H0 H1]. unfold float_div_const.
    destruct (RN_bounded (q / inject_Z 1024) (2 ^ 52) 962) as (r & Hr & Hr0 & Hr1);
      try lia.
    + destruct q as [n d]. unfold Qle in *. cbn in *. lia.
    + apply Qle_trans with q; [|assumption].
      destruct q as [n d]. unfold Qle in *. cbn in *. lia.
    + exists r. rewrite Hr. auto.
Qed.

(** The loop stops at the first unit whose value is below 1024, or runs
    out of units. *)
Lemma bytes2human_loop_spec units : forall v0,
  in_float_range v0 ->
  exists k v,
    (k <= length units)%nat /\ scale k v0 = Ok v /\ in_float_range v /\
    ((k = 0%nat /\ v = v0) \/ exists q, v = NFloat (Fin q)) /\
    ((k < length units)%nat -> num_lt_int v 1024 = true) /\
    (forall j, (j < k)%nat -> exists w, scale j v0 = Ok w /\ num_lt_int w 1024 = false) /\
    bytes2human_loop units v0 = (s ← num_format_1f v; Ok (s +:+ nth k units "P")).
Proof.
  induction units as [|u units IH]; intros v0 Hv0.
  - exists 0%nat, v0. cbn. repeat split; try lia; auto.
  - cbn [bytes2human_loop]. destruct (num_lt_int v0 1024) eqn:Elt.
    + exists 0%nat, v0. cbn. repeat split; try lia; auto.
    + destruct (num_div_in_range v0 Hv0) as (q & Hq & Hrange).
      destruct (IH (NFloat (Fin q)) Hrange) as (k & v & Hk & Hs & Hv & Hshape & Hlt & Hge & Hloop).
      exists (S k), v. cbn [scale List.length nth]. rewrite Hq. cbn.
      repeat split; try lia; try assumption.
      * right. destruct Hshape as [[_ ->] | ?]; [eexists; reflexivity | assumption].
      * intros Hk'. apply Hlt. lia.
      * intros [|j] Hj.
        -- exists v0. split; [reflexivity | assumption].
        -- cbn [scale]. rewrite Hq. cbn. apply Hge. lia.
Qed.

Lemma num_lt_int_true v x k :
  num_value v = Some x -> num_lt_int v k = true -> (x < inject_Z k)%Q.
Proof.
  destruct v as [z | [q | sg]]; cbn; intros [= <-]; intros H.
  - apply Z.ltb_lt in H. now rewrite <- Zlt_Qlt.
  - now apply flt_int_Fin in H.
Qed.

Lemma num_lt_int_false v x k :
  num_value v = Some x -> num_lt_int v k = false -> (inject_Z k <= x)%Q.
Proof.
  destruct v as [z | [q | sg]]; cbn; intros [= <-]; intros H.
  - apply Z.ltb_ge in H. now rewrite <- Zle_Qle.
  - now apply flt_int_Fin_false in H.
Qed.

Lemma in_float_range_value v :
  in_float_range v -> exists x, num_value v = Some x /\ (0 <= x)%Q.
Proof.
  destruct v as [z | [q | sg]]; cbn; intros H; [| |easy].
  - eexists. split; [reflexivity|]. unfold Qle; cbn. lia.
  - eexists. split; [reflexivity | tauto].
Qed.

Lemma scale_in_range j : forall v0 w,
  in_float_range v0 -> scale j v0 = Ok w -> in_float_range w.
Proof.
  induction j as [|j IH]; intros v0 w Hr Hw; cbn [scale] in Hw.
  - now injection Hw as <-.
  - destruct (num_div_in_range v0 Hr) as (q & Hq & Hr').
    rewrite Hq in Hw. cbn in Hw. eapply IH; eassumption.
Qed.

(** What is printed for a value the loop stopped at. *)
Lemma num_format_1f_value v x :
  in_float_range v -> num_value v = Some x ->
  (forall z, v = NInt z -> z < 2 ^ 53) ->
  num_format_1f v = Ok (digits (tenths x / 10) +:+ "." +:+ digits (tenths x mod 10)).
Proof.
  destruct v as [z | [q | sg]]; cbn [in_float_range num_value num_format_1f];
    intros Hr [= <-] Hint.
  - destruct (float_of_int_exact z) as (q & Hq & Eq); [specialize (Hint z eq_refl); lia|].
    rewrite Hq. cbn. f_equal. rewrite <- (tenths_Qeq _ _ Eq).
    apply format_1f_nonneg. rewrite Eq. unfold Qle; cbn. lia.
  - f_equal. apply format_1f_nonneg. tauto.
Qed.

Lemma bytes2human_total n :
  0 <= n < 2 ^ 1024 -> exists s, bytes2human (NInt n) = Ok s.
Proof.
  intros Hn. unfold bytes2human.
  destruct (bytes2human_loop_spec ["B"; "K"; "M"; "G"; "T"] (NInt n) Hn)
    as (k & v & Hk & Hs & Hv & Hshape & Hlt & _ & Hloop).
  destruct (in_float_range_value v Hv) as (x & Hx & _).
  rewrite Hloop, (num_format_1f_value v x Hv Hx). { eexists. reflexivity. }
  intros z ->. destruct Hshape as [[-> _] | [q [=]]].
  specialize (Hlt ltac:(cbn; lia)). cbn in Hlt. apply Z.ltb_lt in Hlt.
  assert (1024 < 2 ^ 53) by reflexivity. lia.
Qed.

Lemma Qeq_div_int q n D :
  0 < D -> (q == inject_Z n / inject_Z D)%Q <-> Qnum q * D = n * Z.pos (Qden q).
Proof.
  intros HD. destruct D as [|d|d]; try lia. destruct q as [a b].
  unfold Qeq, Qdiv, Qmult, Qinv, inject_Z. cbn [Qnum Qden]. lia.
Qed.

(** One division by 1024 of a float that holds [n / 2 ^ j] exactly. *)
Lemma float_div_exact q n j :
  0 < n < 2 ^ 53 -> 0 <= j <= 1012 ->
  (q == inject_Z n / inject_Z (2 ^ j))%Q ->
  exists q', float_div_const (Fin q) 1024 = Fin q' /\
             (q' == inject_Z n / inject_Z (2 ^ (j + 10)))%Q.
Proof.
  intros Hn Hj Hq.
  assert (H2j : 0 < 2 ^ j) by (apply Z.pow_pos_nonneg; lia).
  assert (H2j' : 0 < 2 ^ (j + 10)) by (apply Z.pow_pos_nonneg; lia).
  apply (proj1 (Qeq_div_int q n (2 ^ j) H2j)) in Hq.
  destruct q as [a b]. cbn [Qnum Qden] in Hq.
  assert (Ha : 0 < a) by nia.
  unfold float_div_const, RN, Qdiv, Qmult, Qinv, inject_Z. cbn [Qnum Qden].
  destruct a as [|a|a]; try lia. cbn [Z.mul Pos.mul].
  destruct (round_pos_exact (Z.pos (a * 1)) (Z.pos (b * 1024)) n (j + 10))
    as (r & Hr & Er); try lia.
  { rewrite Z.pow_add_r by lia. lia. }
  exists r. split; [exact Hr|]. rewrite Er.
  apply (proj2 (Qeq_div_int _ n (2 ^ (j + 10)) H2j')). cbn [Qnum Qden].
  rewrite Pos2Z.id. rewrite Z.pow_add_r by lia. lia.
Qed.

Lemma int_truediv_exact n :
  0 < n < 2 ^ 53 ->
  exists q, int_truediv n 1024 = Ok q /\ (q == inject_Z n / inject_Z (2 ^ 10))%Q.
Proof.
  intros Hn. unfold int_truediv. cbn [Z.eqb].
  destruct (float_div_exact (inject_Z n) n 0) as (q & Hq & Eq); try lia.
  { apply (proj2 (Qeq_div_int _ n (2 ^ 0) ltac:(lia))). cbn. lia. }
  unfold float_div_const in Hq. rewrite Hq. exists q. split; [reflexivity | exact Eq].
Qed.

Lemma flt_int_exact q n j :
  0 <= j -> (q == inject_Z n / inject_Z (2 ^ j))%Q ->
  flt_int (Fin q) 1024 = (n <? 2 ^ j * 1024).
Proof.
  intros Hj Hq.
  assert (H2j : 0 < 2 ^ j) by (apply Z.pow_pos_nonneg; lia).
  apply (proj1 (Qeq_div_int q n (2 ^ j) H2j)) in Hq.
  destruct q as [a b]. cbn [Qnum Qden] in Hq.
  destruct (n <? 2 ^ j * 1024) eqn:E.
  - apply Z.ltb_lt in E. apply flt_int_Fin. unfold Qlt. cbn. nia.
  - apply Z.ltb_ge in E. apply flt_int_Fin_false. unfold Qle. cbn. nia.
Qed.

#[local] Arguments format_1f : simpl never.

Lemma bytes2human_loop_exact units : forall q n k,
  0 < n < 2 ^ 53 -> (10 * (Z.of_nat k + Z.of_nat (length units)) <= 1012) ->
  (q == inject_Z n / inject_Z (1024 ^ Z.of_nat k))%Q ->
  bytes2human_loop units (NFloat (Fin q))
  = Ok (let i := unit_index_from (length units) (1024 ^ Z.of_nat (S k)) n in
        format_1f (Fin (inject_Z n / inject_Z (1024 ^ Z.of_nat (k + i)))) +:+ nth i units "P").
Proof.
  assert (Hpow : forall k : nat, 1024 ^ Z.of_nat k = 2 ^ (10 * Z.of_nat k)).
  { intros k. change 1024 with (2 ^ 10). rewrite <- Z.pow_mul_r by lia. reflexivity. }
  induction units as [|u units IH]; intros q n k Hn Hk Hq; cbn [bytes2human_loop List.length].
  - cbn [num_format_1f unit_index_from nth]. cbn. rewrite Nat.add_0_r.
    now rewrite (format_1f_Qeq _ _ Hq).
  - cbn [num_lt_int unit_index_from]. cbn [List.length] in Hk.
    rewrite Hpow in Hq.
    rewrite (flt_int_exact q n (10 * Z.of_nat k)) by (try lia; exact Hq).
    replace (1024 ^ Z.of_nat (S k)) with (2 ^ (10 * Z.of_nat k) * 1024)
      by (rewrite Hpow, Nat2Z.inj_succ; change 1024 with (2 ^ 10);
          rewrite <- Z.pow_add_r by lia; f_equal; lia).
    destruct (n <? 2 ^ (10 * Z.of_nat k) * 1024) eqn:E.
    + cbn [num_format_1f nth]. cbn. rewrite Nat.add_0_r, Hpow.
      now rewrite (format_1f_Qeq _ _ Hq).
    + cbn [num_div_const].
      destruct (float_div_exact q n (10 * Z.of_nat k)) as (q' & Hq' & Eq'); try lia.
      { exact Hq. }
      rewrite Hq'. cbn.
      rewrite (IH q' n (S k)); try lia.
      * cbn zeta. cbn [nth]. do 3 f_equal.
        -- f_equal. f_equal. f_equal.
           replace (2 ^ (10 * Z.of_nat k) * 1024 * 1024) with (1024 ^ Z.of_nat (S (S k))).
           ++ rewrite Nat.add_succ_r. reflexivity.
           ++ rewrite Hpow, !Nat2Z.inj_succ. change 1024 with (2 ^ 10).
              rewrite <- !Z.pow_add_r by lia. f_equal. lia.
        -- f_equal.
           replace (2 ^ (10 * Z.of_nat k) * 1024 * 1024) with (1024 ^ Z.of_nat (S (S k)));
             [reflexivity|].
           rewrite Hpow, !Nat2Z.inj_succ. change 1024 with (2 ^ 10).
           rewrite <- !Z.pow_add_r by lia. f_equal. lia.
      * rewrite Eq', Hpow. replace (10 * Z.of_nat (S k)) with (10 * Z.of_nat k + 10) by lia.
        reflexivity.
Qed.

(** Below [2 ^ 53] no division rounds: [bytes2human] prints [n / 1024 ^ k]
    itself, for the first [k] with [n < 1024 ^ (k + 1)]. *)
Lemma bytes2human_loop_cons u units n :
  bytes2human_loop (u :: units) n
  = if num_lt_int n 1024 then s ← num_format_1f n; Ok (s +:+ u)
    else n' ← num_div_const n 1024; bytes2human_loop units n'.
Proof. reflexivity. Qed.

Lemma bytes2human_exact n :
  0 <= n < 2 ^ 53 -> bytes2human (NInt n) = Ok (bytes_to_human n).
Proof.
  intros Hn. unfold bytes2human, bytes_to_human, unit_index.
  rewrite bytes2human_loop_cons. cbn [unit_index_from num_lt_int].
  destruct (n <? 1024) eqn:E.
  - cbn [num_format_1f]. destruct (float_of_int_exact n Hn) as (q & Hq & Eq).
    rewrite Hq, !bind_Ok_l. f_equal. f_equal. rewrite (format_1f_Qeq _ _ Eq).
    apply format_1f_Qeq.
    apply (proj2 (Qeq_div_int _ n (1024 ^ Z.of_nat 0) ltac:(cbn; lia))). cbn. lia.
  - apply Z.ltb_ge in E. cbn [num_div_const].
    destruct (int_truediv_exact n) as (q & Hq & Eq); [lia|].
    rewrite Hq, !bind_Ok_l.
    rewrite (bytes2human_loop_exact ["K"; "M"; "G"; "T"] q n 1); try (cbn; lia).
    + reflexivity.
    + exact Eq.
Qed.

(** C8. For a byte count [n >= 0] (below [2 ^ 1024], where the division
    overflows), [bytes2human] divides [n] by 1024 [k] times, [k] being the
    first unit of B, K, M, G, T at which the value is below 1024, and P
    (the fifth division) when there is none; it prints that value rounded
    to the nearest tenth, with one digit after the dot, and the unit
    letter.  Below [2 ^ 53] the divisions are exact and the result is the
    one of exact arithmetic, [bytes_to_human].  [bytes2human(0)] is
    ["0.0B"] and [bytes2human(4000000000)] is ["3.7G"]. *)
Theorem bytes2human_spec (n : Z) :
  0 <= n < 2 ^ 1024 ->
  (exists (k : nat) (v : num) (x : Q),
     (k <= 5)%nat /\ scale k (NInt n) = Ok v /\ num_value v = Some x /\
     (forall j, (j < k)%nat ->
        exists w y, scale j (NInt n) = Ok w /\ num_value w = Some y /\ (1024 <= y)%Q) /\
     ((k < 5)%nat -> (x < 1024)%Q) /\
     bytes2human (NInt n)
     = Ok ((digits (tenths x / 10) +:+ "." +:+ digits (tenths x mod 10)) +:+ unit_name k) /\
     String.length (digits (tenths x mod 10)) = 1%nat /\
     (Qabs (10 * x - inject_Z (tenths x)) <= 1 # 2)%Q) /\
  (n < 2 ^ 53 -> bytes2human (NInt n) = Ok (bytes_to_human n)) /\
  bytes2human (NInt 0) = Ok "0.0B" /\
  bytes2human (NInt 4000000000) = Ok "3.7G".
Proof.
  intros Hn. split; [|split; [|split; vm_compute; reflexivity]].
  2: { intros H53. apply bytes2human_exact. lia. }
  destruct (bytes2human_loop_spec ["B"; "K"; "M"; "G"; "T"] (NInt n) Hn)
    as (k & v & Hk & Hs & Hv & Hshape & Hlt & Hge & Hloop).
  destruct (in_float_range_value v Hv) as (x & Hx & Hx0).
  exists k, v, x. cbn [List.length] in *.
  split; [assumption|]. split; [assumption|]. split; [assumption|].
  split; [|split; [|split; [|split]]].
  - intros j Hj. destruct (Hge j Hj) as (w & Hw & Hwlt).
    destruct (in_float_range_value w (scale_in_range j (NInt n) w Hn Hw)) as (y & Hy & _).
    exists w, y. repeat split; try assumption.
    apply (num_lt_int_false w y 1024 Hy Hwlt).
  - intros Hk5. apply (num_lt_int_true v x 1024 Hx). apply Hlt. exact Hk5.
  - unfold bytes2human. rewrite Hloop, (num_format_1f_value v x Hv Hx); [reflexivity|].
    intros z ->. destruct Hshape as [[-> _] | [q [=]]].
    specialize (Hlt ltac:(lia)). cbn in Hlt. apply Z.ltb_lt in Hlt.
    assert (1024 < 2 ^ 53) by reflexivity. lia.
  - apply digits_one_char. apply Z.mod_pos_bound. lia.
  - apply tenths_near. assumption.
Qed.

Lemma bytes2human_spec_witness :
  bytes2human (NInt 4000000000) = Ok (bytes_to_human 4000000000) /\
  bytes_to_human 4000000000 = "3.7G".
Proof.
  destruct (bytes2human_spec 4000000000) as (_ & H & _ & _); [lia|].
  split; [apply H; lia | vm_compute; reflexivity].
Defined.

(** ** Severity colours *)

Lemma themes_distinct_tones name colors :
  THEMES !! name = Some colors -> distinct_tones colors.
Proof.
  unfold THEMES. intros H.
  destruct (decide (name = "dark")) as [->|Hd].
  - rewrite lookup_insert_eq in H. injection H as <-. repeat split; discriminate.
  - rewrite lookup_insert_ne in H by congruence.
    destruct (decide (name = "light")) as [->|Hl].
    + rewrite lookup_singleton_eq in H. injection H as <-. repeat split; discriminate.
    + rewrite lookup_singleton_ne in H by congruence. discriminate.
Qed.

(** C7. [color_for_load] returns the normal tone ([accent]) for [pct < 50],
    the warning tone for [50 <= pct < 75] and the critical tone for
    [75 <= pct]; with three distinct tones, as in both themes, each is
    returned for these percentages only.  At 50 exactly the tone is the
    warning one, at 75 exactly the critical one. *)
Theorem color_for_load_tiers (pct : Q) (colors : palette) :
  ((pct < 50)%Q -> color_for_load (Fin pct) colors = accent colors) /\
  ((50 <= pct)%Q /\ (pct < 75)%Q -> color_for_load (Fin pct) colors = warn colors) /\
  ((75 <= pct)%Q -> color_for_load (Fin pct) colors = crit colors) /\
  (distinct_tones colors ->
     (color_for_load (Fin pct) colors = accent colors <-> (pct < 50)%Q) /\
     (color_for_load (Fin pct) colors = warn colors <-> (50 <= pct)%Q /\ (pct < 75)%Q) /\
     (color_for_load (Fin pct) colors = crit colors <-> (75 <= pct)%Q)) /\
  color_for_load (Fin 50) colors = warn colors /\
  color_for_load (Fin 75) colors = crit colors.
Proof.
  unfold color_for_load.
  destruct (flt_int (Fin pct) 50) eqn:E50; destruct (flt_int (Fin pct) 75) eqn:E75;
    try apply flt_int_Fin in E50; try apply flt_int_Fin in E75;
    try apply flt_int_Fin_false in E50; try apply flt_int_Fin_false in E75;
    change (inject_Z 50) with 50%Q in *; change (inject_Z 75) with 75%Q in *;
    (split; [|split; [|split; [|split; [|split; reflexivity]]]]).
  all: try (intros (Ha & Hb & Hc); split; [|split]; split).
  all: intros; try tauto; try congruence.
  all: try (exfalso; match goal with
            | H1 : (?a < ?b)%Q, H2 : (?b <= ?a)%Q |- _ => exact (Qlt_not_le _ _ H1 H2)
            | H1 : (?a < ?b)%Q /\ _, H2 : (?b <= ?a)%Q |- _ => exact (Qlt_not_le _ _ (proj1 H1) H2)
            | H1 : _ /\ (?a < ?b)%Q, H2 : (?b <= ?a)%Q |- _ => exact (Qlt_not_le _ _ (proj2 H1) H2)
            | H1 : (?a <= ?b)%Q /\ _, H2 : (?b < ?a)%Q |- _ => exact (Qlt_not_le _ _ H2 (proj1 H1))
            end).
  all: try (exfalso; match goal with
            | H1 : (?a < 50)%Q, H2 : (75 <= ?a)%Q |- _ =>
                apply (Qlt_not_le _ _ H1); apply Qle_trans with 75%Q; [easy | exact H2]
            end).
Qed.

Lemma color_for_load_tiers_witness :
  (color_for_load (Fin 50) dark = accent dark <-> (50 < 50)%Q) /\
  (color_for_load (Fin 50) dark = warn dark <-> (50 <= 50)%Q /\ (50 < 75)%Q) /\
  (color_for_load (Fin 50) dark = crit dark <-> (75 <= 50)%Q).
Proof.
  apply (color_for_load_tiers 50 dark).
  apply (themes_distinct_tones "dark"). reflexivity.
Defined.

(** ** Settings *)

Lemma contains_percent_String c r :
  contains "%" (String c r) = Ascii.eqb c "%" || contains "%" r.
Proof.
  cbn [contains String.prefix].
  destruct (ascii_dec "%" c) as [<- | Hne].
  - now destruct r.
  - destruct (Ascii.eqb_spec c "%") as [-> | _]; [congruence | reflexivity].
Qed.

(** A value without [%] is its own interpolation. *)
Lemma interpolate_some_plain options option section rawval depth value :
  contains "%" value = false ->
  interpolate_some options option section rawval (S depth) value = Ok value.
Proof.
  cbn [interpolate_some]. induction value as [|c r IH]; [reflexivity|].
  rewrite contains_percent_String. intros [Hc Hr]%orb_false_elim.
  cbn. rewrite Hc. cbn in IH. now rewrite (IH Hr).
Qed.

Lemma cfg_lookup_absent cfg key :
  str_lower key = key -> ui_option cfg key = None -> cfg_lookup cfg "ui" key = Ok None.
Proof.
  unfold ui_option, cfg_lookup. intros -> H.
  destruct (unify_values cfg "ui") as [options|]; [|reflexivity].
  cbn in H. now rewrite H.
Qed.

Lemma cfg_lookup_plain cfg key value :
  str_lower key = key -> ui_option cfg key = Some value -> contains "%" value = false ->
  cfg_lookup cfg "ui" key = Ok (Some value).
Proof.
  unfold ui_option, cfg_lookup. intros -> H Hp.
  destruct (unify_values cfg "ui") as [options|]; [|discriminate].
  cbn in H. rewrite H. unfold MAX_INTERPOLATION_DEPTH.
  now rewrite interpolate_some_plain.
Qed.

Lemma cfg_getint_plain cfg key fallback n :
  str_lower key = key -> plain_int_option cfg key fallback n ->
  cfg_getint cfg "ui" key fallback = Ok n.
Proof.
  unfold plain_int_option, cfg_getint. intros Hk H.
  destruct (ui_option cfg key) as [value|] eqn:E.
  - destruct H as [Hp Hn]. now rewrite (cfg_lookup_plain cfg key value Hk E Hp).
  - now rewrite (cfg_lookup_absent cfg key Hk E), H.
Qed.

Lemma cfg_get_plain cfg key fallback v :
  str_lower key = key -> plain_option cfg key fallback v ->
  cfg_get cfg "ui" key fallback = Ok v.
Proof.
  unfold plain_option, cfg_get. intros Hk H.
  destruct (ui_option cfg key) as [value|] eqn:E.
  - destruct H as [Hp ->]. now rewrite (cfg_lookup_plain cfg key value Hk E Hp).
  - now rewrite (cfg_lookup_absent cfg key Hk E), H.
Qed.


Lemma ui_option_inherits defaults sections own key :
  sections !! "ui" = Some own ->
  ui_option (Config defaults sections) key
  = match own !! key with Some v => Some v | None => defaults !! key end.
Proof.
  unfold ui_option, unify_values. cbn. intros ->. cbn.
  rewrite lookup_union. now destruct (own !! key), (defaults !! key).
Qed.

(** Values without [%] are read as the file has them. *)
Lemma load_settings_plain defaults sections fs iv tm :
  plain_int_option (Config defaults sections) "font_size" 10 fs ->
  plain_int_option (Config defaults sections) "update_interval_ms" 1000 iv ->
  plain_option (Config defaults sections) "theme_mode" "auto" tm ->
  load_settings (Parsed defaults sections) = Ok (fs, iv, tm).
Proof.
  intros Hf Hi Ht. unfold load_settings, cfg_read.
  cbn [mbind result_bind rbind].
  rewrite (cfg_getint_plain _ _ _ _ eq_refl Hf). cbn [mbind result_bind rbind].
  rewrite (cfg_getint_plain _ _ _ _ eq_refl Hi). cbn [mbind result_bind rbind].
  now rewrite (cfg_get_plain _ _ _ _ eq_refl Ht).
Qed.




(** So does a numeric key whose value is not a number, and a value with a
    [%] that stands alone. *)
Lemma load_settings_bad_number_raises :
  load_settings (Parsed ∅ {[ "ui" := {[ "font_size" := "large" ]} ]})
  = Raise (Exn ValueError "invalid literal for int() with base 10: 'large'").
Proof. vm_compute. reflexivity. Qed.

Lemma load_settings_stray_percent_raises :
  load_settings (Parsed ∅ {[ "ui" := {[ "theme_mode" := "50%" ]} ]})
  = Raise (Exn InterpolationSyntaxError "'%' must be followed by '%' or '(', found: '%'").
Proof. vm_compute. reflexivity. Qed.

(** ** The interval shortcuts *)

Ltac run_M :=
  unfold mbind, M_bind, mret, M_ret, modify, get, lift; cbn [fst snd].

Lemma interval_text_ok s :
  250 <= update_interval s <= 10000 ->
  exists t, interval_text s = (Ok t, s).
Proof.
  intros Hr. unfold interval_text. run_M.
  destruct (int_truediv_bounded (update_interval s) 1000 10 0) as (r & Hr' & _);
    try lia.
  rewrite Hr'. eexists. reflexivity.
Qed.

Lemma interval_text_state s : snd (interval_text s) = s.
Proof.
  unfold interval_text. run_M.
  now destruct (int_truediv (update_interval s) 1000).
Qed.

Lemma increase_interval_ok s :
  250 <= update_interval s <= 10000 ->
  exists s', _increase_interval s = (Ok tt, s') /\
             update_interval s' = Z.min (update_interval s + 500) 10000.
Proof.
  intros Hr. unfold _increase_interval. run_M.
  set (s1 := set_update_interval _ s).
  destruct (interval_text_ok s1) as (t & Ht); [unfold s1; cbn; lia|].
  rewrite Ht. eexists. split; reflexivity.
Qed.

Lemma decrease_interval_ok s :
  250 <= update_interval s <= 10000 ->
  exists s', _decrease_interval s = (Ok tt, s') /\
             update_interval s' = Z.max (update_interval s - 500) 250.
Proof.
  intros Hr. unfold _decrease_interval. run_M.
  set (s1 := set_update_interval _ s).
  destruct (interval_text_ok s1) as (t & Ht); [unfold s1; cbn; lia|].
  rewrite Ht. eexists. split; reflexivity.
Qed.

Lemma handle_all_in_range rs : forall s,
  250 <= update_interval s <= 10000 ->
  exists s', handle_all rs s = (Ok tt, s') /\ 250 <= update_interval s' <= 10000.
Proof.
  induction rs as [|r rs IH]; intros s Hr.
  - exists s. split; [reflexivity | assumption].
  - assert (exists s1, handle r s = (Ok tt, s1) /\ 250 <= update_interval s1 <= 10000)
      as (s1 & H1 & Hr1).
    { destruct r; cbn [handle].
      - destruct (increase_interval_ok s Hr) as (s1 & H1 & E). exists s1. split; [assumption | lia].
      - destruct (decrease_interval_ok s Hr) as (s1 & H1 & E). exists s1. split; [assumption | lia]. }
    destruct (IH s1 Hr1) as (s' & H' & Hr').
    exists s'. split; [|assumption].
    cbn [handle_all]. unfold mbind at 1, M_bind at 1. rewrite H1. exact H'.
Qed.

(** C5. From an interval within [250 ms, 10000 ms], the increase shortcut
    sets it to [min (current + 500, 10000)] and the decrease shortcut to
    [max (current - 500, 250)]; so after any sequence of the two the
    interval is still within [250 ms, 10000 ms], and never above 10000. *)
Theorem interval_steps_bounded (s : SysMon) (rs : list request) :
  250 <= update_interval s <= 10000 ->
  (exists s', _increase_interval s = (Ok tt, s') /\
              update_interval s' = Z.min (update_interval s + 500) 10000) /\
  (exists s', _decrease_interval s = (Ok tt, s') /\
              update_interval s' = Z.max (update_interval s - 500) 250) /\
  (exists s', handle_all rs s = (Ok tt, s') /\
              250 <= update_interval s' <= 10000).
Proof.
  intros Hr. split; [|split].
  - apply increase_interval_ok, Hr.
  - apply decrease_interval_ok, Hr.
  - apply handle_all_in_range, Hr.
Qed.

Lemma interval_steps_bounded_witness :
  250 <= 1500 <= 10000 /\
  exists s', handle_all [Increase; Increase; Decrease] sysmon_1500 = (Ok tt, s') /\
             250 <= update_interval s' <= 10000.
Proof.
  split; [lia|].
  apply (interval_steps_bounded sysmon_1500 [Increase; Increase; Decrease]).
  cbn. lia.
Defined.

(** From 1.5 s, seventeen increases reach 10 s, and further ones stay
    there. *)
Example increase_clamps :
  update_interval (snd (handle_all (repeat Increase 16) sysmon_1500)) = 9500 /\
  update_interval (snd (handle_all (repeat Increase 17) sysmon_1500)) = 10000 /\
  update_interval (snd (handle_all (repeat Increase 40) sysmon_1500)) = 10000.
Proof. vm_compute. repeat split. Qed.

(** ** The disk percentage *)

Lemma disk_pct_in_range (d : disk_usage) :
  0 <= d_used d <= d_total d ->
  exists p, disk_pct d = Ok (Fin p) /\ (0 <= p)%Q /\ (p <= 100)%Q.
Proof.
  intros [H0 H1]. unfold disk_pct.
  destruct (d_total d =? 0) eqn:Et.
  - exists 0%Q. split; [reflexivity|]. split; unfold Qle; cbn; lia.
  - apply Z.eqb_neq in Et.
    destruct (int_truediv_bounded (d_used d) (d_total d) 1 0) as (r & Hr & Hr0 & Hr1);
      try lia.
    rewrite Hr. cbn. unfold float_mul_const.
    destruct (RN_bounded (r * inject_Z 100) 25 2) as (p & Hp & Hp0 & Hp1); try lia.
    + apply Qmult_le_0_compat; [assumption | unfold Qle; cbn; lia].
    + change (inject_Z (25 * 2 ^ 2)) with (1 * inject_Z 100)%Q.
      apply Qmult_le_compat_r; [assumption | unfold Qle; cbn; lia].
    + exists p. rewrite Hp. auto.
Qed.

(** C6. The disk percentage is [0.0] when [total] is zero and
    [(used / total) * 100] in float arithmetic otherwise; the division is
    never a division by zero, and for byte counts nothing is raised at
    all; for byte counts with [used <= total] the percentage is a number
    between 0 and 100. *)
Theorem disk_pct_spec (d : disk_usage) :
  (d_total d = 0 -> disk_pct d = Ok (Fin 0%Q)) /\
  (d_total d <> 0 ->
     disk_pct d = (q ← int_truediv (d_used d) (d_total d); Ok (RN (q * 100)%Q))) /\
  (forall e, disk_pct d = Raise e -> exn_cls e = OverflowError) /\
  (0 <= d_used d <= 2 ^ 1023 -> 0 <= d_total d -> exists x, disk_pct d = Ok x) /\
  (0 <= d_used d <= d_total d ->
     exists p, disk_pct d = Ok (Fin p) /\ (0 <= p)%Q /\ (p <= 100)%Q).
Proof.
  split; [|split; [|split; [|split]]].
  - intros H. unfold disk_pct. now rewrite H.
  - intros H. unfold disk_pct. apply Z.eqb_neq in H. now rewrite H.
  - intros e. unfold disk_pct, int_truediv.
    destruct (d_total d =? 0); [discriminate|].
    destruct (RN (inject_Z (d_used d) / inject_Z (d_total d))); cbn; [discriminate|].
    now intros [= <-].
  - intros Hu Ht. unfold disk_pct.
    destruct (d_total d =? 0) eqn:E; [eexists; reflexivity|].
    apply Z.eqb_neq in E.
    destruct (int_truediv_bounded (d_used d) (d_total d) (2 ^ 52) 971)
      as (r & Hr & _); try nia.
    rewrite Hr. eexists. reflexivity.
  - apply disk_pct_in_range.
Qed.

Lemma disk_pct_spec_witness :
  exists p, disk_pct (DiskUsage 100 40 60) = Ok (Fin p) /\ (0 <= p)%Q /\ (p <= 100)%Q.
Proof.
  apply (disk_pct_spec (DiskUsage 100 40 60)). cbn. lia.
Defined.

(** ** The stable sort *)

Section Sort.
Context {A : Type}.
Implicit Types (x : float * A) (l : list (float * A)).

Lemma insert_desc_perm x l : Permutation (insert_desc x l) (x :: l).
Proof.
  induction l as [|y l IH]; cbn; [reflexivity|].
  destruct (flt (fst x) (fst y)); [|reflexivity].
  rewrite IH. apply perm_swap.
Qed.

Lemma sort_desc_perm l : Permutation (sort_desc l) l.
Proof.
  induction l as [|x l IH]; cbn; [reflexivity|].
  rewrite insert_desc_perm. now constructor.
Qed.

Lemma insert_desc_sorted x l :
  StronglySorted key_ge l -> StronglySorted key_ge (insert_desc x l).
Proof.
  induction 1 as [|y l Hs IH Hy]; cbn.
  - repeat constructor.
  - destruct (flt (fst x) (fst y)) eqn:E.
    + constructor; [assumption|].
      rewrite insert_desc_perm. constructor; [|assumption].
      unfold key_ge. now apply flt_asym.
    + constructor; [now constructor|].
      constructor; [exact E|].
      eapply Forall_impl; [exact Hy|].
      intros z Hz. unfold key_ge in *. eapply flt_ge_trans; eassumption.
Qed.

Lemma sort_desc_sorted l : StronglySorted key_ge (sort_desc l).
Proof.
  induction l as [|x l IH]; cbn; [constructor | now apply insert_desc_sorted].
Qed.

(** Stability: among the elements of one key the order is the original
    one. *)
Lemma insert_desc_stable k x l :
  List.filter (fun p => feq (fst p) k) (insert_desc x l)
  = List.filter (fun p => feq (fst p) k) (x :: l).
Proof.
  induction l as [|y l IH]; [reflexivity|].
  cbn [insert_desc]. destruct (flt (fst x) (fst y)) eqn:E; [|reflexivity].
  cbn [List.filter] in *. rewrite IH.
  destruct (feq (fst x) k) eqn:Ex, (feq (fst y) k) eqn:Ey; try reflexivity.
  rewrite (feq_not_lt _ _ _ Ex Ey) in E. discriminate.
Qed.

Lemma sort_desc_stable k l :
  List.filter (fun p => feq (fst p) k) (sort_desc l)
  = List.filter (fun p => feq (fst p) k) l.
Proof.
  induction l as [|x l IH]; [reflexivity|].
  cbn [sort_desc]. rewrite insert_desc_stable. cbn [List.filter]. now rewrite IH.
Qed.

End Sort.

(** A stable sort from the largest key down is unique: any list that is a
    sorted rearrangement of [l] keeping the order among equal keys is the
    list that [sort_desc] computes.  So it does not matter that Python
    sorts by another algorithm. *)
Lemma sorted_stable_unique {A} (l1 : list (float * A)) : forall l2,
  StronglySorted key_ge l1 -> StronglySorted key_ge l2 ->
  (forall k, List.filter (fun p => feq (fst p) k) l1
             = List.filter (fun p => feq (fst p) k) l2) ->
  l1 = l2.
Proof.
  induction l1 as [|x l1 IH]; intros l2 Hs1 Hs2 Hf.
  - destruct l2 as [|y l2]; [reflexivity|].
    specialize (Hf (fst y)). cbn in Hf. rewrite feq_refl in Hf. discriminate.
  - destruct l2 as [|y l2].
    { specialize (Hf (fst x)). cbn in Hf. rewrite feq_refl in Hf. discriminate. }
    apply StronglySorted_inv in Hs1 as [Hs1 Hx].
    apply StronglySorted_inv in Hs2 as [Hs2 Hy].
    assert (Hin : forall (a : float * A) l l', List.filter (fun p => feq (fst p) (fst a)) (a :: l)
                    = List.filter (fun p => feq (fst p) (fst a)) l' -> In a l').
    { intros a l l' H. cbn in H. rewrite feq_refl in H.
      apply (List.filter_In (fun p => feq (fst p) (fst a)) a l').
      rewrite <- H. now left. }
    assert (Hxy : flt (fst y) (fst x) = false).
    { pose proof (Hin x l1 (y :: l2) (Hf (fst x))) as [<- | Hi];
        [apply flt_irrefl|].
      rewrite Forall_forall in Hy. apply Hy. now apply list_elem_of_In. }
    assert (Hyx : flt (fst x) (fst y) = false).
    { pose proof (Hin y l2 (x :: l1) (eq_sym (Hf (fst y)))) as [<- | Hi];
        [apply flt_irrefl|].
      rewrite Forall_forall in Hx. apply Hx. now apply list_elem_of_In. }
    pose proof (feq_of_not_lt _ _ Hxy Hyx) as Heq.
    pose proof (Hf (fst x)) as Hhead. cbn in Hhead.
    rewrite feq_refl, Heq in Hhead. injection Hhead as -> _.
    f_equal. apply IH; try assumption.
    intros k. specialize (Hf k). cbn in Hf.
    destruct (feq (fst y) k); [now injection Hf | assumption].
Qed.

Lemma sort_desc_unique {A} (l l' : list (float * A)) :
  StronglySorted key_ge l' ->
  (forall k, List.filter (fun p => feq (fst p) k) l'
             = List.filter (fun p => feq (fst p) k) l) ->
  l' = sort_desc l.
Proof.
  intros Hs Hf. apply sorted_stable_unique; [assumption | apply sort_desc_sorted |].
  intros k. now rewrite sort_desc_stable.
Qed.

(** ** Rows *)

Lemma row_cpu_printed r : printed_cpu r -> row_cpu r = Ok (cpu_key r).
Proof.
  intros (x & Hx). unfold cpu_key, row_cpu. now rewrite Hx, py_float_format_1f.
Qed.

Lemma keyed_printed rows :
  Forall printed_cpu rows ->
  keyed row_cpu rows = Ok (map (fun r => (cpu_key r, r)) rows).
Proof.
  induction 1 as [|r rows Hr _ IH]; [reflexivity|].
  cbn [keyed map]. rewrite (row_cpu_printed r Hr). cbn. rewrite IH. reflexivity.
Qed.

Lemma sort_key_reverse_printed rows :
  Forall printed_cpu rows -> sort_key_reverse row_cpu rows = Ok (sorted_rows rows).
Proof.
  intros H. unfold sort_key_reverse. now rewrite (keyed_printed rows H).
Qed.

Lemma sorted_rows_perm rows : Permutation (sorted_rows rows) rows.
Proof.
  unfold sorted_rows. rewrite sort_desc_perm, map_map. cbn. now rewrite map_id.
Qed.

Lemma sorted_rows_sorted rows :
  Forall printed_cpu rows -> StronglySorted cpu_ge (sorted_rows rows).
Proof.
  intros Hp. unfold sorted_rows.
  set (kl := map (fun r => (cpu_key r, r)) rows).
  assert (Hk : Forall (fun p => row_cpu (snd p) = Ok (fst p)) (sort_desc kl)).
  { rewrite sort_desc_perm. unfold kl. apply Forall_map.
    eapply Forall_impl; [exact Hp|]. intros r Hr. now apply row_cpu_printed. }
  pose proof (sort_desc_sorted kl) as Hs. revert Hk.
  induction Hs as [|y l Hs IH Hy]; intros Hk; cbn [map]; [constructor|].
  apply Forall_cons in Hk as [Hky Hkl].
  constructor; [now apply IH|].
  apply Forall_map. rewrite Forall_forall in *. intros z Hz.
  exists (fst y), (fst z). repeat split; auto. now apply Hy.
Qed.

Lemma sorted_rows_stable k rows :
  Forall printed_cpu rows ->
  List.filter (same_cpu k) (sorted_rows rows) = List.filter (same_cpu k) rows.
Proof.
  intros Hp. unfold sorted_rows.
  set (kl := map (fun r => (cpu_key r, r)) rows).
  assert (Hsame : forall l, Forall (fun p => row_cpu (snd p) = Ok (fst p)) l ->
            List.filter (same_cpu k) (map snd l)
            = map snd (List.filter (fun p => feq (fst p) k) l)).
  { intros l Hl. rewrite filter_map_swap. f_equal. apply filter_ext_in.
    intros p Hin. rewrite Forall_forall in Hl. unfold same_cpu.
    rewrite (Hl p); [reflexivity|]. now apply list_elem_of_In. }
  assert (Hk : Forall (fun p => row_cpu (snd p) = Ok (fst p)) kl).
  { unfold kl. apply Forall_map. eapply Forall_impl; [exact Hp|].
    intros r Hr. now apply row_cpu_printed. }
  rewrite Hsame by now rewrite sort_desc_perm.
  rewrite sort_desc_stable, <- Hsame by assumption.
  unfold kl. rewrite map_map. cbn. now rewrite map_id.
Qed.

Lemma format_attr_Ok x t : format_attr x = Ok t -> exists v, x = Some v /\ t = format_1f v.
Proof. destruct x as [v|]; [|discriminate]. intros [= <-]. eauto. Qed.

Lemma memory_field_Ok field get m z :
  memory_field field get m = Ok z -> exists v, m = Some v /\ z = get v.
Proof. destruct m as [v|]; [|discriminate]. intros [= <-]. eauto. Qed.

(** A row that was built: every attribute it shows was read, and its
    command is the command of the process, cut. *)
Lemma build_row_inv clock p r :
  build_row clock p = Ok r ->
  exists cmd x y m virt res,
    command p = Some cmd /\ cpu_percent (info p) = Some x /\
    memory_percent (info p) = Some y /\ memory_info (info p) = Some m /\
    bytes2human (NInt (vms m)) = Ok virt /\ bytes2human (NInt (rss m)) = Ok res /\
    r = Row (pid (info p)) (default "" (username (info p))) (format_1f x) (format_1f y)
            virt res (clock (create_time (info p))) (truncate_cmd cmd).
Proof.
  unfold build_row. intros H.
  apply bind_Ok in H as (parts & Hparts & H).
  apply bind_Ok in H as (cpu & (x & Hx & ->)%format_attr_Ok & H).
  apply bind_Ok in H as (mem & (y & Hy & ->)%format_attr_Ok & H).
  apply bind_Ok in H as (v & (m & Hm & ->)%memory_field_Ok & H).
  apply bind_Ok in H as (virt & Hvirt & H).
  apply bind_Ok in H as (v' & (m' & Hm' & ->)%memory_field_Ok & H).
  apply bind_Ok in H as (res & Hres & H).
  assert (m' = m) as -> by congruence.
  exists (join_space parts), x, y, m, virt, res.
  injection H as <-. repeat split; try assumption.
  unfold command. destruct (cmdline (info p)) as [[|a l]|].
  - apply bind_Ok in Hparts as (n & -> & [= <-]). reflexivity.
  - now injection Hparts as <-.
  - apply bind_Ok in Hparts as (n & -> & [= <-]). reflexivity.
Qed.

Lemma build_row_cpu clock p r :
  build_row clock p = Ok r ->
  exists x, cpu_percent (info p) = Some x /\ r_cpu r = format_1f x.
Proof.
  intros (cmd & x & y & m & virt & res & _ & Hx & _ & _ & _ & _ & ->)%build_row_inv.
  eauto.
Qed.

Lemma build_row_printed clock p r : build_row clock p = Ok r -> printed_cpu r.
Proof. intros (x & _ & Hx)%build_row_cpu. now exists x. Qed.

(** The rows collected are those of the processes that could be read, in
    the order of enumeration. *)
Lemma collect_rows_omap clock procs : forall rows,
  collect_rows clock procs = Ok rows -> rows = omap (row_of clock) procs.
Proof.
  induction procs as [|p procs IH]; intros rows H; cbn in H.
  - now injection H as <-.
  - cbn [omap list_omap]. unfold row_of at 1.
    destruct (build_row clock p) as [r|e].
    + destruct (collect_rows clock procs) as [rows'|]; cbn in H; [|discriminate].
      injection H as <-. f_equal. now apply IH.
    + destruct (is_gone_or_denied (exn_cls e)); [now apply IH | discriminate].
Qed.

Lemma collect_rows_printed clock procs rows :
  collect_rows clock procs = Ok rows -> Forall printed_cpu rows.
Proof.
  intros H. rewrite (collect_rows_omap _ _ _ H). apply Forall_forall.
  intros r (p & _ & Hp)%list_elem_of_omap. unfold row_of in Hp.
  destruct (build_row clock p) as [r'|] eqn:E; [|discriminate].
  injection Hp as ->. eapply build_row_printed, E.
Qed.

Lemma snapshot_processes_rows clock procs rows :
  collect_rows clock procs = Ok rows ->
  snapshot_processes clock procs = Ok (take 80 (sorted_rows rows), length rows).
Proof.
  intros H. unfold snapshot_processes. rewrite H. cbn.
  rewrite (sort_key_reverse_printed rows (collect_rows_printed _ _ _ H)). cbn.
  do 2 f_equal. apply Permutation_length, sorted_rows_perm.
Qed.

Lemma snapshot_processes_raises clock procs e :
  collect_rows clock procs = Raise e -> snapshot_processes clock procs = Raise e.
Proof. intros H. unfold snapshot_processes. now rewrite H. Qed.

#[local] Arguments bytes2human : simpl never.

Lemma build_row_ok clock p :
  memory_fits p -> attributes_read p = true -> read_fails p = false ->
  exists r, build_row clock p = Ok r.
Proof.
  intros Hm Ha Hf. unfold attributes_read in Ha.
  destruct (cpu_percent (info p)) as [x|] eqn:Ex; [|discriminate].
  destruct (memory_percent (info p)) as [y|] eqn:Ey; [|discriminate].
  destruct (memory_info (info p)) as [m|] eqn:Em; [|discriminate].
  destruct (Hm m Em) as [Hv Hr].
  destruct (bytes2human_total _ Hv) as (virt & Hvirt).
  destruct (bytes2human_total _ Hr) as (res & Hres).
  unfold read_fails, needs_name in Hf. unfold build_row. rewrite Ex, Ey, Em.
  destruct (cmdline (info p)) as [[|a l]|]; cbn in Hf |- *;
    try (destruct (name p); [|discriminate]); cbn;
    rewrite Hvirt; cbn; rewrite Hres; cbn; eexists; reflexivity.
Qed.

(** A process with an attribute that psutil could not read, and whose
    command can be read: formatting the [None] raises, and not what the
    handler of the loop catches. *)
Lemma build_row_denied clock p :
  read_fails p = false -> attributes_read p = false ->
  exists e, build_row clock p = Raise e /\
            (exn_cls e = TypeError \/ exn_cls e = AttributeError) /\
            is_gone_or_denied (exn_cls e) = false.
Proof.
  intros Hf Ha. unfold read_fails, needs_name in Hf. unfold attributes_read in Ha.
  unfold build_row.
  assert (Hparts : exists parts,
            match cmdline (info p) with
            | Some (a :: l) => Ok (a :: l)
            | _ => n ← name p; Ok [n]
            end = Ok parts).
  { destruct (cmdline (info p)) as [[|a l]|]; cbn in Hf |- *;
      try (destruct (name p); [|discriminate]); eexists; reflexivity. }
  destruct Hparts as (parts & ->). cbn [mbind result_bind rbind].
  destruct (cpu_percent (info p)) as [x|]; cbn;
    [|eexists; split; [reflexivity|]; split; [now left | reflexivity]].
  destruct (memory_percent (info p)) as [y|]; cbn;
    [|eexists; split; [reflexivity|]; split; [now left | reflexivity]].
  destruct (memory_info (info p)) as [m|]; [discriminate|]. cbn.
  eexists; split; [reflexivity|]; split; [now right | reflexivity].
Qed.

Lemma build_row_fails clock p :
  read_fails p = true -> exists e, name p = Raise e /\ build_row clock p = Raise e.
Proof.
  unfold read_fails, needs_name, build_row. intros Hf.
  destruct (cmdline (info p)) as [[|a l]|]; cbn in Hf; try discriminate;
    (destruct (name p) as [n|e]; [discriminate|]); exists e; split; reflexivity.
Qed.

Lemma row_of_read clock p :
  memory_fits p -> attributes_read p = true ->
  (exists r, row_of clock p = Some r) <-> read_fails p = false.
Proof.
  intros Hm Ha. unfold row_of. split.
  - intros (r & H). destruct (read_fails p) eqn:E; [|reflexivity].
    destruct (build_row_fails clock p E) as (e & _ & He). now rewrite He in H.
  - intros H. destruct (build_row_ok clock p Hm Ha H) as (r & ->). eauto.
Qed.

(** With nothing but vanished and denied processes among the failures, and
    every attribute of every process read, the loop ends normally, and it
    drops exactly the processes that failed. *)
Lemma collect_rows_skips clock procs :
  Forall memory_fits procs -> Forall gone_or_denied procs ->
  Forall (fun p => attributes_read p = true) procs ->
  collect_rows clock procs = Ok (omap (row_of clock) procs) /\
  (length (omap (row_of clock) procs) + length (List.filter read_fails procs)
   = length procs)%nat.
Proof.
  induction 1 as [|p procs Hm _ IH]; intros Hg Ha; [split; reflexivity|].
  apply Forall_cons in Hg as [Hp Hg]. apply Forall_cons in Ha as [Hpa Ha].
  destruct (IH Hg Ha) as [IHc IHl].
  cbn [collect_rows omap list_omap List.filter].
  destruct (read_fails p) eqn:E.
  - destruct (build_row_fails clock p E) as (e & Hn & Hb).
    assert (row_of clock p = None) as -> by (unfold row_of; now rewrite Hb).
    assert (is_gone_or_denied (exn_cls e) = true) as Hc.
    { apply Hp; [|assumption]. unfold read_fails in E. now apply andb_prop in E. }
    rewrite Hb, Hc. split; [assumption|]. cbn [List.length]. lia.
  - destruct (build_row_ok clock p Hm Hpa E) as (r & Hb).
    assert (row_of clock p = Some r) as -> by (unfold row_of; now rewrite Hb).
    rewrite Hb, IHc. split; [reflexivity|]. cbn [List.length]. lia.
Qed.

(** But one process with an attribute that could not be read, and that the
    loop does not skip for its name, ends the loop with the [TypeError] or
    the [AttributeError] of the first such process. *)
Lemma collect_rows_aborts clock procs :
  Forall memory_fits procs -> Forall gone_or_denied procs ->
  Exists (fun p => read_fails p = false /\ attributes_read p = false) procs ->
  exists e, collect_rows clock procs = Raise e /\
            (exn_cls e = TypeError \/ exn_cls e = AttributeError).
Proof.
  induction 1 as [|p procs Hm _ IH]; intros Hg Hex; [inversion Hex|].
  apply Forall_cons in Hg as [Hp Hg]. cbn [collect_rows].
  destruct (read_fails p) eqn:E.
  - destruct (build_row_fails clock p E) as (e & Hn & Hb).
    assert (is_gone_or_denied (exn_cls e) = true) as Hc.
    { apply Hp; [|assumption]. unfold read_fails in E. now apply andb_prop in E. }
    rewrite Hb, Hc. apply IH; [assumption|].
    inversion Hex as [? ? [Hf _]|]; subst; [congruence | assumption].
  - destruct (attributes_read p) eqn:Ea.
    + destruct (build_row_ok clock p Hm Ea E) as (r & ->).
      destruct IH as (e & -> & He); [assumption| |eauto].
      inversion Hex as [? ? [_ Ha]|]; subst; [congruence | assumption].
    + destruct (build_row_denied clock p E Ea) as (e & -> & He & ->). eauto.
Qed.

(** ** The process table *)

Lemma update_procs_tree clock h procs s :
  tree (snd (_update_procs clock h procs s))
  = match snapshot_processes clock procs with
    | Ok snap => fst snap
    | Raise _ => []
    end.
Proof.
  unfold _update_procs. run_M.
  destruct (snapshot_processes clock procs) as [snap|e]; [|reflexivity].
  destruct (hostname h); [|reflexivity]. destruct (boot_time h); [|reflexivity].
  destruct (format_uptime _ _); [|reflexivity].
  pose proof (interval_text_state (set_tree (fst snap) (set_tree [] s))) as Hs.
  destruct (interval_text (set_tree (fst snap) (set_tree [] s))) as [[t|e] s'];
    cbn in Hs; subst s'; [|reflexivity].
  destruct (cpu_now h); reflexivity.
Qed.

Lemma StronglySorted_take {A} (R : A -> A -> Prop) n : forall l,
  StronglySorted R l -> StronglySorted R (take n l).
Proof.
  induction n as [|n IH]; intros l Hs; [constructor|].
  destruct Hs as [|x l Hs Hx]; cbn; [constructor|].
  constructor; [now apply IH|].
  rewrite Forall_forall in *. intros y Hy. apply Hx.
  now apply (subseteq_take n l).
Qed.

Lemma filter_take_prefix {A} (f : A -> bool) n (l : list A) :
  List.filter f (take n l) `prefix_of` List.filter f l.
Proof.
  exists (List.filter f (drop n l)).
  now rewrite <- List.filter_app, take_drop.
Qed.

(** What the table holds after [_update_procs], whatever the processes. *)
Lemma update_procs_shown clock h procs s :
  let shown := tree (snd (_update_procs clock h procs s)) in
  (shown = [] /\ exists e, collect_rows clock procs = Raise e) \/
  exists rows, collect_rows clock procs = Ok rows /\ shown = take 80 (sorted_rows rows).
Proof.
  cbn zeta. rewrite update_procs_tree.
  destruct (collect_rows clock procs) as [rows|e] eqn:E.
  - right. exists rows. now rewrite (snapshot_processes_rows _ _ _ E).
  - left. rewrite (snapshot_processes_raises _ _ _ E). eauto.
Qed.

(** C1. After [_update_procs] the table holds at most 80 rows, in
    non-increasing order of the CPU column; they are the first 80 of the
    collected rows in that order, and rows of equal CPU are in the order in
    which the processes were enumerated. *)
Theorem update_procs_table (clock : option Q -> string) (h : host)
    (procs : list process) (s : SysMon) :
  let shown := tree (snd (_update_procs clock h procs s)) in
  (length shown <= 80)%nat /\
  StronglySorted cpu_ge shown /\
  forall rows, collect_rows clock procs = Ok rows ->
    shown = take 80 (sorted_rows rows) /\
    Permutation (sorted_rows rows) rows /\
    StronglySorted cpu_ge (sorted_rows rows) /\
    forall k, List.filter (same_cpu k) shown `prefix_of` List.filter (same_cpu k) rows.
Proof.
  cbn zeta.
  destruct (update_procs_shown clock h procs s) as [[-> (e & He)] | (rows & Hr & ->)].
  - split; [cbn; lia|]. split; [constructor|]. intros rows Hrows. congruence.
  - pose proof (collect_rows_printed _ _ _ Hr) as Hp.
    split; [rewrite length_take; lia|].
    split; [apply StronglySorted_take, sorted_rows_sorted, Hp|].
    intros rows' Hrows'. assert (rows' = rows) as -> by congruence.
    split; [reflexivity|]. split; [apply sorted_rows_perm|].
    split; [apply sorted_rows_sorted, Hp|].
    intros k. rewrite <- (sorted_rows_stable k rows Hp). apply filter_take_prefix.
Qed.

Lemma update_procs_table_witness :
  tree (snd (_update_procs example_clock (Host (Ok "host") (Ok 0%Q) 60%Q (Ok (Fin 3)))
               example_procs sysmon0))
  = [ example_row 4 "1.5" "python3 main.py";
      example_row 1 "0.1" "sshd -D";
      example_row 2 "0.1" "kthreadd" ].
Proof.
  pose proof (update_procs_table example_clock (Host (Ok "host") (Ok 0%Q) 60%Q (Ok (Fin 3)))
                example_procs sysmon0) as (_ & _ & H).
  destruct (H [example_row 1 "0.1" "sshd -D"; example_row 2 "0.1" "kthreadd";
               example_row 4 "1.5" "python3 main.py"]) as (-> & _);
    vm_compute; reflexivity.
Defined.

(** ** Processes that vanish or deny access *)

Lemma update_procs_returns clock h procs s shown n :
  snapshot_processes clock procs = Ok (shown, n) ->
  host_answers h -> 250 <= update_interval s <= 10000 ->
  exists s', _update_procs clock h procs s = (Ok tt, s') /\ tree s' = shown.
Proof.
  intros Hs (host_name & boot & up & cpu & Hh & Hb & Hu & Hc) Hiv.
  unfold _update_procs. run_M. rewrite Hs, Hh, Hb, Hu. cbn [fst snd].
  destruct (interval_text_ok (set_tree shown (set_tree [] s))) as (t & Ht); [exact Hiv|].
  rewrite Ht, Hc. eexists. split; reflexivity.
Qed.

Lemma update_procs_raises clock h procs s e :
  snapshot_processes clock procs = Raise e ->
  _update_procs clock h procs s = (Raise e, set_tree [] s).
Proof. intros Hs. unfold _update_procs. run_M. now rewrite Hs. Qed.

Lemma example_procs_fit : Forall memory_fits example_procs.
Proof. repeat (constructor; [intros m [= <-]; cbn; lia|]). constructor. Qed.

Lemma example_procs_gone_or_denied : Forall gone_or_denied example_procs.
Proof.
  repeat constructor; intros e; vm_compute; intros; try discriminate;
    match goal with H : Raise _ = Raise _ |- _ => injection H as <- end; reflexivity.
Qed.

Lemma denied_procs_fit : Forall memory_fits denied_procs.
Proof.
  constructor; [intros m [= <-]; cbn; lia|]. constructor; [intros m; discriminate|].
  constructor; [intros m [= <-]; cbn; lia|]. constructor.
Qed.

Lemma denied_procs_gone_or_denied : Forall gone_or_denied denied_procs.
Proof. repeat constructor; intros e; vm_compute; intros; discriminate. Qed.

(** C2, as the code has it.  Take an enumeration in which the only
    failures are those of psutil: a name that cannot be read raises
    [NoSuchProcess] or [AccessDenied], and memory counters that were read
    are byte counts below [2 ^ 1024].

    When psutil read every attribute of every process, the snapshot does
    not raise: the processes whose name cannot be read are skipped, every
    row shown is the row of a process that was read, the rows are fewer
    than the processes by the number of skipped ones at most, and
    [_update_procs] returns when the host answers.

    When psutil was denied an attribute of a process (its [info] holds
    [None]) and the loop does not skip that process for its name, the
    snapshot raises a [TypeError] or an [AttributeError]: the process is
    not skipped, and [_update_procs] ends with the table emptied. *)
Theorem snapshot_skips_unreadable (clock : option Q -> string) (procs : list process) :
  Forall memory_fits procs -> Forall gone_or_denied procs ->
  (Forall (fun p => attributes_read p = true) procs ->
   exists shown,
     snapshot_processes clock procs = Ok (shown, length (omap (row_of clock) procs)) /\
     collect_rows clock procs = Ok (omap (row_of clock) procs) /\
     (length (omap (row_of clock) procs) + length (List.filter read_fails procs)
      = length procs)%nat /\
     (forall r, In r shown ->
        exists p, In p procs /\ read_fails p = false /\ build_row clock p = Ok r) /\
     (Nat.min 80 (length procs)
      <= length shown + length (List.filter read_fails procs))%nat /\
     forall h s, host_answers h -> 250 <= update_interval s <= 10000 ->
       exists s', _update_procs clock h procs s = (Ok tt, s') /\ tree s' = shown) /\
  (Exists (fun p => read_fails p = false /\ attributes_read p = false) procs ->
   exists e,
     snapshot_processes clock procs = Raise e /\
     (exn_cls e = TypeError \/ exn_cls e = AttributeError) /\
     forall h s, _update_procs clock h procs s = (Raise e, set_tree [] s)).
Proof.
  intros Hm Hg. split.
  - intros Ha. destruct (collect_rows_skips clock procs Hm Hg Ha) as [Hc Hl].
    set (rows := omap (row_of clock) procs) in *.
    pose proof (snapshot_processes_rows clock procs rows Hc) as Hs.
    exists (take 80 (sorted_rows rows)).
    split; [assumption|]. split; [assumption|]. split; [assumption|].
    split; [|split].
    + intros r Hr.
      assert (Hin : r ∈ rows).
      { rewrite <- (sorted_rows_perm rows). apply (subseteq_take 80).
        now apply list_elem_of_In. }
      apply list_elem_of_omap in Hin as (p & Hp & Hrow).
      exists p. split; [now apply list_elem_of_In|]. split.
      * rewrite Forall_forall in Hm, Ha. apply (row_of_read clock); eauto.
      * unfold row_of in Hrow. destruct (build_row clock p); congruence.
    + rewrite length_take, (Permutation_length (sorted_rows_perm rows)). lia.
    + intros h s Hh Hiv. eapply update_procs_returns; eassumption.
  - intros Hex. destruct (collect_rows_aborts clock procs Hm Hg Hex) as (e & He & Hcls).
    exists e. split; [now apply snapshot_processes_raises|]. split; [assumption|].
    intros h s. now apply update_procs_raises, snapshot_processes_raises.
Qed.

Lemma snapshot_skips_unreadable_witness :
  (exists shown,
     snapshot_processes example_clock example_procs = Ok (shown, 3%nat) /\
     forall h s, host_answers h -> 250 <= update_interval s <= 10000 ->
       exists s', _update_procs example_clock h example_procs s = (Ok tt, s') /\
                  tree s' = shown) /\
  (exists e,
     snapshot_processes example_clock denied_procs = Raise e /\
     (exn_cls e = TypeError \/ exn_cls e = AttributeError)).
Proof.
  split.
  - destruct (proj1 (snapshot_skips_unreadable example_clock example_procs
                       example_procs_fit example_procs_gone_or_denied))
      as (shown & H1 & _ & _ & _ & _ & H2).
    + repeat constructor.
    + exists shown. split; [exact H1 | exact H2].
  - destruct (proj2 (snapshot_skips_unreadable example_clock denied_procs
                       denied_procs_fit denied_procs_gone_or_denied))
      as (e & H1 & H2 & _).
    + apply Exists_cons_tl, Exists_cons_hd. split; reflexivity.
    + exists e. split; [exact H1 | exact H2].
Defined.

(** Of three processes the second was denied its memory counters: the
    snapshot raises what formatting the [None] raises, no process is shown,
    and the status line is not written. *)
Lemma snapshot_aborts_on_denied_attribute :
  snapshot_processes example_clock denied_procs
  = Raise (Exn AttributeError "'NoneType' object has no attribute 'vms'") /\
  _update_procs example_clock (Host (Ok "host") (Ok 0%Q) 60%Q (Ok (Fin 3))) denied_procs
                (set_status "before" (set_tree [example_row 1 "0.1" "sshd -D"] sysmon0))
  = (Raise (Exn AttributeError "'NoneType' object has no attribute 'vms'"),
     set_status "before" sysmon0).
Proof. vm_compute. split; reflexivity. Qed.

(** ** Command lines *)

Lemma truncate_cmd_long cmd :
  (100 < length cmd)%nat ->
  truncate_cmd cmd = (take 97 cmd ++ text_of "...")%list /\
  length (truncate_cmd cmd) = 100%nat /\ length (take 97 cmd) = 97%nat.
Proof.
  intros H. unfold truncate_cmd. rewrite (proj2 (Nat.ltb_lt _ _) H).
  assert (length (take 97 cmd) = 97%nat) by (rewrite length_take; lia).
  repeat split; [|assumption]. rewrite length_app. cbn. lia.
Qed.

Lemma truncate_cmd_length cmd : (length (truncate_cmd cmd) <= 100)%nat.
Proof.
  destruct (Nat.ltb_spec 100 (length cmd)) as [H|H].
  - destruct (truncate_cmd_long cmd H) as (_ & -> & _). lia.
  - unfold truncate_cmd. now rewrite (proj2 (Nat.ltb_ge _ _) H).
Qed.

Lemma build_row_cmd clock p r :
  build_row clock p = Ok r ->
  exists cmd, command p = Some cmd /\ r_cmd r = truncate_cmd cmd.
Proof.
  intros (cmd & x & y & m & virt & res & Hc & _ & _ & _ & _ & _ & ->)%build_row_inv.
  eauto.
Qed.

Lemma collect_rows_built clock procs rows r :
  collect_rows clock procs = Ok rows -> In r rows ->
  exists p, In p procs /\ build_row clock p = Ok r.
Proof.
  intros H Hr. rewrite (collect_rows_omap _ _ _ H) in Hr.
  apply list_elem_of_In, list_elem_of_omap in Hr as (p & Hp & Hrow).
  exists p. split; [now apply list_elem_of_In|].
  unfold row_of in Hrow. destruct (build_row clock p); congruence.
Qed.

(** C4. A command of more than 100 characters becomes its first 97
    characters followed by ["..."], 100 characters in all; a command of at
    most 100 characters is left as it is.  So a command of 150 characters
    becomes 100 characters that end in the marker.  This is what happens to
    the command of every process in the snapshot: the row that is built for
    a process holds its command cut in this way, and every row of the table
    holds the cut command of a process of the enumeration, of 100
    characters at most. *)
Theorem truncate_cmd_spec (cmd : text) :
  ((100 < length cmd)%nat ->
     truncate_cmd cmd = (take 97 cmd ++ text_of "...")%list /\
     length (truncate_cmd cmd) = 100%nat /\
     length (take 97 cmd) = 97%nat /\
     take 97 cmd `prefix_of` cmd) /\
  ((length cmd <= 100)%nat -> truncate_cmd cmd = cmd) /\
  (length cmd = 150%nat ->
     length (truncate_cmd cmd) = 100%nat /\
     exists head, truncate_cmd cmd = (head ++ text_of "...")%list) /\
  (forall clock p r, command p = Some cmd -> build_row clock p = Ok r ->
     r_cmd r = truncate_cmd cmd) /\
  (forall clock h procs s r, In r (tree (snd (_update_procs clock h procs s))) ->
     (length (r_cmd r) <= 100)%nat /\
     exists p c, In p procs /\ command p = Some c /\ build_row clock p = Ok r /\
                 r_cmd r = truncate_cmd c).
Proof.
  split; [|split; [|split; [|split]]].
  - intros H. destruct (truncate_cmd_long cmd H) as (H1 & H2 & H3).
    repeat split; try assumption. apply prefix_take.
  - intros H. unfold truncate_cmd. now rewrite (proj2 (Nat.ltb_ge _ _) H).
  - intros H. destruct (truncate_cmd_long cmd ltac:(lia)) as (H1 & H2 & _).
    split; [assumption | eauto].
  - intros clock p r Hc (c & Hc' & Hr)%build_row_cmd. congruence.
  - intros clock h procs s r Hr.
    destruct (update_procs_shown clock h procs s) as [[Hs _] | (rows & Hrows & Hs)];
      cbn zeta in Hs; rewrite Hs in Hr; [destruct Hr|].
    assert (Hin : In r rows).
    { apply list_elem_of_In. rewrite <- (sorted_rows_perm rows).
      apply (subseteq_take 80). now apply list_elem_of_In. }
    destruct (collect_rows_built _ _ _ _ Hrows Hin) as (p & Hp & Hb).
    destruct (build_row_cmd _ _ _ Hb) as (c & Hc & Hcmd).
    split; [rewrite Hcmd; apply truncate_cmd_length|]. eauto 6.
Qed.

Lemma truncate_cmd_spec_witness :
  (length (truncate_cmd (repeat 120%N 150)) = 100%nat /\
   exists head, truncate_cmd (repeat 120%N 150) = (head ++ text_of "...")%list) /\
  r_cmd (Row 7 "root" "1.0" "0.3" "3.7G" "120.6K" "00:00:05"
             (repeat 120%N 75 ++ 32%N :: repeat 120%N 21 ++ text_of "...")%list)
  = truncate_cmd (join_space [repeat 120%N 75; repeat 120%N 74]).
Proof.
  split.
  - apply (truncate_cmd_spec (repeat 120%N 150)). reflexivity.
  - apply (proj1 (proj2 (proj2 (proj2
             (truncate_cmd_spec (join_space [repeat 120%N 75; repeat 120%N 74])))))
             example_clock long_process); vm_compute; reflexivity.
Defined.

(** The table after a tick that met the process of 150 characters: its
    row ends in the marker. *)
Example long_command_shown :
  map r_cmd (tree (snd (_update_procs example_clock (Host (Ok "host") (Ok 0%Q) 60%Q (Ok (Fin 3)))
                          [long_process] sysmon0)))
  = [(repeat 120%N 75 ++ 32%N :: repeat 120%N 21 ++ text_of "...")%list]%list.
Proof. vm_compute. reflexivity. Qed.

(** ** Ties of the printed percentage *)

Lemma row_cpu_shown clock p r :
  build_row clock p = Ok r ->
  exists x, cpu_percent (info p) = Some x /\ row_cpu r = Ok (shown_cpu x).
Proof.
  intros (x & Hx & Hr)%build_row_cpu. exists x. split; [assumption|].
  unfold row_cpu. rewrite Hr. apply py_float_format_1f.
Qed.

(** C10. The sort key of a row is its CPU percentage as printed with one
    decimal and read back.  So two processes whose percentages print alike
    tie and stay in enumeration order, whatever their raw percentages; the
    rows shown are in non-increasing order of the printed percentage; and
    they need not be in non-increasing order of the raw one: a process at
    0.0625 % is shown before a process at 0.125 % enumerated after it. *)
Theorem sort_compares_printed_cpu (clock : option Q -> string) :
  (forall p r, build_row clock p = Ok r ->
     exists x, cpu_percent (info p) = Some x /\ row_cpu r = Ok (shown_cpu x)) /\
  (forall p1 p2 r1 r2 x1 x2,
     build_row clock p1 = Ok r1 -> build_row clock p2 = Ok r2 ->
     cpu_percent (info p1) = Some x1 -> cpu_percent (info p2) = Some x2 ->
     format_1f x1 = format_1f x2 ->
     snapshot_processes clock [p1; p2] = Ok ([r1; r2], 2%nat)) /\
  (forall procs rows k, collect_rows clock procs = Ok rows ->
     List.filter (same_cpu k) (sorted_rows rows) = List.filter (same_cpu k) rows) /\
  (forall procs shown n, snapshot_processes clock procs = Ok (shown, n) ->
     StronglySorted cpu_ge shown) /\
  (exists p1 p2 r1 r2 x1 x2,
     build_row clock p1 = Ok r1 /\ build_row clock p2 = Ok r2 /\
     cpu_percent (info p1) = Some x1 /\ cpu_percent (info p2) = Some x2 /\
     flt x1 x2 = true /\
     snapshot_processes clock [p1; p2] = Ok ([r1; r2], 2%nat)).
Proof.
  split; [apply row_cpu_shown|]. split; [|split; [|split]].
  - intros p1 p2 r1 r2 x1 x2 H1 H2 E1 E2 Hsame.
    assert (Hc : collect_rows clock [p1; p2] = Ok [r1; r2]).
    { cbn [collect_rows]. now rewrite H1, H2. }
    rewrite (snapshot_processes_rows _ _ _ Hc). do 2 f_equal.
    unfold sorted_rows. cbn [map sort_desc insert_desc fst snd].
    assert (cpu_key r1 = cpu_key r2) as ->.
    { unfold cpu_key, row_cpu.
      destruct (build_row_cpu _ _ _ H1) as (y1 & F1 & ->).
      destruct (build_row_cpu _ _ _ H2) as (y2 & F2 & ->).
      assert (y1 = x1) as -> by congruence. assert (y2 = x2) as -> by congruence.
      now rewrite Hsame. }
    now rewrite flt_irrefl.
  - intros procs rows k Hc. apply sorted_rows_stable.
    eapply collect_rows_printed, Hc.
  - intros procs shown n Hs.
    destruct (collect_rows clock procs) as [rows|e] eqn:Hc.
    + rewrite (snapshot_processes_rows _ _ _ Hc) in Hs. injection Hs as <- _.
      apply StronglySorted_take, sorted_rows_sorted.
      eapply collect_rows_printed, Hc.
    + rewrite (snapshot_processes_raises _ _ _ Hc) in Hs. discriminate.
  - exists (example_process 1 (1 # 16) (Some ["sshd"; "-D"]) (Ok "sshd")),
           (example_process 2 (1 # 8) None (Ok "kthreadd")).
    exists (Row 1 "root" "0.1" "0.3" "3.7G" "120.6K" (clock (Some 5%Q)) (text_of "sshd -D")),
           (Row 2 "root" "0.1" "0.3" "3.7G" "120.6K" (clock (Some 5%Q)) (text_of "kthreadd")).
    exists (Fin (1 # 16)), (Fin (1 # 8)).
    split; [|split; [|split; [|split; [|split]]]]; vm_compute; reflexivity.
Qed.

Lemma sort_compares_printed_cpu_witness :
  snapshot_processes example_clock
    [ example_process 1 (1 # 16) (Some ["sshd"; "-D"]) (Ok "sshd");
      example_process 2 (1 # 8) None (Ok "kthreadd") ]
  = Ok ([example_row 1 "0.1" "sshd -D"; example_row 2 "0.1" "kthreadd"], 2%nat).
Proof.
  apply (proj1 (proj2 (sort_compares_printed_cpu example_clock))
           _ _ _ _ (Fin (1 # 16)) (Fin (1 # 8)));
    vm_compute; reflexivity.
Defined.

(** ** The update loop *)

(** What a tick leaves when its body raised [e]: the error on [stderr] and
    the next tick scheduled after the current interval. *)
Lemma update_all_reports env s e s1 :
  update_body env s = (Raise e, s1) ->
  is_Exception (exn_cls e) = true ->
  _update_all env s =
    (Ok tt, set_timers (timers s1 ++ [update_interval s1])
              (set_stderr (stderr s1 ++ ["Update error: " +:+ exn_msg e]) s1)).
Proof.
  intros Hb Hc. unfold _update_all, try_except_Exception.
  unfold mbind at 1, M_bind at 1. rewrite Hb, Hc. reflexivity.
Qed.

Lemma update_all_quiet env s s1 :
  update_body env s = (Ok tt, s1) ->
  _update_all env s = (Ok tt, set_timers (timers s1 ++ [update_interval s1]) s1).
Proof.
  intros Hb. unfold _update_all, try_except_Exception.
  unfold mbind at 1, M_bind at 1. rewrite Hb. reflexivity.
Qed.

Lemma update_all_schedules env s :
  raises_only_Exception env ->
  exists s', _update_all env s = (Ok tt, s') /\ timers s' <> [].
Proof.
  intros Hsafe. destruct (update_body env s) as [[[]|e] s1] eqn:Hb.
  - eexists. split; [apply update_all_quiet, Hb|]. cbn. now destruct (timers s1).
  - eexists. split; [apply (update_all_reports _ _ _ _ Hb), (Hsafe _ _ _ Hb)|].
    cbn. now destruct (timers s1).
Qed.

Lemma run_ticks_all envs : forall s,
  Forall raises_only_Exception envs -> timers s <> [] ->
  fst (run_ticks envs s) = length envs.
Proof.
  induction envs as [|env envs IH]; intros s Hall Hpending; [reflexivity|].
  inversion Hall as [|? ? Henv Hrest]; subst.
  cbn [run_ticks]. destruct (timers s) as [|d pending]; [congruence|].
  destruct (update_all_schedules env (set_timers pending s) Henv) as (s' & Hs' & Ht).
  rewrite Hs'. specialize (IH s' Hrest Ht).
  destruct (run_ticks envs s') as [n s'']. cbn in *. now rewrite IH.
Qed.

(** C3, as the code has it.  When the body of a tick (sampling CPU, memory,
    swap and disk, snapshotting the processes) raises an exception that is
    an [Exception], [_update_all] prints it to [stderr], returns normally and
    schedules the next tick after the current interval; and as long as
    ticks raise nothing but such exceptions, every tick runs: the loop does
    not stop. *)
Theorem update_all_survives_Exception (env : tick_env) (s s1 : SysMon) (e : exn) :
  update_body env s = (Raise e, s1) ->
  is_Exception (exn_cls e) = true ->
  _update_all env s =
    (Ok tt, set_timers (timers s1 ++ [update_interval s1])
              (set_stderr (stderr s1 ++ ["Update error: " +:+ exn_msg e]) s1)) /\
  forall envs s0,
    Forall raises_only_Exception envs -> timers s0 <> [] ->
    fst (run_ticks envs s0) = length envs.
Proof.
  intros Hb Hc. split.
  - apply update_all_reports; assumption.
  - apply run_ticks_all.
Qed.

Lemma update_all_survives_Exception_witness :
  _update_all failing_env sysmon0 =
    (Ok tt, set_timers [1000]
              (set_stderr ["Update error: cannot read /proc/stat"] sysmon0)) /\
  forall envs s0,
    Forall raises_only_Exception envs -> timers s0 <> [] ->
    fst (run_ticks envs s0) = length envs.
Proof.
  apply (update_all_survives_Exception failing_env sysmon0 sysmon0
           (Exn OSError "cannot read /proc/stat")); reflexivity.
Defined.

(** An exception that is not an [Exception] passes the handler: nothing is
    printed, no tick is scheduled, and of three ticks that were to come
    only the interrupted one runs. *)
Lemma update_all_interrupted :
  _update_all interrupted_env sysmon0 = (Raise (Exn KeyboardInterrupt ""), sysmon0) /\
  stderr (snd (_update_all interrupted_env sysmon0)) = [] /\
  timers (snd (_update_all interrupted_env sysmon0)) = [] /\
  fst (run_ticks [interrupted_env; quiet_env; quiet_env] (set_timers [1000] sysmon0))
  = 1%nat.
Proof. vm_compute. repeat split. Qed.

(** Three ticks, the second of which fails in [_update_cpu]: all three
    run, the error is on [stderr], and the next tick is pending. *)
Example loop_survives_failing_tick :
  let '(n, s) := run_ticks [quiet_env; failing_env; quiet_env] (set_timers [1000] sysmon0) in
  n = 3%nat /\ stderr s = ["Update error: cannot read /proc/stat"] /\ timers s = [1000].
Proof. vm_compute. repeat split. Qed.

(** ** Themes *)

Lemma probe_theme_names answer t :
  probe_theme answer = Ok (Some t) -> t = "dark" \/ t = "light".
Proof.
  unfold probe_theme. destruct answer as [out|e].
  - destruct (contains "dark" _); [intros [= <-]; now left|].
    destruct (contains "light" _); [intros [= <-]; now right | discriminate].
  - destruct (is_Exception _); discriminate.
Qed.

Lemma probe_theme_raises answer e :
  probe_theme answer = Raise e -> answer = Raise e /\ is_Exception (exn_cls e) = false.
Proof.
  unfold probe_theme. destruct answer as [out|e']; [discriminate|].
  destruct (is_Exception (exn_cls e')) eqn:E; [discriminate|].
  intros [= <-]. auto.
Qed.

Lemma detect_system_theme_names gs xdg t :
  detect_system_theme gs xdg = Ok t -> t = "dark" \/ t = "light".
Proof.
  unfold detect_system_theme.
  destruct (probe_theme gs) as [[t1|]|e1] eqn:E1; cbn; [| |discriminate].
  - intros [= <-]. eapply probe_theme_names, E1.
  - destruct (probe_theme xdg) as [[t2|]|e2] eqn:E2; cbn; [| |discriminate].
    + intros [= <-]. eapply probe_theme_names, E2.
    + intros [= <-]. now left.
Qed.

Lemma detect_system_theme_raises gs xdg e :
  detect_system_theme gs xdg = Raise e ->
  (gs = Raise e \/ xdg = Raise e) /\ is_Exception (exn_cls e) = false.
Proof.
  unfold detect_system_theme.
  destruct (probe_theme gs) as [[t1|]|e1] eqn:E1; cbn; [discriminate| |].
  - destruct (probe_theme xdg) as [[t2|]|e2] eqn:E2; cbn; [discriminate|discriminate|].
    intros [= <-]. destruct (probe_theme_raises _ _ E2). auto.
  - intros [= <-]. destruct (probe_theme_raises _ _ E1). auto.
Qed.

(** X1. Whatever [theme_mode] holds and whatever the desktop answers,
    [THEMES[self._resolve_theme()]] finds a palette, the dark or the light
    one: there is no [KeyError].  The only thing that can come out instead
    is what a probe of the desktop raised in the mode [auto], when that is
    not an [Exception]. *)
Theorem resolved_colors_found (mode : string) (gsettings xdg_settings : result string) :
  match resolved_colors mode gsettings xdg_settings with
  | Ok (Some colors) => colors = dark \/ colors = light
  | Ok None => False
  | Raise e =>
      mode = "auto" /\ (gsettings = Raise e \/ xdg_settings = Raise e) /\
      is_Exception (exn_cls e) = false
  end.
Proof.
  unfold resolved_colors, _resolve_theme.
  destruct (String.eqb mode "auto") eqn:Em.
  - apply String.eqb_eq in Em.
    destruct (detect_system_theme gsettings xdg_settings) as [t|e] eqn:Ed; cbn.
    + destruct (detect_system_theme_names _ _ _ Ed) as [-> | ->]; vm_compute; auto.
    + destruct (detect_system_theme_raises _ _ _ Ed). auto.
  - cbn. destruct (THEMES !! mode) as [colors|] eqn:Et.
    + rewrite Et. unfold THEMES in Et.
      destruct (decide (mode = "dark")) as [-> | Hd].
      { vm_compute in Et. injection Et as <-. now left. }
      rewrite lookup_insert_ne in Et by congruence.
      destruct (decide (mode = "light")) as [-> | Hl].
      { vm_compute in Et. injection Et as <-. now right. }
      rewrite lookup_singleton_ne in Et by congruence. discriminate.
    + vm_compute. now left.
Qed.

(** An answer of [gsettings] that names a theme settles the matter:
    [xdg-settings] is not asked, so nothing that it would answer or raise
    changes the result; and [dark] wins over [light] when an answer names
    both. *)
Lemma detect_system_theme_first_answer (out : string) (xdg xdg' : result string) :
  let answer := str_lower (str_strip out) in
  (contains "dark" answer || contains "light" answer = true ->
   detect_system_theme (Ok out) xdg = detect_system_theme (Ok out) xdg') /\
  (contains "dark" answer = true -> detect_system_theme (Ok out) xdg = Ok "dark") /\
  (contains "dark" answer = false -> contains "light" answer = true ->
   detect_system_theme (Ok out) xdg = Ok "light") /\
  (contains "dark" answer = false -> contains "light" answer = false ->
   detect_system_theme (Ok out) xdg = detect_system_theme (Raise (Exn OSError "")) xdg).
Proof.
  cbn zeta. unfold detect_system_theme, probe_theme. cbn [is_Exception exn_cls].
  destruct (contains "dark" _), (contains "light" _); cbn; repeat split; intros;
    try reflexivity; discriminate.
Qed.

(** ** Zoom *)

Lemma handle_zoom_run z s :
  exists v, handle_zoom z s = (Ok tt, set_font_size v s) /\
            Z.min 6 (font_size s) <= v /\
            (6 <= font_size s -> 6 <= v).
Proof.
  destruct z; cbn [handle_zoom].
  - exists (font_size s + 1). split; [reflexivity | lia].
  - unfold _zoom_out. run_M.
    destruct (6 <? font_size s) eqn:E.
    + apply Z.ltb_lt in E. exists (font_size s - 1). split; [reflexivity | lia].
    + apply Z.ltb_ge in E. exists (font_size s). split; [now destruct s | lia].
  - exists 10. split; [reflexivity | lia].
Qed.

(** X2. The zoom handlers never fail and touch nothing but the font size;
    after any sequence of zooming in, zooming out and resetting, the font
    size is at least 6 when it was at least 6 before, and it is never
    smaller than both 6 and the size that the sequence started from (a
    smaller size can only come from the configuration file). *)
Theorem zoom_keeps_font_size_above_6 (zs : list zoom) (s : SysMon) :
  exists v, handle_zooms zs s = (Ok tt, set_font_size v s) /\
            Z.min 6 (font_size s) <= v /\
            (6 <= font_size s -> 6 <= v).
Proof.
  revert s. induction zs as [|z zs IH]; intros s.
  - exists (font_size s). split; [now destruct s | lia].
  - destruct (handle_zoom_run z s) as (v1 & H1 & Hmin1 & Hsix1).
    destruct (IH (set_font_size v1 s)) as (v & H & Hmin & Hsix).
    exists v. split.
    + cbn [handle_zooms]. unfold mbind at 1, M_bind at 1. rewrite H1. exact H.
    + cbn [font_size set_font_size] in Hmin, Hsix. lia.
Qed.

(** X3. Zooming in and then out again gives back the state as it was,
    from any font size of at least 6; zooming out and then in does so from
    any font size above 6, and at 6 it enlarges the font, since zooming out
    stops there. *)
Theorem zoom_in_out_cancel (s : SysMon) :
  6 <= font_size s ->
  (_zoom_in;; _zoom_out) s = (Ok tt, s) /\
  (6 < font_size s -> (_zoom_out;; _zoom_in) s = (Ok tt, s)) /\
  (font_size s = 6 -> (_zoom_out;; _zoom_in) s = (Ok tt, set_font_size 7 s)).
Proof.
  intros H. unfold _zoom_in, _zoom_out. run_M. cbn [font_size set_font_size].
  split; [|split].
  - destruct (6 <? font_size s + 1) eqn:E; [|apply Z.ltb_ge in E; lia].
    replace (font_size s + 1 - 1) with (font_size s) by lia. now destruct s.
  - intros H'. destruct (6 <? font_size s) eqn:E; [|apply Z.ltb_ge in E; lia].
    cbn [font_size set_font_size].
    replace (font_size s - 1 + 1) with (font_size s) by lia. now destruct s.
  - intros H'. destruct (6 <? font_size s) eqn:E; [apply Z.ltb_lt in E; lia|].
    cbn. rewrite H'. reflexivity.
Qed.

Lemma zoom_in_out_cancel_witness :
  (_zoom_in;; _zoom_out) sysmon0 = (Ok tt, sysmon0).
Proof.
  refine (proj1 (zoom_in_out_cancel sysmon0 _)). cbn. lia.
Defined.

(** ** The top lines *)

Lemma zip_with_second {A B} (l : list A) : forall (k : list B),
  (length k <= length l)%nat -> zip_with (fun _ y => y) l k = k.
Proof.
  induction l as [|x l IH]; intros [|y k] H; cbn in *; try reflexivity; try lia.
  rewrite IH by lia. reflexivity.
Qed.

Lemma show_lines_texts (lines labels : list string) :
  show_lines lines labels
  = (lines ++ repeat "" (length labels - length lines))%list.
Proof.
  unfold show_lines.
  set (n := length labels). set (m := length lines).
  assert (Hl : length (labels ++ repeat "" (Nat.max n m - n))%list = Nat.max n m).
  { rewrite length_app, repeat_length. fold n. lia. }
  rewrite Hl.
  assert (Ht : length (lines ++ repeat "" (Nat.max n m - m))%list = Nat.max n m).
  { rewrite length_app, repeat_length. fold m. lia. }
  rewrite Ht, zip_with_second by lia.
  rewrite drop_ge by lia. rewrite app_nil_r.
  do 2 f_equal. lia.
Qed.

Lemma gpu_lines_length gpus : length (gpu_lines gpus) = Nat.max 1 (length gpus).
Proof.
  unfold gpu_lines. destruct gpus as [|g gpus]; [reflexivity|].
  cbn [imap]. cbn [length]. rewrite length_imap. lia.
Qed.

(** X4. [_update_top_info] loses no line and leaves no stale text: the
    labels show the lines in order, one label each, and every label beyond
    the last line is blank; labels are added when there are more lines than
    labels and never removed.  There are five lines besides those of the
    GPUs, which are numbered from 1, or replaced by one line when no GPU was
    found; so the seven labels that [_create_top_info] makes are enough for
    up to two GPUs. *)
Theorem top_info_shows_every_line (host_name up os_info cpu_info : string)
    (gpus : list string) (py : string) (labels : list string) :
  let lines := top_lines host_name up os_info cpu_info gpus py in
  show_lines lines labels = (lines ++ repeat "" (length labels - length lines))%list /\
  length (show_lines lines labels) = Nat.max (length labels) (length lines) /\
  length lines = (5 + Nat.max 1 (length gpus))%nat /\
  (forall i g, gpus !! i = Some g ->
     lines !! (4 + i)%nat = Some ("GPU" +:+ digits (Z.of_nat i + 1) +:+ ": " +:+ g)) /\
  (gpus = [] -> lines !! 4%nat = Some "GPU: (none detected)") /\
  (length labels = 7%nat ->
     (length (show_lines lines labels) = 7%nat <-> (length gpus <= 2)%nat)).
Proof.
  cbn zeta.
  assert (Hlen : length (top_lines host_name up os_info cpu_info gpus py)
                 = (5 + Nat.max 1 (length gpus))%nat).
  { unfold top_lines. cbn [app length]. rewrite length_app, gpu_lines_length.
    cbn [length]. lia. }
  assert (Hshow : length (show_lines (top_lines host_name up os_info cpu_info gpus py) labels)
                  = Nat.max (length labels)
                      (length (top_lines host_name up os_info cpu_info gpus py))).
  { rewrite show_lines_texts, length_app, repeat_length. lia. }
  split; [apply show_lines_texts|]. split; [exact Hshow|]. split; [exact Hlen|].
  split; [|split].
  - intros i g Hg. unfold top_lines.
    rewrite lookup_app_r by (cbn [length]; lia). cbn [length].
    replace (4 + i - 4)%nat with i by lia.
    rewrite lookup_app_l.
    + unfold gpu_lines. destruct gpus as [|g0 gpus]; [discriminate|].
      set (l := imap _ (g0 :: gpus)).
      assert (Hl : l !! i = Some ("GPU" +:+ digits (Z.of_nat i + 1) +:+ ": " +:+ g)).
      { unfold l. rewrite list_lookup_imap, Hg. reflexivity. }
      destruct l; [destruct i; discriminate | exact Hl].
    + rewrite gpu_lines_length. apply lookup_lt_Some in Hg. lia.
  - intros ->. reflexivity.
  - intros H7. rewrite Hshow, Hlen, H7. lia.
Qed.

(** ** The CPU panel *)

Lemma update_cells_zip colors size cells : forall per,
  let '(r, cells') := update_cells colors size cells per in
  length cells' = length cells /\
  map c_name cells' = map c_name cells /\
  (forall i, per !! i = None -> cells' !! i = cells !! i) /\
  (r = Ok tt ->
   forall i cell p, cells !! i = Some cell -> per !! i = Some p ->
     c_pct <$> cells' !! i = Some (format_0f p +:+ "%")).
Proof.
  induction cells as [|cell cells IH]; intros per.
  - cbn. repeat split; auto. intros _ i cell p H. discriminate H.
  - destruct per as [|p per].
    + cbn. repeat split; auto. intros _ i c p _ H. discriminate H.
    + cbn [update_cells].
      destruct (_draw_bar colors size (c_bar cell) p (color_for_load p colors))
        as [[[]|e] b].
      * specialize (IH per). destruct (update_cells colors size cells per) as [r rest].
        destruct IH as (Hl & Hn & Hrest & Hshown).
        split; [cbn; now rewrite Hl|]. split; [cbn; now rewrite Hn|]. split.
        -- intros [|i] Hi; [discriminate | apply Hrest, Hi].
        -- intros Hr [|i] c q Hc Hq; cbn in *.
           ++ now injection Hq as <-.
           ++ eapply Hshown; eauto.
      * split; [reflexivity|]. split; [reflexivity|]. split.
        -- intros [|i] Hi; [discriminate | reflexivity].
        -- discriminate.
Qed.

(** X5. [_update_cpu] pairs the cells of the panel with the percentages
    of the cores in order, as many as there are of both: the panel keeps
    its cells and their names whatever happens, a cell without a percentage
    keeps what it showed, a percentage without a cell is ignored, and when
    the update returns every cell with a percentage shows it, rounded to an
    integer. *)
Theorem update_cpu_pairs_cells_with_cores (colors : palette) (size : Z)
    (total : result float) (per : result (list float))
    (panel : canvas * list cpu_cell) :
  let '(r, (_, cells')) := _update_cpu colors size total per panel in
  length cells' = length (snd panel) /\
  map c_name cells' = map c_name (snd panel) /\
  (forall ps i, per = Ok ps -> ps !! i = None -> cells' !! i = snd panel !! i) /\
  (r = Ok tt ->
   exists ps, per = Ok ps /\
   forall i cell p, snd panel !! i = Some cell -> ps !! i = Some p ->
     c_pct <$> cells' !! i = Some (format_0f p +:+ "%")).
Proof.
  unfold _update_cpu. destruct panel as [tc cells]. cbn [fst snd].
  destruct total as [t|e]; [|repeat split; auto; discriminate].
  destruct (_draw_bar colors size tc t (color_for_load t colors)) as [[[]|e] c];
    [|repeat split; auto; discriminate].
  destruct per as [ps|e]; [|repeat split; auto; discriminate].
  pose proof (update_cells_zip colors size cells ps) as H.
  destruct (update_cells colors size cells ps) as [r cells'].
  destruct H as (Hl & Hn & Hrest & Hshown).
  split; [exact Hl|]. split; [exact Hn|]. split.
  - intros ps' i [= <-]. apply Hrest.
  - intros Hr. exists ps. split; [reflexivity | apply Hshown, Hr].
Qed.

(** ** Saving the settings and loading them again *)

Lemma drop_escaped_percents_plain s :
  contains "%" s = false -> drop_escaped_percents s = s.
Proof.
  induction s as [|c r IH]; [reflexivity|].
  rewrite contains_percent_String. intros [Hc Hr]%orb_false_elim.
  cbn [drop_escaped_percents]. destruct r as [|c' r']; [reflexivity|].
  rewrite Hc. cbn [andb]. now rewrite (IH Hr).
Qed.

Lemma stray_percent_plain s :
  contains "%" s = false -> stray_percent Outside s = false.
Proof.
  induction s as [|c r IH]; [reflexivity|].
  rewrite contains_percent_String. intros [Hc Hr]%orb_false_elim.
  cbn [stray_percent]. rewrite Hc. apply IH, Hr.
Qed.

Lemma before_set_plain v : contains "%" v = false -> before_set v = Ok v.
Proof.
  intros H. unfold before_set.
  now rewrite (drop_escaped_percents_plain v H), (stray_percent_plain v H).
Qed.

Lemma all_digits_no_percent s : all_digits s = true -> contains "%" s = false.
Proof.
  induction s as [|c r IH]; [reflexivity|].
  cbn [all_digits]. intros [Hc Hr]%andb_prop.
  rewrite contains_percent_String, (IH Hr).
  destruct c as [[] [] [] [] [] [] [] []]; cbn in Hc |- *; congruence.
Qed.

Lemma str_int_no_percent z : contains "%" (str_int z) = false.
Proof.
  unfold str_int. destruct (z <? 0).
  - rewrite app_String, app_empty, contains_percent_String.
    cbn [Ascii.eqb Bool.eqb orb]. apply all_digits_no_percent, digits_all_digits.
  - rewrite app_empty. apply all_digits_no_percent, digits_all_digits.
Qed.

(** *** What [int] reads from the digits that [str] prints *)

Lemma string_of_uint_length d :
  String.length (NilEmpty.string_of_uint d) = Decimal.nb_digits d.
Proof. induction d; cbn; congruence. Qed.

(** A number is at least the power of ten of the digits behind its first
    one. *)
Lemma of_uint_acc_ge d : forall acc,
  Zpos acc * 10 ^ Z.of_nat (Decimal.nb_digits d) <= Zpos (Pos.of_uint_acc d acc).
Proof.
  induction d as [|d IH|d IH|d IH|d IH|d IH|d IH|d IH|d IH|d IH|d IH]; intros acc;
    cbn [Pos.of_uint_acc Decimal.nb_digits]; [lia|..];
    (etransitivity; [|apply IH]);
    rewrite Nat2Z.inj_succ, Z.pow_succ_r by lia;
    (assert (0 < 10 ^ Z.of_nat (Decimal.nb_digits d)) by (apply Z.pow_pos_nonneg; lia));
    nia.
Qed.

Lemma of_uint_ge d :
  Decimal.nzhead d = d -> d <> Decimal.Nil ->
  10 ^ (Z.of_nat (Decimal.nb_digits d) - 1) <= Z.of_N (N.of_uint d).
Proof.
  intros Hn Hd.
  destruct d as [|d|d|d|d|d|d|d|d|d|d]; [congruence| |..];
    [exfalso; cbn in Hn; now apply (DecimalFacts.nzhead_nonzero d d)|..];
    cbn [Decimal.nb_digits N.of_uint Pos.of_uint];
    replace (Z.of_nat (S (Decimal.nb_digits d)) - 1) with (Z.of_nat (Decimal.nb_digits d))
      by lia;
    (assert (0 < 10 ^ Z.of_nat (Decimal.nb_digits d)) by (apply Z.pow_pos_nonneg; lia));
    match goal with
    | |- _ <= Z.of_N (N.pos (Pos.of_uint_acc d ?k)) =>
        pose proof (of_uint_acc_ge d k); cbn [Z.of_N]; nia
    end.
Qed.

Lemma to_uint_normal n : Decimal.unorm (N.to_uint n) = N.to_uint n.
Proof.
  rewrite <- (DecimalN.Unsigned.of_to n) at 2. symmetry. apply DecimalN.Unsigned.to_of.
Qed.

(** The number of digits that [str] prints for a number below [10 ^ k]. *)
Lemma digits_length n k :
  0 <= n < 10 ^ k -> 1 <= k -> Z.of_nat (String.length (digits n)) <= k.
Proof.
  intros Hn Hk. unfold digits, NilZero.string_of_uint.
  set (d := N.to_uint (Z.to_N n)).
  assert (Hd : d = N.to_uint (Z.to_N n)) by reflexivity.
  pose proof (to_uint_normal (Z.to_N n)) as Hnorm. rewrite <- Hd in Hnorm.
  assert (Hv : Z.of_N (N.of_uint d) = n).
  { rewrite Hd, DecimalN.Unsigned.of_to. apply Z2N.id. lia. }
  destruct (Decimal.uint_eq_dec (Decimal.nzhead d) Decimal.Nil) as [Hz|Hnz].
  - apply DecimalFacts.unorm_0 in Hz. rewrite Hnorm in Hz. rewrite Hz. cbn. lia.
  - rewrite (DecimalFacts.unorm_nzhead d Hnz) in Hnorm.
    assert (Hne : d <> Decimal.Nil) by (intros ->; now apply Hnz).
    pose proof (of_uint_ge d Hnorm Hne) as Hge. rewrite Hv in Hge.
    assert (Hlen : String.length (match d with
                                  | Decimal.Nil => "0"
                                  | _ => NilEmpty.string_of_uint d
                                  end) = Decimal.nb_digits d).
    { destruct d; [congruence|..]; apply string_of_uint_length. }
    rewrite Hlen.
    destruct (Z_le_gt_dec (Z.of_nat (Decimal.nb_digits d)) k) as [|Hgt]; [assumption|].
    exfalso. assert (10 ^ k <= 10 ^ (Z.of_nat (Decimal.nb_digits d) - 1))
      by (apply Z.pow_le_mono_r; lia). lia.
Qed.

Lemma lstrip_head p c r : p c = false -> lstrip p (String c r) = String c r.
Proof. intros H. cbn [lstrip]. now rewrite H. Qed.

Lemma digit_head c r :
  is_digit c = true ->
  int_space c = false /\ Ascii.eqb c "_" = false /\ int_sign (String c r) = (false, String c r).
Proof.
  destruct c as [[] [] [] [] [] [] [] []]; cbn; intros H; try discriminate H;
    repeat split.
Qed.

Lemma digit_run_digits s : all_digits s = true -> digit_run s = (s, "").
Proof.
  induction s as [|c r IH]; [reflexivity|].
  cbn [all_digits digit_run]. intros [Hc Hr]%andb_prop.
  now rewrite Hc, (IH Hr).
Qed.

Lemma underscores_between_digits s :
  all_digits s = true -> underscores_between false s = true.
Proof.
  induction s as [|c r IH]; [reflexivity|].
  cbn [all_digits underscores_between]. intros [Hc Hr]%andb_prop.
  destruct (digit_head c r Hc) as (_ & -> & _). now apply IH.
Qed.

Lemma drop_underscores_digits s : all_digits s = true -> drop_underscores s = s.
Proof.
  induction s as [|c r IH]; [reflexivity|].
  cbn [all_digits drop_underscores]. intros [Hc Hr]%andb_prop.
  destruct (digit_head c r Hc) as (_ & -> & _). now rewrite (IH Hr).
Qed.

(** [int] of a sign and the digits of a number that has no more digits
    than [int] accepts. *)
Lemma py_int_signed_digits (neg : bool) n :
  0 <= n -> Z.of_nat (String.length (digits n)) <= int_max_str_digits ->
  py_int ((if neg then "-" else "") +:+ digits n) = Ok (if neg then - n else n).
Proof.
  intros Hn Hlen.
  destruct (digits_shape n) as (c & r & Hd & Hc & Hr).
  destruct (digit_head c r Hc) as (Hsp & Hu & Hsign).
  assert (Hall : all_digits (digits n) = true) by apply digits_all_digits.
  assert (Hhead : int_sign (lstrip int_space ((if neg then "-" else "") +:+ digits n))
                  = (neg, digits n)).
  { destruct neg.
    - rewrite app_String, app_empty, lstrip_head by reflexivity. reflexivity.
    - rewrite app_empty, Hd, lstrip_head by assumption. exact Hsign. }
  unfold py_int. rewrite Hhead, (digit_run_digits _ Hall).
  assert (underscores_between true (digits n) = true) as ->.
  { rewrite Hd. cbn [underscores_between]. rewrite Hu.
    now apply underscores_between_digits. }
  cbn [negb]. rewrite (drop_underscores_digits _ Hall).
  destruct (int_max_str_digits <? Z.of_nat (String.length (digits n))) eqn:E;
    [apply Z.ltb_lt in E; lia|].
  cbn [lstrip]. rewrite uint_of_string_digits, DecimalN.Unsigned.of_to, Z2N.id by lia.
  reflexivity.
Qed.

(** [int(str(z)) == z], for the numbers that [str] converts. *)
Lemma py_int_str_int z :
  Z.abs z < 10 ^ int_max_str_digits -> py_int (str_int z) = Ok z.
Proof.
  intros Hz. unfold str_int.
  assert (Hlen : Z.of_nat (String.length (digits (Z.abs z))) <= int_max_str_digits).
  { apply digits_length; [lia | unfold int_max_str_digits; lia]. }
  destruct (z <? 0) eqn:E.
  - apply Z.ltb_lt in E.
    rewrite (py_int_signed_digits true (Z.abs z)) by (assumption || lia). f_equal. lia.
  - apply Z.ltb_ge in E.
    rewrite (py_int_signed_digits false (Z.abs z)) by (assumption || lia). f_equal. lia.
Qed.

Lemma py_str_in_range z :
  Z.abs z < 10 ^ int_max_str_digits -> py_str z = Ok (str_int z).
Proof.
  intros H. unfold py_str.
  destruct (10 ^ int_max_str_digits <=? Z.abs z) eqn:E; [|reflexivity].
  apply Z.leb_le in E. lia.
Qed.

Lemma save_settings_file fs interval mode :
  Z.abs fs < 10 ^ int_max_str_digits -> Z.abs interval < 10 ^ int_max_str_digits ->
  contains "%" mode = false ->
  save_settings fs interval mode =
    Ok (Parsed ∅ {[ "ui" := {[ "font_size" := str_int fs;
                               "update_interval_ms" := str_int interval;
                               "theme_mode" := mode ]} ]}).
Proof.
  intros Hf Hi Hm. unfold save_settings.
  rewrite (py_str_in_range fs Hf), (py_str_in_range interval Hi). cbn [mbind result_bind rbind].
  rewrite !before_set_plain by (apply str_int_no_percent || assumption).
  reflexivity.
Qed.

(** X6. What [save_settings] stores, [load_settings] gives back: the font
    size, the interval and the theme mode of the next start are those that
    [_save_settings_now] (and [_on_close], by the same call) saved.  This holds for every int that [str] converts (negative
    ones too: [int(str(n)) == n]) and for every theme mode that the text of
    a configuration file carries unchanged. *)
Theorem saved_settings_load_back (fs interval : Z) (mode : string) :
  Z.abs fs < 10 ^ int_max_str_digits ->
  Z.abs interval < 10 ^ int_max_str_digits ->
  ini_plain mode ->
  exists file, save_settings fs interval mode = Ok file /\
               load_settings file = Ok (fs, interval, mode) /\
               forall s, font_size s = fs -> update_interval s = interval ->
                         theme_mode s = mode ->
                         _save_settings_now s = (Ok file, set_status "Settings saved ✓" s).
Proof.
  intros Hf Hi (Hm & _ & _).
  eexists. split; [apply save_settings_file; assumption|].
  split; [|intros s <- <- <-; unfold _save_settings_now; run_M;
           now rewrite save_settings_file by assumption].
  set (ui := {[ "font_size" := str_int fs; "update_interval_ms" := str_int interval;
                "theme_mode" := mode ]} : gmap string string).
  assert (H1 : ui !! "font_size" = Some (str_int fs)) by apply lookup_insert_eq.
  assert (H2 : ui !! "update_interval_ms" = Some (str_int interval)).
  { unfold ui. rewrite lookup_insert_ne by discriminate. apply lookup_insert_eq. }
  assert (H3 : ui !! "theme_mode" = Some mode).
  { unfold ui. rewrite !lookup_insert_ne by discriminate. apply lookup_singleton_eq. }
  assert (Hui : forall key,
            ui_option (Config ∅ {[ "ui" := ui ]}) key = ui !! key).
  { intros key. rewrite (ui_option_inherits ∅ _ ui) by apply lookup_singleton_eq.
    now destruct (ui !! key). }
  apply load_settings_plain.
  - unfold plain_int_option. rewrite Hui, H1.
    split; [apply str_int_no_percent | now apply py_int_str_int].
  - unfold plain_int_option. rewrite Hui, H2.
    split; [apply str_int_no_percent | now apply py_int_str_int].
  - unfold plain_option. rewrite Hui, H3. now split.
Qed.

Lemma saved_settings_load_back_witness :
  exists file, save_settings (-3) 750 "light" = Ok file /\
               load_settings file = Ok (-3, 750, "light") /\
               forall s, font_size s = -3 -> update_interval s = 750 ->
                         theme_mode s = "light" ->
                         _save_settings_now s = (Ok file, set_status "Settings saved ✓" s).
Proof.
  apply (saved_settings_load_back (-3) 750 "light").
  - apply Z.ltb_lt. vm_compute. reflexivity.
  - apply Z.ltb_lt. vm_compute. reflexivity.
  - vm_compute. repeat split.
Defined.

(** ** Rounding from below, and rounding integers *)

Lemma round_half_even_ge num den K :
  0 < den -> K * den <= num -> K <= round_half_even num den.
Proof.
  intros Hden Hle. unfold round_half_even.
  assert (Hq : K <= num / den) by (apply Z.div_le_lower_bound; lia).
  destruct (2 * (num mod den) <? den); [lia|].
  destruct (den <? 2 * (num mod den)); [lia|].
  destruct (Z.even (num / den)); lia.
Qed.

(** Rounding cannot step below a bound that a float holds: a quotient of
    at least [b * 2 ^ t], with [b] of at most 53 bits, rounds to a number
    that is at least [b * 2 ^ t]. *)
Lemma round_pos_lower p q b t :
  0 < p -> 0 < q -> 0 <= t -> 0 < b <= 2 ^ 52 ->
  b * 2 ^ t * q <= p ->
  match round_pos p q with
  | Fin r => (inject_Z (b * 2 ^ t) <= r)%Q
  | Inf s => s = false
  end.
Proof.
  intros Hp Hq Ht Hb Hle. unfold round_pos.
  pose proof (ilog2_frac_spec p q Hp Hq) as [Hlo _]. cbn zeta in Hlo.
  set (L := ilog2_frac p q) in *.
  set (e := Z.max (L - 52) emin).
  assert (H2t : 0 < 2 ^ t) by (apply Z.pow_pos_nonneg; lia).
  destruct (2 ^ 1024 * pow2 (- e) <=? _); [reflexivity|].
  unfold Qle. cbn [Qnum Qden inject_Z].
  pose proof (pow2_pos (- e)) as Hpe. rewrite Z2Pos.id by assumption.
  destruct (Z.le_gt_cases e 0) as [Hneg | Hpos].
  - rewrite (pow2_nonpos e) by lia. rewrite (pow2_nonneg (- e)) in * by lia.
    set (X := 2 ^ (- e)) in *.
    assert (Hm : b * 2 ^ t * X <= round_half_even (p * X) (q * 1))
      by (apply round_half_even_ge; nia).
    nia.
  - rewrite (pow2_nonneg e) by lia. rewrite (pow2_nonpos (- e)) by lia.
    set (X := 2 ^ e).
    assert (HX : 0 < X) by (apply Z.pow_pos_nonneg; lia).
    destruct (Z.le_gt_cases e t) as [Het | Het].
    + assert (Hsplit : 2 ^ t = 2 ^ (t - e) * X).
      { unfold X. rewrite <- Z.pow_add_r by lia. f_equal. lia. }
      assert (HY : 0 < 2 ^ (t - e)) by (apply Z.pow_pos_nonneg; lia).
      assert (Hm : b * 2 ^ (t - e) <= round_half_even (p * 1) (q * X)).
      { apply round_half_even_ge; [nia|]. rewrite Hsplit in Hle. nia. }
      rewrite Hsplit. nia.
    + assert (HeL : e = L - 52) by (unfold e, emin in *; lia).
      rewrite (pow2_nonneg L), (pow2_nonpos (- L)) in Hlo by lia.
      assert (HL : 2 ^ L = 2 ^ 52 * X).
      { unfold X. rewrite <- Z.pow_add_r by lia. f_equal. lia. }
      assert (Hm : 2 ^ 52 <= round_half_even (p * 1) (q * X)).
      { apply round_half_even_ge; [nia|]. rewrite HL in Hlo. nia. }
      assert (Hte : 2 ^ t <= X) by (apply Z.pow_le_mono_r; lia).
      nia.
Qed.

Lemma RN_lower (x : Q) b t :
  0 <= t -> 0 < b <= 2 ^ 52 -> (inject_Z (b * 2 ^ t) <= x)%Q ->
  match RN x with
  | Fin r => (inject_Z (b * 2 ^ t) <= r)%Q
  | Inf s => s = false
  end.
Proof.
  intros Ht Hb Hle. destruct x as [n d]. unfold RN. cbn [Qnum Qden].
  unfold Qle in Hle. cbn [Qnum Qden inject_Z] in Hle.
  assert (0 < 2 ^ t) by (apply Z.pow_pos_nonneg; lia).
  destruct n as [|n|n]; [nia | | nia].
  apply round_pos_lower; lia.
Qed.


(** [int(x)] of a float between two ints lies between them. *)
Lemma py_int_of_float_between r lo hi :
  0 <= lo -> (inject_Z lo <= r)%Q -> (r <= inject_Z hi)%Q ->
  exists v, py_int_of_float (Fin r) = Ok v /\ lo <= v <= hi.
Proof.
  intros H0 Hlo Hhi. destruct r as [n d]. unfold Qle in *. cbn [Qnum Qden inject_Z] in *.
  eexists. split; [reflexivity|]. cbn [Qnum Qden].
  rewrite Z.quot_div_nonneg by lia. split.
  - apply Z.div_le_lower_bound; lia.
  - apply Z.div_le_upper_bound; lia.
Qed.


(** ** The interval menu *)

Lemma set_interval_value sec :
  menu_range sec ->
  exists v t, py_int_of_num (num_mul_const sec 1000) = Ok v /\
              num_format_1f sec = Ok t /\
              250 <= v <= 10000 /\
              (forall z, sec = NInt z -> v = 1000 * z).
Proof.
  destruct sec as [z | [q | sg]]; cbn [menu_range]; [intros Hz | intros [Hlo Hhi] | tauto].
  - destruct (float_of_int_exact z) as (r & Hr & _); [lia|].
    exists (z * 1000), (format_1f (Fin r)). cbn [py_int_of_num num_mul_const num_format_1f].
    rewrite Hr. repeat split; try lia. intros z' [= <-]. lia.
  - cbn [py_int_of_num num_mul_const num_format_1f]. unfold float_mul_const.
    assert (H250 : (inject_Z (250 * 2 ^ 0) <= q * inject_Z 1000)%Q).
    { destruct q as [n d]. unfold Qle in *. cbn [Qnum Qden inject_Z Qmult] in *. lia. }
    assert (H10000 : (q * inject_Z 1000 <= inject_Z (10000 * 2 ^ 0))%Q).
    { destruct q as [n d]. unfold Qle in *. cbn [Qnum Qden inject_Z Qmult] in *. lia. }
    destruct (RN_bounded (q * inject_Z 1000) 10000 0) as (r & Hr & _ & Hr1);
      try lia; try assumption.
    { eapply Qle_trans; [|exact H250]. unfold Qle; cbn; lia. }
    pose proof (RN_lower (q * inject_Z 1000) 250 0 ltac:(lia) ltac:(lia) H250) as Hr0.
    rewrite Hr in Hr0 |- *.
    destruct (py_int_of_float_between r 250 10000) as (v & Hv & Hrange);
      [lia | exact Hr0 | exact Hr1 |].
    exists v, (format_1f (Fin q)). repeat split; try assumption; try lia.
    intros z [=].
Qed.

(** X7. [_set_interval] with a number of seconds from 0.25 to 10 (an int
    or a float: the menu offers 0.5, 1, 2 and 5) sets an interval within
    [250 ms, 10000 ms], the range of the two shortcuts, without failing; an
    int number of seconds gives exactly that many thousands.  So the menu
    and the shortcuts, used in any order, never take the interval out of
    that range. *)
Theorem set_interval_in_range (sec : num) (s : SysMon) (rs : list request) :
  menu_range sec ->
  exists s' s'',
    _set_interval sec s = (Ok tt, s') /\
    250 <= update_interval s' <= 10000 /\
    (forall z, sec = NInt z -> update_interval s' = 1000 * z) /\
    handle_all rs s' = (Ok tt, s'') /\
    250 <= update_interval s'' <= 10000.
Proof.
  intros Hsec. destruct (set_interval_value sec Hsec) as (v & t & Hv & Ht & Hr & Hz).
  set (s' := set_status ("Interval " +:+ t +:+ "s (saved on exit)") (set_update_interval v s)).
  destruct (handle_all_in_range rs s') as (s'' & Hs'' & Hr''); [exact Hr|].
  exists s', s''. split; [|auto].
  unfold _set_interval. run_M. rewrite Hv, Ht. reflexivity.
Qed.

Lemma set_interval_in_range_witness :
  exists s' s'',
    _set_interval (NFloat (Fin (1 # 2))) sysmon0 = (Ok tt, s') /\
    250 <= update_interval s' <= 10000 /\
    (forall z, NFloat (Fin (1 # 2)) = NInt z -> update_interval s' = 1000 * z) /\
    handle_all [Decrease; Increase] s' = (Ok tt, s'') /\
    250 <= update_interval s'' <= 10000.
Proof.
  apply (set_interval_in_range (NFloat (Fin (1 # 2))) sysmon0 [Decrease; Increase]).
  split; unfold Qle; cbn; lia.
Defined.

(** Every entry of the menu is in that range, and gives the interval that
    its label names. *)
Example menu_intervals_set :
  Forall menu_range menu_intervals /\
  map (fun sec => update_interval (snd (_set_interval sec sysmon0))) menu_intervals
  = [500; 1000; 2000; 5000] /\
  map (fun sec => status (snd (_set_interval sec sysmon0))) menu_intervals
  = ["Interval 0.5s (saved on exit)"; "Interval 1.0s (saved on exit)";
     "Interval 2.0s (saved on exit)"; "Interval 5.0s (saved on exit)"].
Proof.
  split; [|vm_compute; split; reflexivity].
  repeat constructor; unfold Qle; cbn; lia.
Qed.

(** ** Bars *)

Lemma fill_width_le w p B :
  0 < w < 2 ^ 45 -> 0 <= B <= w -> (0 <= p)%Q -> (p * inject_Z w <= inject_Z (100 * B))%Q ->
  exists x, fill_width w (Fin p) = Ok x /\ 0 <= x <= B.
Proof.
  intros Hw HB Hp0 Hp1.
  destruct (float_of_int_exact w) as (wq & Hwq & Hv); [lia|].
  unfold fill_width, int_mul_float. rewrite Hwq. cbn [mbind result_bind rbind].
  destruct (RN_bounded (wq * p) (100 * B) 0) as (r1 & Hr1 & Hr10 & Hr11); try lia.
  - apply Qmult_le_0_compat; [rewrite Hv; unfold Qle; cbn; lia | assumption].
  - rewrite Z.pow_0_r, Z.mul_1_r, Hv, Qmult_comm. exact Hp1.
  - rewrite Hr1. cbn [float_div_const].
    destruct (RN_bounded (r1 / inject_Z 100) B 0) as (r2 & Hr2 & Hr20 & Hr21); try lia.
    + destruct r1 as [n d]. unfold Qle in *. cbn in *. lia.
    + destruct r1 as [n d]. unfold Qle in *. cbn in *. lia.
    + rewrite Hr2. rewrite Z.pow_0_r, Z.mul_1_r in Hr21.
      apply py_int_of_float_between; [lia | assumption | assumption].
Qed.




(** ** What a tick can raise *)

Lemma only_Exception_bind {A B} (r : result A) (k : A -> result B) :
  only_Exception r -> (forall a, only_Exception (k a)) -> only_Exception (r ≫= k).
Proof.
  intros Hr Hk e. destruct r as [a|e']; cbn.
  - apply Hk.
  - intros [= <-]. now apply Hr.
Qed.

Lemma only_Exception_Ok {A} (a : A) : only_Exception (Ok a).
Proof. intros e. discriminate. Qed.

Lemma int_truediv_only_Exception a b : only_Exception (int_truediv a b).
Proof.
  intros e. unfold int_truediv. destruct (b =? 0); [now intros [= <-]|].
  destruct (RN _); [discriminate | now intros [= <-]].
Qed.

Lemma float_of_int_only_Exception z : only_Exception (float_of_int z).
Proof.
  intros e. unfold float_of_int. destruct (RN _); [discriminate | now intros [= <-]].
Qed.

Lemma num_format_1f_only_Exception n : only_Exception (num_format_1f n).
Proof.
  destruct n; cbn [num_format_1f]; [|apply only_Exception_Ok].
  apply only_Exception_bind; [apply float_of_int_only_Exception|].
  intros; apply only_Exception_Ok.
Qed.

Lemma num_div_const_only_Exception n k : only_Exception (num_div_const n k).
Proof.
  destruct n; cbn [num_div_const]; [|apply only_Exception_Ok].
  apply only_Exception_bind; [apply int_truediv_only_Exception|].
  intros; apply only_Exception_Ok.
Qed.

Lemma bytes2human_loop_only_Exception units : forall n,
  only_Exception (bytes2human_loop units n).
Proof.
  induction units as [|u units IH]; intros n; cbn [bytes2human_loop].
  - apply only_Exception_bind; [apply num_format_1f_only_Exception|].
    intros; apply only_Exception_Ok.
  - destruct (num_lt_int n 1024).
    + apply only_Exception_bind; [apply num_format_1f_only_Exception|].
      intros; apply only_Exception_Ok.
    + apply only_Exception_bind; [apply num_div_const_only_Exception | apply IH].
Qed.

Lemma bytes2human_only_Exception n : only_Exception (bytes2human n).
Proof. apply bytes2human_loop_only_Exception. Qed.

Lemma usage_text_only_Exception tag used total pct :
  only_Exception (usage_text tag used total pct).
Proof.
  unfold usage_text.
  apply only_Exception_bind; [apply bytes2human_only_Exception | intros u].
  apply only_Exception_bind; [apply bytes2human_only_Exception | intros t].
  apply only_Exception_Ok.
Qed.

Lemma disk_pct_only_Exception d : only_Exception (disk_pct d).
Proof.
  unfold disk_pct. destruct (d_total d =? 0); [apply only_Exception_Ok|].
  apply only_Exception_bind; [apply int_truediv_only_Exception|].
  intros; apply only_Exception_Ok.
Qed.

Lemma py_float_only_Exception s : only_Exception (py_float s).
Proof.
  intros e. unfold py_float.
  destruct (String.eqb s "inf"); [discriminate|].
  destruct (String.eqb s "-inf"); [discriminate|].
  destruct (strip_minus s) as [neg body].
  destruct (split_dot body) as [ip [fp|]].
  - destruct (decimal_value ip fp); [discriminate | now intros [= <-]].
  - destruct (NilZero.uint_of_string ip); [discriminate | now intros [= <-]].
Qed.

Lemma format_attr_only_Exception x : only_Exception (format_attr x).
Proof. destruct x; intros e; [discriminate | now intros [= <-]]. Qed.

Lemma memory_field_only_Exception field get m :
  only_Exception (memory_field field get m).
Proof. destruct m; intros e; [discriminate | now intros [= <-]]. Qed.

Lemma build_row_only_Exception clock p :
  only_Exception (name p) -> only_Exception (build_row clock p).
Proof.
  intros Hn. unfold build_row.
  apply only_Exception_bind.
  - destruct (cmdline (info p)) as [[|a l]|]; try apply only_Exception_Ok;
      (apply only_Exception_bind; [exact Hn | intros; apply only_Exception_Ok]).
  - intros parts.
    apply only_Exception_bind; [apply format_attr_only_Exception | intros cpu].
    apply only_Exception_bind; [apply format_attr_only_Exception | intros mem].
    apply only_Exception_bind; [apply memory_field_only_Exception | intros v].
    apply only_Exception_bind; [apply bytes2human_only_Exception | intros virt].
    apply only_Exception_bind; [apply memory_field_only_Exception | intros r].
    apply only_Exception_bind; [apply bytes2human_only_Exception | intros res].
    apply only_Exception_Ok.
Qed.

Lemma collect_rows_only_Exception clock procs :
  Forall (fun p => only_Exception (name p)) procs ->
  only_Exception (collect_rows clock procs).
Proof.
  induction 1 as [|p procs Hp _ IH]; cbn [collect_rows]; [apply only_Exception_Ok|].
  pose proof (build_row_only_Exception clock p Hp) as Hb.
  destruct (build_row clock p) as [r|e].
  - apply only_Exception_bind; [exact IH | intros; apply only_Exception_Ok].
  - destruct (is_gone_or_denied (exn_cls e)); [exact IH|].
    intros e' [= <-]. now apply Hb.
Qed.

Lemma keyed_only_Exception (rows : list row) : only_Exception (keyed row_cpu rows).
Proof.
  induction rows as [|r rows IH]; cbn [keyed]; [apply only_Exception_Ok|].
  apply only_Exception_bind; [apply py_float_only_Exception | intros k].
  apply only_Exception_bind; [exact IH | intros; apply only_Exception_Ok].
Qed.

Lemma snapshot_processes_only_Exception clock procs :
  Forall (fun p => only_Exception (name p)) procs ->
  only_Exception (snapshot_processes clock procs).
Proof.
  intros H. unfold snapshot_processes.
  apply only_Exception_bind; [apply collect_rows_only_Exception, H | intros rows].
  apply only_Exception_bind; [|intros; apply only_Exception_Ok].
  unfold sort_key_reverse.
  apply only_Exception_bind; [apply keyed_only_Exception | intros; apply only_Exception_Ok].
Qed.

Lemma method_only_Exception_bind {A B} (m : M A) (k : A -> M B) :
  method_only_Exception m -> (forall a, method_only_Exception (k a)) ->
  method_only_Exception (m ≫= k).
Proof.
  intros Hm Hk s e s'. unfold mbind, M_bind.
  destruct (m s) as [[a|e1] s1] eqn:E.
  - apply Hk.
  - intros [= <- _]. eapply Hm, E.
Qed.

Lemma method_only_Exception_lift {A} (r : result A) :
  only_Exception r -> method_only_Exception (lift r).
Proof. intros H s e s' [= -> _]. now apply H. Qed.

Lemma method_only_Exception_modify f : method_only_Exception (modify f).
Proof. intros s e s'. discriminate. Qed.

Lemma method_only_Exception_get : method_only_Exception get.
Proof. intros s e s'. discriminate. Qed.

Lemma method_only_Exception_ret {A} (a : A) : method_only_Exception (mret a : M A).
Proof. intros s e s'. discriminate. Qed.

Lemma py_int_of_float_only_Exception x : only_Exception (py_int_of_float x).
Proof. destruct x; intros e; [discriminate | now intros [= <-]]. Qed.

Lemma fill_width_only_Exception w pct : only_Exception (fill_width w pct).
Proof.
  unfold fill_width, int_mul_float.
  apply only_Exception_bind; [|intros; apply py_int_of_float_only_Exception].
  apply only_Exception_bind; [apply float_of_int_only_Exception|].
  intros; apply only_Exception_Ok.
Qed.

Lemma draw_bar_only_Exception colors size c pct color :
  only_Exception (fst (_draw_bar colors size c pct color)).
Proof.
  unfold _draw_bar. pose proof (fill_width_only_Exception
    (if winfo_width c =? 0 then 100 else winfo_width c) pct) as H.
  destruct (fill_width _ pct) as [x|e]; cbn [fst]; [apply only_Exception_Ok|].
  intros e' [= <-]. now apply (H e).
Qed.

Lemma draw_bars_only_Exception colors size mem_pct swap_pct pct cs :
  only_Exception (fst (draw_bars colors size mem_pct swap_pct pct cs)).
Proof.
  unfold draw_bars.
  pose proof (draw_bar_only_Exception colors size (mem_canvas cs) mem_pct
                (color_for_load mem_pct colors)) as H1.
  destruct (_draw_bar colors size (mem_canvas cs) _ _) as [[[]|e1] c1]; [|exact H1].
  pose proof (draw_bar_only_Exception colors size (swap_canvas cs) swap_pct
                (swap colors)) as H2.
  destruct (_draw_bar colors size (swap_canvas cs) _ _) as [[[]|e2] c2]; [|exact H2].
  pose proof (draw_bar_only_Exception colors size (disk_canvas cs) pct (disk colors)) as H3.
  destruct (_draw_bar colors size (disk_canvas cs) _ _) as [r3 c3]. exact H3.
Qed.

Lemma draw_usage_only_Exception mem_pct swap_pct pct :
  method_only_Exception (draw_usage mem_pct swap_pct pct).
Proof.
  intros s e s'. unfold draw_usage.
  pose proof (draw_bars_only_Exception (colors s) (font_size s) mem_pct swap_pct pct
                (canvases s)) as H.
  destruct (draw_bars _ _ _ _ _ _) as [r cs]. intros [= -> _]. now apply H.
Qed.

Lemma timedelta_seconds_only_Exception n : only_Exception (timedelta_seconds n).
Proof.
  intros e. unfold timedelta_seconds. cbn zeta.
  destruct (_ || _); [now intros [= <-]|]. destruct (_ || _); [now intros [= <-]|].
  discriminate.
Qed.

Lemma format_uptime_only_Exception now boot : only_Exception (format_uptime now boot).
Proof.
  unfold format_uptime.
  apply only_Exception_bind; [apply py_int_of_float_only_Exception | intros n].
  apply only_Exception_bind; [apply timedelta_seconds_only_Exception | intros delta].
  apply only_Exception_Ok.
Qed.

Ltac only_Exception :=
  repeat first
    [ apply method_only_Exception_bind; [|intros ?]
    | apply method_only_Exception_modify
    | apply method_only_Exception_get
    | apply method_only_Exception_ret
    | apply draw_usage_only_Exception
    | apply method_only_Exception_lift
    | apply int_truediv_only_Exception
    | apply usage_text_only_Exception
    | apply disk_pct_only_Exception
    | apply format_uptime_only_Exception
    | assumption ].

Lemma interval_text_only_Exception : method_only_Exception interval_text.
Proof. unfold interval_text. only_Exception. Qed.

Lemma update_body_only_Exception env : calm_tick env -> raises_only_Exception env.
Proof.
  intros (Hc & Ht & Hv & Hs & Hd & Hp & Hh & Hb & Hn).
  change (method_only_Exception (update_body env)). unfold update_body.
  apply method_only_Exception_bind; [exact Hc | intros _].
  apply method_only_Exception_bind; [unfold _update_mem_swap_disk; only_Exception | intros _].
  apply method_only_Exception_bind; [|intros _; exact Ht].
  unfold _update_procs. pose proof interval_text_only_Exception.
  pose proof (snapshot_processes_only_Exception (e_clock env) (e_procs env) Hp).
  only_Exception.
Qed.

Lemma quiet_env_calm : calm_tick quiet_env.
Proof.
  repeat split; try apply method_only_Exception_ret; try apply only_Exception_Ok.
  constructor.
Qed.

Lemma failing_env_calm : calm_tick failing_env.
Proof.
  repeat split; try apply method_only_Exception_ret; try apply only_Exception_Ok.
  - apply method_only_Exception_lift. intros e [= <-]. reflexivity.
  - constructor.
Qed.

Lemma nameless_env_calm : calm_tick nameless_env.
Proof.
  repeat split; try apply method_only_Exception_ret; try apply only_Exception_Ok.
  - constructor.
  - intros e [= <-]. reflexivity.
Qed.

Lemma denied_env_calm : calm_tick denied_env.
Proof.
  repeat split; try apply method_only_Exception_ret; try apply only_Exception_Ok.
  repeat (constructor; [apply only_Exception_Ok|]). constructor.
Qed.

(** X9. Nothing inside a tick can stop the loop.  What the body of a
    tick raises by itself is an [Exception]: an [OverflowError] of a
    number too large for a float or of an uptime too long for a
    [timedelta], a [ValueError] of a sort key, the [TypeError] or
    [AttributeError] of an attribute that psutil left [None].  So if the
    queries to the operating system (memory, swap, disk, the names of the
    processes, the host name, the boot time, the CPU load) and the two
    display updates raise nothing but [Exception]s, then so does the whole
    body, bars and status line included; each tick ends by scheduling the
    next one, and every tick runs. *)
Theorem calm_ticks_never_stop (envs : list tick_env) (s : SysMon) :
  Forall calm_tick envs -> timers s <> [] ->
  Forall raises_only_Exception envs /\
  fst (run_ticks envs s) = length envs /\
  (envs <> [] -> timers (snd (run_ticks envs s)) <> []).
Proof.
  intros Hcalm Hs.
  assert (Hsafe : Forall raises_only_Exception envs).
  { eapply Forall_impl; [exact Hcalm|]. apply update_body_only_Exception. }
  split; [exact Hsafe|]. split; [now apply run_ticks_all|].
  clear Hcalm. revert s Hs. induction Hsafe as [|env envs Henv Hrest IH]; intros s Hs Hne.
  - congruence.
  - cbn [run_ticks]. destruct (timers s) as [|d pending]; [congruence|].
    destruct (update_all_schedules env (set_timers pending s) Henv) as (s' & Hs' & Ht).
    rewrite Hs'. specialize (IH s' Ht).
    destruct envs as [|env' envs'].
    + cbn. exact Ht.
    + destruct (run_ticks (env' :: envs') s') as [n s'']. cbn in *. now apply IH.
Qed.

Lemma calm_ticks_never_stop_witness :
  Forall raises_only_Exception [quiet_env; failing_env; nameless_env; denied_env] /\
  fst (run_ticks [quiet_env; failing_env; nameless_env; denied_env]
         (set_timers [1000] sysmon0))
  = length [quiet_env; failing_env; nameless_env; denied_env] /\
  ([quiet_env; failing_env; nameless_env; denied_env] <> [] ->
   timers (snd (run_ticks [quiet_env; failing_env; nameless_env; denied_env]
                  (set_timers [1000] sysmon0))) <> []).
Proof.
  apply (calm_ticks_never_stop [quiet_env; failing_env; nameless_env; denied_env]
           (set_timers [1000] sysmon0)).
  - constructor; [exact quiet_env_calm|]. constructor; [exact failing_env_calm|].
    constructor; [exact nameless_env_calm|]. constructor; [exact denied_env_calm|].
    constructor.
  - discriminate.
Defined.

(** What these four ticks print. *)
Example calm_ticks_errors :
  stderr (snd (run_ticks [quiet_env; failing_env; nameless_env; denied_env]
                 (set_timers [1000] sysmon0)))
  = ["Update error: cannot read /proc/stat"; "Update error: gethostname failed";
     "Update error: 'NoneType' object has no attribute 'vms'"].
Proof. vm_compute. reflexivity. Qed.

(** ** One pending tick *)

Lemma keeps_schedule_bind {A B} (m : M A) (k : A -> M B) :
  keeps_schedule m -> (forall a, keeps_schedule (k a)) -> keeps_schedule (m ≫= k).
Proof.
  intros Hm Hk s. unfold mbind, M_bind. specialize (Hm s).
  destruct (m s) as [[a|e] s1]; cbn [snd] in *; [|exact Hm].
  destruct (Hk a s1) as [H1 H2]. destruct Hm as [H3 H4]. split; congruence.
Qed.

Lemma keeps_schedule_lift {A} (r : result A) : keeps_schedule (lift r).
Proof. intros s. split; reflexivity. Qed.

Lemma keeps_schedule_get : keeps_schedule get.
Proof. intros s. split; reflexivity. Qed.

Lemma keeps_schedule_ret {A} (a : A) : keeps_schedule (mret a : M A).
Proof. intros s. split; reflexivity. Qed.

Lemma keeps_schedule_modify (f : SysMon -> SysMon) :
  (forall s, timers (f s) = timers s /\ update_interval (f s) = update_interval s) ->
  keeps_schedule (modify f).
Proof. intros H s. apply H. Qed.

Lemma draw_usage_keeps_schedule mem_pct swap_pct pct :
  keeps_schedule (draw_usage mem_pct swap_pct pct).
Proof.
  intros s. unfold draw_usage.
  destruct (draw_bars _ _ _ _ _ _) as [r cs]. split; reflexivity.
Qed.

Create HintDb schedule.
#[local] Hint Resolve keeps_schedule_lift keeps_schedule_get keeps_schedule_ret
  draw_usage_keeps_schedule : schedule.

Ltac keeps_schedule :=
  repeat first
    [ apply keeps_schedule_bind; [|intros ?]
    | apply keeps_schedule_modify; intros ?; split; reflexivity
    | solve [auto with schedule] ].

Lemma interval_text_keeps_schedule : keeps_schedule interval_text.
Proof. unfold interval_text. keeps_schedule. Qed.

Lemma update_mem_swap_disk_keeps_schedule vm sw du :
  keeps_schedule (_update_mem_swap_disk vm sw du).
Proof. unfold _update_mem_swap_disk. keeps_schedule. Qed.

Lemma update_procs_keeps_schedule clock h procs :
  keeps_schedule (_update_procs clock h procs).
Proof.
  unfold _update_procs. pose proof interval_text_keeps_schedule. keeps_schedule.
Qed.

Lemma update_body_keeps_schedule env :
  keeps_schedule (e_update_cpu env) -> keeps_schedule (e_update_top_info env) ->
  keeps_schedule (update_body env).
Proof.
  intros Hc Ht. unfold update_body.
  pose proof (update_mem_swap_disk_keeps_schedule (e_vm env) (e_swap env) (e_disk env)).
  pose proof (update_procs_keeps_schedule (e_clock env) (e_host env) (e_procs env)).
  repeat (apply keeps_schedule_bind; [assumption | intros ?]). assumption.
Qed.

Lemma update_all_one_timer env s :
  steady_tick env ->
  exists s', _update_all env s = (Ok tt, s') /\
             timers s' = (timers s ++ [update_interval s])%list /\
             update_interval s' = update_interval s.
Proof.
  intros (Hsafe & Hc & Ht).
  destruct (update_body_keeps_schedule env Hc Ht s) as [Htm Hiv].
  destruct (update_body env s) as [[[]|e] s1] eqn:Hb; cbn [snd] in *.
  - eexists. split; [apply update_all_quiet, Hb|]. cbn. now rewrite Htm, Hiv.
  - eexists. split; [apply (update_all_reports _ _ _ _ Hb), (Hsafe _ _ _ Hb)|].
    cbn. now rewrite Htm, Hiv.
Qed.

(** X10. Ticks do not pile up and do not run dry: from a state with one
    tick pending, and as long as the body of a tick lets nothing but an
    [Exception] out, every tick runs and leaves exactly one tick pending,
    whether its body failed or not; the delay of that tick is the update
    interval, which no tick changes. *)
Theorem one_tick_pending (envs : list tick_env) (s : SysMon) (delay : Z) :
  Forall steady_tick envs -> timers s = [delay] ->
  let '(n, s') := run_ticks envs s in
  n = length envs /\
  update_interval s' = update_interval s /\
  timers s' = match envs with [] => [delay] | _ => [update_interval s] end.
Proof.
  revert s delay. induction envs as [|env envs IH]; intros s delay Hall Hs.
  - cbn. auto.
  - inversion Hall as [|? ? Henv Hrest]; subst.
    cbn [run_ticks]. rewrite Hs.
    destruct (update_all_one_timer env (set_timers [] s) Henv) as (s1 & H1 & Ht1 & Hi1).
    rewrite H1. cbn in Ht1, Hi1.
    specialize (IH s1 (update_interval s) Hrest Ht1).
    destruct (run_ticks envs s1) as [n s'].
    destruct IH as (Hn & Hi & Ht). split; [now rewrite Hn|]. split; [congruence|].
    rewrite Ht. destruct envs; [reflexivity | now rewrite Hi1].
Qed.

Lemma quiet_env_steady : steady_tick quiet_env.
Proof.
  split; [apply update_body_only_Exception, quiet_env_calm|].
  split; apply keeps_schedule_ret.
Qed.

Lemma failing_env_steady : steady_tick failing_env.
Proof.
  split; [apply update_body_only_Exception, failing_env_calm|].
  split; [apply keeps_schedule_lift | apply keeps_schedule_ret].
Qed.

Lemma one_tick_pending_witness :
  let '(n, s') := run_ticks [quiet_env; failing_env; quiet_env] (set_timers [1000] sysmon0) in
  n = length [quiet_env; failing_env; quiet_env] /\
  update_interval s' = update_interval (set_timers [1000] sysmon0) /\
  timers s' = [update_interval (set_timers [1000] sysmon0)].
Proof.
  apply (one_tick_pending [quiet_env; failing_env; quiet_env] (set_timers [1000] sysmon0) 1000);
    [|reflexivity].
  constructor; [exact quiet_env_steady|]. constructor; [exact failing_env_steady|].
  constructor; [exact quiet_env_steady|]. constructor.
Defined.

(** ** Text *)

Lemma app_assoc_string a b c : (a +:+ b) +:+ c = a +:+ (b +:+ c).
Proof.
  induction a as [|x a IH]; [reflexivity|]. rewrite !app_String. now rewrite IH.
Qed.

Lemma app_empty_r a : a +:+ "" = a.
Proof. induction a as [|x a IH]; [reflexivity|]. rewrite app_String. now rewrite IH. Qed.

Lemma app_cancel_l a x y : a +:+ x = a +:+ y -> x = y.
Proof.
  induction a as [|c a IH]; [now rewrite !app_empty|].
  rewrite !app_String. intros [= H]. now apply IH.
Qed.

Lemma lacks_app c a b : lacks c (a +:+ b) = lacks c a && lacks c b.
Proof.
  induction a as [|x a IH]; [reflexivity|].
  rewrite app_String. cbn [lacks]. rewrite IH. now rewrite andb_assoc.
Qed.

Lemma split_once_lacks sep s : lacks sep s = true -> split_once sep s = None.
Proof.
  induction s as [|c r IH]; [reflexivity|].
  cbn [lacks split_once]. intros [Hc Hr]%andb_prop.
  apply negb_true_iff in Hc. now rewrite Hc, (IH Hr).
Qed.

Lemma split_once_at sep a r :
  lacks sep a = true -> split_once sep (a +:+ String sep r) = Some (a, r).
Proof.
  induction a as [|c a IH].
  - intros _. rewrite app_empty. cbn [split_once]. now rewrite Ascii.eqb_refl.
  - cbn [lacks]. intros [Hc Ha]%andb_prop. apply negb_true_iff in Hc.
    rewrite app_String. cbn [split_once]. now rewrite Hc, (IH Ha).
Qed.

Lemma lacks_colon_free s : lacks ":" s = true <-> colon_free s.
Proof.
  unfold colon_free. split; [apply split_once_lacks|].
  induction s as [|c r IH]; [reflexivity|].
  cbn [lacks split_once]. destruct (Ascii.eqb c ":"); [discriminate|].
  destruct (split_once ":" r) as [[a b]|]; [discriminate|]. intros _. now rewrite IH.
Qed.

Lemma all_digits_lacks c s :
  is_digit c = false -> all_digits s = true -> lacks c s = true.
Proof.
  intros Hc. induction s as [|x r IH]; [reflexivity|].
  cbn [all_digits lacks]. intros [Hx Hr]%andb_prop. rewrite (IH Hr), andb_true_r.
  apply negb_true_iff. destruct (Ascii.eqb_spec x c) as [-> | _]; [congruence | reflexivity].
Qed.

(** Stripping leaves a text that stripping does not change. *)
Lemma lstrip_length p s : (String.length (lstrip p s) <= String.length s)%nat.
Proof.
  induction s as [|c r IH]; [reflexivity|].
  cbn [lstrip]. destruct (p c); cbn [String.length]; lia.
Qed.

Lemma lstrip_fixed p c r : lstrip p (String c r) = String c r -> p c = false.
Proof.
  cbn [lstrip]. destruct (p c); [|reflexivity]. intros H.
  pose proof (lstrip_length p r) as Hl. rewrite H in Hl. cbn [String.length] in Hl. lia.
Qed.

Lemma lstrip_idem p s : lstrip p (lstrip p s) = lstrip p s.
Proof.
  induction s as [|c r IH]; [reflexivity|].
  cbn [lstrip]. destruct (p c) eqn:E; [exact IH|]. cbn [lstrip]. now rewrite E.
Qed.

Lemma rstrip_idem p s : rstrip p (rstrip p s) = rstrip p s.
Proof.
  induction s as [|c r IH]; [reflexivity|].
  cbn [rstrip]. destruct (rstrip p r) as [|c' r'] eqn:E.
  - destruct (p c) eqn:Ec; [reflexivity|]. cbn [rstrip]. now rewrite Ec.
  - cbn [rstrip]. cbn [rstrip] in IH. rewrite IH. reflexivity.
Qed.

Lemma lstrip_rstrip p t : lstrip p t = t -> lstrip p (rstrip p t) = rstrip p t.
Proof.
  destruct t as [|c r]; [reflexivity|]. intros H%lstrip_fixed.
  cbn [rstrip]. destruct (rstrip p r).
  - rewrite H. cbn [lstrip]. now rewrite H.
  - cbn [lstrip]. now rewrite H.
Qed.

Lemma strip_with_idem p s : strip_with p (strip_with p s) = strip_with p s.
Proof.
  unfold strip_with. rewrite (lstrip_rstrip p (lstrip p s)) by apply lstrip_idem.
  apply rstrip_idem.
Qed.

Lemma str_strip_stripped s : stripped (str_strip s).
Proof. apply strip_with_idem. Qed.

(** Lines that are written one after the other are the lines that
    [splitlines] finds. *)
Lemma splitlines_from_line l : forall cur rest,
  plain_line l = true ->
  splitlines_from cur (l +:+ String "010" rest) = (cur +:+ l) :: splitlines_from "" rest.
Proof.
  induction l as [|c l IH]; intros cur rest.
  - intros _. rewrite app_empty, app_empty_r. cbn [splitlines_from].
    change (is_linebreak "010") with true. cbn match.
    destruct rest; reflexivity.
  - cbn [plain_line]. intros [Hc Hl]%andb_prop. apply negb_true_iff in Hc.
    rewrite app_String. cbn [splitlines_from]. rewrite Hc.
    rewrite (IH _ _ Hl), app_assoc_string. reflexivity.
Qed.

Lemma splitlines_unlines lines :
  Forall (fun l => plain_line l = true) lines -> splitlines (unlines lines) = lines.
Proof.
  unfold splitlines. induction 1 as [|l lines Hl _ IH]; [reflexivity|].
  cbn [unlines]. rewrite (splitlines_from_line l "" _ Hl), app_empty. now rewrite IH.
Qed.

Lemma after_two_colons a b rest :
  colon_free a -> colon_free b ->
  after_two ":" (a +:+ String ":" (b +:+ String ":" rest)) = rest.
Proof.
  intros Ha%lacks_colon_free Hb%lacks_colon_free. unfold after_two.
  now rewrite (split_once_at ":" a _ Ha), (split_once_at ":" b _ Hb).
Qed.

(** ** The GPUs *)

(** X11. [get_gpu_list] on the lines that [lspci] printed: the list has
    one entry for every line that mentions [VGA] or [3D controller], in the
    order of the lines, and none for any other line; an entry has no blank
    at either end; on a line of the form [address: class: name] (the
    address has one colon, as in [00:02.0 VGA compatible controller: ...])
    the entry is the name with the colons that it contains.  When [lspci]
    is missing or fails, the list is empty and the top lines say that no
    GPU was detected. *)
Theorem gpu_list_of_lspci_lines (lines : list string) :
  Forall (fun l => plain_line l = true) lines ->
  exists gpus,
    get_gpu_list (Ok (unlines lines)) = Ok gpus /\
    gpus = map (fun l => str_strip (after_two ":" l)) (List.filter is_gpu_line lines) /\
    Forall stripped gpus /\
    (length gpus <= length lines)%nat /\
    (forall a b name,
       colon_free a -> colon_free b ->
       lines = [a +:+ String ":" (b +:+ String ":" name)] ->
       is_gpu_line (a +:+ String ":" (b +:+ String ":" name)) = true ->
       gpus = [str_strip name]) /\
    (forall e, is_Exception (exn_cls e) = true ->
       get_gpu_list (Raise e) = Ok [] /\ gpu_lines [] = ["GPU: (none detected)"]).
Proof.
  intros Hlines. eexists. split.
  { unfold get_gpu_list. rewrite (splitlines_unlines lines Hlines). reflexivity. }
  split; [reflexivity|]. split; [|split; [|split]].
  - apply List.Forall_forall. intros g (l & <- & _)%in_map_iff. apply str_strip_stripped.
  - rewrite length_map. apply filter_length_le.
  - intros a b name Ha Hb -> Hgpu. cbn [List.filter map]. rewrite Hgpu. cbn [map].
    now rewrite after_two_colons.
  - intros e He. unfold get_gpu_list. now rewrite He.
Qed.

Lemma gpu_list_of_lspci_lines_witness :
  exists gpus,
    get_gpu_list (Ok (unlines ["00:00.0 Host bridge: Intel Corporation Device 9b61";
                               "00:02.0 VGA compatible controller: Intel: UHD Graphics "]))
      = Ok gpus /\
    gpus = ["Intel: UHD Graphics"].
Proof.
  destruct (gpu_list_of_lspci_lines
              ["00:00.0 Host bridge: Intel Corporation Device 9b61";
               "00:02.0 VGA compatible controller: Intel: UHD Graphics "])
    as (gpus & H & -> & _).
  - repeat constructor.
  - exists ["Intel: UHD Graphics"]. split; [exact H | reflexivity].
Defined.

(** ** The uptime *)

Lemma timedelta_seconds_in_range n :
  0 <= n <= max_uptime ->
  timedelta_seconds n = Ok (n / 86400, n mod 86400) /\ 0 <= n / 86400 <= 999999999.
Proof.
  intros [H0 H1]. unfold max_uptime in H1.
  assert (Hd : 0 <= n / 86400 <= 999999999).
  { split; [apply Z.div_pos; lia|].
    enough (n / 86400 < 1000000000) by lia. apply Z.div_lt_upper_bound; lia. }
  split; [|exact Hd]. unfold timedelta_seconds. cbn zeta.
  destruct (n / 86400 <? - 2 ^ 31) eqn:E1; [apply Z.ltb_lt in E1; lia|].
  destruct (2 ^ 31 - 1 <? n / 86400) eqn:E2; [apply Z.ltb_lt in E2; lia|].
  destruct (n / 86400 <? - 999999999) eqn:E3; [apply Z.ltb_lt in E3; lia|].
  destruct (999999999 <? n / 86400) eqn:E4; [apply Z.ltb_lt in E4; lia|].
  reflexivity.
Qed.

Lemma format_uptime_returns now boot :
  (0 <= now - boot)%Q -> (now - boot <= inject_Z max_uptime)%Q ->
  exists n up, py_int_of_float (RN (now - boot)) = Ok n /\ 0 <= n <= max_uptime /\
               format_uptime now boot = Ok up.
Proof.
  intros H0 H1.
  destruct (RN_bounded (now - boot) max_uptime 0) as (r & Hr & Hr0 & Hr1);
    [lia | unfold max_uptime; lia | assumption | now rewrite Z.pow_0_r, Z.mul_1_r |].
  rewrite Z.pow_0_r, Z.mul_1_r in Hr1.
  destruct (py_int_of_float_between r 0 max_uptime) as (n & Hn & Hrange);
    [lia | exact Hr0 | exact Hr1 |].
  destruct (timedelta_seconds_in_range n Hrange) as [Ht _].
  unfold format_uptime. rewrite Hr, Hn. cbn [mbind result_bind rbind]. rewrite Ht.
  do 2 eexists. repeat split; try reflexivity; lia.
Qed.

(** ** The top lines under failing commands *)

Lemma get_os_name_returns lsb lines system :
  only_Exception lsb -> exists v, get_os_name lsb lines system = Ok v.
Proof.
  intros H. unfold get_os_name. destruct lsb as [out|e].
  - destruct (split_once ":" out) as [[a v]|]; eexists; reflexivity.
  - rewrite (H e eq_refl). eexists; reflexivity.
Qed.

Lemma get_cpu_model_returns lscpu processor :
  only_Exception lscpu -> exists v, get_cpu_model lscpu processor = Ok v.
Proof.
  intros H. unfold get_cpu_model. destruct lscpu as [out|e].
  - destruct (cpu_model_line (splitlines out)) as [[v|]|]; eexists; reflexivity.
  - rewrite (H e eq_refl). eexists; reflexivity.
Qed.

Lemma get_gpu_list_returns lspci :
  only_Exception lspci -> exists v, get_gpu_list lspci = Ok v.
Proof.
  intros H. unfold get_gpu_list. destruct lspci as [out|e].
  - eexists; reflexivity.
  - rewrite (H e eq_refl). eexists; reflexivity.
Qed.

(** X12. [_update_top_info], which [_create_top_info] calls outside any
    [try], does not fail because a command is missing or fails: when the
    host name and the boot time can be read and the uptime is one that a
    [timedelta] holds, and [lsb_release], [lscpu] and [lspci] raise nothing
    but [Exception]s, it returns, and the labels show at least six lines,
    the first of which is the host name, followed by blank labels.  With
    all three commands missing the lines are those of the fallbacks. *)
Theorem update_top_info_survives (env : top_env) (labels : list string)
    (host_name : string) (boot : Q) :
  t_hostname env = Ok host_name -> t_boot_time env = Ok boot ->
  (0 <= t_time env - boot)%Q -> (t_time env - boot <= inject_Z max_uptime)%Q ->
  only_Exception (t_lsb_release env) -> only_Exception (t_lscpu env) ->
  only_Exception (t_lspci env) ->
  exists lines up,
    _update_top_info env labels
      = Ok (lines ++ repeat "" (length labels - length lines))%list /\
    (6 <= length lines)%nat /\
    lines !! 0%nat = Some ("Host: " +:+ host_name) /\
    format_uptime (t_time env) boot = Ok up /\
    (forall e1 e2 e3,
       t_lsb_release env = Raise e1 -> t_lscpu env = Raise e2 -> t_lspci env = Raise e3 ->
       lines = ["Host: " +:+ host_name; "Uptime: " +:+ up;
                "OS: " +:+ os_release_name (t_os_release env) (t_system env);
                "CPU: " +:+ (if String.eqb (t_processor env) "" then "Unknown CPU"
                             else t_processor env);
                "GPU: (none detected)";
                "Python " +:+ t_python_version env]).
Proof.
  intros Hh Hb H0 H1 Hlsb Hcpu Hgpu.
  destruct (format_uptime_returns _ _ H0 H1) as (n & up & _ & _ & Hup).
  destruct (get_os_name_returns _ (t_os_release env) (t_system env) Hlsb) as (os_info & Hos).
  destruct (get_cpu_model_returns _ (t_processor env) Hcpu) as (cpu_info & Hc).
  destruct (get_gpu_list_returns _ Hgpu) as (gpus & Hg).
  exists (top_lines host_name up os_info cpu_info gpus (t_python_version env)), up.
  split; [|split; [|split; [|split]]].
  - unfold _update_top_info. rewrite Hh, Hb. cbn [mbind result_bind rbind].
    rewrite Hup, Hos, Hc, Hg. cbn [mbind result_bind rbind].
    now rewrite show_lines_texts.
  - unfold top_lines. cbn [app length]. rewrite length_app, gpu_lines_length.
    cbn [length]. lia.
  - reflexivity.
  - exact Hup.
  - intros e1 e2 e3 E1 E2 E3.
    unfold get_os_name in Hos. rewrite E1, (Hlsb e1 E1) in Hos. injection Hos as <-.
    unfold get_cpu_model in Hc. rewrite E2, (Hcpu e2 E2) in Hc. injection Hc as <-.
    unfold get_gpu_list in Hg. rewrite E3, (Hgpu e3 E3) in Hg. injection Hg as <-.
    reflexivity.
Qed.

Lemma missing_command_only_Exception {A} msg :
  only_Exception (Raise (Exn OSError msg) : result A).
Proof. intros e [= <-]. reflexivity. Qed.

Lemma update_top_info_survives_witness :
  exists lines up,
    _update_top_info bare_host (repeat "" 7)
      = Ok (lines ++ repeat "" (length (repeat "" 7) - length lines))%list /\
    (6 <= length lines)%nat /\
    lines !! 0%nat = Some ("Host: " +:+ "box") /\
    format_uptime (t_time bare_host) 1000 = Ok up /\
    (forall e1 e2 e3,
       t_lsb_release bare_host = Raise e1 -> t_lscpu bare_host = Raise e2 ->
       t_lspci bare_host = Raise e3 ->
       lines = ["Host: " +:+ "box"; "Uptime: " +:+ up;
                "OS: " +:+ os_release_name (t_os_release bare_host) (t_system bare_host);
                "CPU: " +:+ (if String.eqb (t_processor bare_host) "" then "Unknown CPU"
                             else t_processor bare_host);
                "GPU: (none detected)";
                "Python " +:+ t_python_version bare_host]).
Proof.
  apply (update_top_info_survives bare_host (repeat "" 7) "box" 1000);
    try reflexivity; try apply missing_command_only_Exception.
  - apply Qle_bool_iff. reflexivity.
  - apply Qle_bool_iff. reflexivity.
Defined.

(** What the labels of that host show. *)
Example bare_host_top_lines :
  _update_top_info bare_host (repeat "" 7)
  = Ok ["Host: box"; "Uptime: 1 day 1:01:01"; "OS: Debian 12"; "CPU: Unknown CPU";
        "GPU: (none detected)"; "Python 3.11.2"; ""].
Proof. vm_compute. reflexivity. Qed.

(** ** The uptime determines the seconds *)

(** The number that decimal digits denote. *)
Lemma digits_value z :
  0 <= z ->
  option_map (fun d => Z.of_N (N.of_uint d)) (NilZero.uint_of_string (digits z)) = Some z.
Proof.
  intros H. rewrite uint_of_string_digits. cbn [option_map].
  now rewrite DecimalN.Unsigned.of_to, Z2N.id by lia.
Qed.

Lemma digits_inj a b : 0 <= a -> 0 <= b -> digits a = digits b -> a = b.
Proof.
  intros Ha Hb H. pose proof (digits_value a Ha) as E.
  rewrite H, (digits_value b Hb) in E. now injection E.
Qed.

Lemma digits_no_minus z r : digits z <> String "-" r.
Proof.
  destruct (digits_shape z) as (c & r' & -> & Hc & _). intros [= -> _]. discriminate Hc.
Qed.

Lemma str_int_inj a b : str_int a = str_int b -> a = b.
Proof.
  unfold str_int.
  destruct (a <? 0) eqn:Ea, (b <? 0) eqn:Eb; rewrite ?app_String, ?app_empty; intros H.
  - apply Z.ltb_lt in Ea, Eb. injection H as H. apply digits_inj in H; lia.
  - symmetry in H. now apply digits_no_minus in H.
  - now apply digits_no_minus in H.
  - apply Z.ltb_ge in Ea, Eb. apply digits_inj in H; lia.
Qed.

Lemma two_digits_value n :
  0 <= n < 100 ->
  option_map (fun d => Z.of_N (N.of_uint d)) (NilZero.uint_of_string (two_digits n)) = Some n.
Proof.
  intros H. unfold two_digits. destruct (n <? 10) eqn:E.
  - apply Z.ltb_lt in E.
    assert (Hn : In n [0; 1; 2; 3; 4; 5; 6; 7; 8; 9]) by (cbn [In]; lia).
    cbn [In] in Hn. repeat (destruct Hn as [<- | Hn]; [reflexivity|]). destruct Hn.
  - apply digits_value. lia.
Qed.

Lemma two_digits_inj a b :
  0 <= a < 100 -> 0 <= b < 100 -> two_digits a = two_digits b -> a = b.
Proof.
  intros Ha Hb H. pose proof (two_digits_value a Ha) as E.
  rewrite H, (two_digits_value b Hb) in E. now injection E.
Qed.

Lemma two_digits_all_digits n : all_digits (two_digits n) = true.
Proof.
  unfold two_digits. destruct (n <? 10); [|apply digits_all_digits].
  rewrite app_String, app_empty. cbn [all_digits is_digit andb]. apply digits_all_digits.
Qed.

Lemma hms_shape s :
  hms s = digits (s / 60 / 60)
          +:+ String ":" (two_digits (s / 60 mod 60) +:+ String ":" (two_digits (s mod 60))).
Proof. reflexivity. Qed.

Lemma hms_lacks_space s : lacks " " (hms s) = true.
Proof.
  rewrite hms_shape, lacks_app. cbn [lacks]. rewrite lacks_app. cbn [lacks].
  rewrite !(all_digits_lacks " ") by
    (reflexivity || apply digits_all_digits || apply two_digits_all_digits).
  reflexivity.
Qed.

Lemma hms_inj a b : 0 <= a < 86400 -> 0 <= b < 86400 -> hms a = hms b -> a = b.
Proof.
  intros Ha Hb H. rewrite !hms_shape in H.
  apply (f_equal (split_once ":")) in H.
  rewrite !split_once_at in H by (apply all_digits_lacks; [reflexivity | apply digits_all_digits]).
  injection H as Hh H.
  apply (f_equal (split_once ":")) in H.
  rewrite !split_once_at in H
    by (apply all_digits_lacks; [reflexivity | apply two_digits_all_digits]).
  injection H as Hm Hs.
  assert (0 <= a / 60 /\ 0 <= b / 60) as [Ha60 Hb60] by (split; apply Z.div_pos; lia).
  apply digits_inj in Hh; try (apply Z.div_pos; lia).
  apply two_digits_inj in Hm; try (pose proof (Z.mod_pos_bound (a / 60) 60);
                                   pose proof (Z.mod_pos_bound (b / 60) 60); lia).
  apply two_digits_inj in Hs; try (pose proof (Z.mod_pos_bound a 60);
                                   pose proof (Z.mod_pos_bound b 60); lia).
  pose proof (Z.div_mod a 60). pose proof (Z.div_mod b 60).
  pose proof (Z.div_mod (a / 60) 60). pose proof (Z.div_mod (b / 60) 60). lia.
Qed.

Lemma str_int_lacks_space z : lacks " " (str_int z) = true.
Proof.
  unfold str_int. destruct (z <? 0).
  - rewrite app_String, app_empty. cbn [lacks]. cbn [Ascii.eqb Bool.eqb negb andb].
    apply all_digits_lacks; [reflexivity | apply digits_all_digits].
  - rewrite app_empty. apply all_digits_lacks; [reflexivity | apply digits_all_digits].
Qed.

Lemma timedelta_seconds_parts n d s :
  timedelta_seconds n = Ok (d, s) -> n = 86400 * d + s /\ 0 <= s < 86400.
Proof.
  unfold timedelta_seconds. cbn zeta.
  destruct (_ || _); [discriminate|]. destruct (_ || _); [discriminate|].
  intros [= <- <-]. split; [apply Z.div_mod; lia | apply Z.mod_pos_bound; lia].
Qed.

(** The text that [format_uptime] returns for [days] and the rest of the
    last day. *)
Lemma uptime_text_inj d1 s1 d2 s2 :
  0 <= s1 < 86400 -> 0 <= s2 < 86400 ->
  (if d1 =? 0 then hms s1
   else str_int d1 +:+ " day" +:+ (if d1 =? 1 then "" else "s") +:+ " " +:+ hms s1)
  = (if d2 =? 0 then hms s2
     else str_int d2 +:+ " day" +:+ (if d2 =? 1 then "" else "s") +:+ " " +:+ hms s2) ->
  d1 = d2 /\ s1 = s2.
Proof.
  intros H1 H2.
  assert (Hday : forall d s,
            str_int d +:+ " day" +:+ (if d =? 1 then "" else "s") +:+ " " +:+ hms s
            = str_int d +:+ String " " ("day" +:+ (if d =? 1 then "" else "s") +:+ " " +:+ hms s))
    by reflexivity.
  destruct (d1 =? 0) eqn:E1, (d2 =? 0) eqn:E2.
  - apply Z.eqb_eq in E1, E2. intros H. split; [congruence | now apply hms_inj].
  - rewrite Hday. intros H. apply (f_equal (lacks " ")) in H.
    rewrite hms_lacks_space, lacks_app in H. cbn [lacks] in H.
    rewrite Ascii.eqb_refl, andb_false_r in H. discriminate H.
  - rewrite Hday. intros H. apply (f_equal (lacks " ")) in H.
    rewrite hms_lacks_space, lacks_app in H. cbn [lacks] in H.
    rewrite Ascii.eqb_refl, andb_false_r in H. discriminate H.
  - rewrite !Hday. intros H. apply (f_equal (split_once " ")) in H.
    rewrite !split_once_at in H by apply str_int_lacks_space.
    injection H as Hd H. apply str_int_inj in Hd. subst d2. split; [reflexivity|].
    apply hms_inj; try assumption.
    rewrite !app_empty in H. now do 2 apply app_cancel_l in H.
Qed.

(** X13. The uptime that is shown determines the uptime in whole
    seconds: two calls of [format_uptime] that return the same text were
    made the same number of seconds after the start of the host.  (Below
    one day the text is [h:mm:ss]; from one day on, and for a boot time in
    the future, the days stand before it.) *)
Theorem uptime_text_determines_seconds (now boot now' boot' : Q) (n n' : Z) (t : string) :
  py_int_of_float (RN (now - boot)) = Ok n ->
  py_int_of_float (RN (now' - boot')) = Ok n' ->
  format_uptime now boot = Ok t -> format_uptime now' boot' = Ok t ->
  n = n'.
Proof.
  intros Hn Hn'. unfold format_uptime. rewrite Hn, Hn'. cbn [mbind result_bind rbind].
  destruct (timedelta_seconds n) as [[d s]|e] eqn:E; [|discriminate].
  destruct (timedelta_seconds n') as [[d' s']|e'] eqn:E'; [|discriminate].
  cbn [mbind result_bind rbind fst snd]. intros [= <-] [= H].
  destruct (timedelta_seconds_parts _ _ _ E) as [-> Hs].
  destruct (timedelta_seconds_parts _ _ _ E') as [-> Hs'].
  symmetry in H. destruct (uptime_text_inj d s d' s' Hs Hs' H) as [-> ->]. reflexivity.
Qed.

Lemma uptime_text_determines_seconds_witness :
  format_uptime (182123 # 2) 1000 = Ok "1 day 1:01:01" /\
  format_uptime 91061 1000 = Ok "1 day 1:01:01" /\
  90061 = 90061.
Proof.
  split; [vm_compute; reflexivity|]. split; [vm_compute; reflexivity|].
  apply (uptime_text_determines_seconds (182123 # 2) 1000 91061 1000
           90061 90061 "1 day 1:01:01"); vm_compute; reflexivity.
Defined.

(** ** The bars of the memory panel *)

Lemma draw_bar_shows colors size c pct color :
  0 <= winfo_width c < 2 ^ 45 -> percentage pct ->
  exists c', _draw_bar colors size c pct color = (Ok tt, c') /\
             winfo_width c' = winfo_width c /\ winfo_height c' = winfo_height c /\
             shows_bar colors c' color.
Proof.
  intros Hw Hp. destruct pct as [p|sg]; [destruct Hp as [Hp0 Hp1] | destruct Hp].
  set (w := if winfo_width c =? 0 then 100 else winfo_width c).
  assert (Hw' : 0 < w < 2 ^ 45).
  { unfold w. destruct (winfo_width c =? 0) eqn:E; [lia|]. apply Z.eqb_neq in E. lia. }
  destruct (fill_width_le w p w Hw' ltac:(lia) Hp0) as (x & Hx & Hr).
  { clearbody w. destruct p as [n d]. unfold Qle in *.
    cbn [Qnum Qden inject_Z Qmult] in *. nia. }
  unfold _draw_bar. fold w. rewrite Hx. eexists. split; [reflexivity|].
  split; [reflexivity|]. split; [reflexivity|].
  unfold shows_bar. cbn [winfo_width winfo_height set_items items]. fold w.
  do 2 eexists. split; [reflexivity | exact Hr].
Qed.

(** X14. For a disk with [0 <= used <= total] and memory and swap
    percentages from 0 to 100, the three bars of the memory panel are drawn
    without failing and none of them leaves its canvas: the disk percentage
    that line 431 computes is one that [_draw_bar] can draw.  The memory bar
    has the colour of its load tier, the swap bar and the disk bar their own
    colours. *)
Theorem usage_bars_within_canvases (colors : palette) (size : Z)
    (m s : mem_sample) (d : disk_usage) (cs : usage_canvases) :
  percentage (m_percent m) -> percentage (m_percent s) ->
  0 <= d_used d <= d_total d ->
  0 <= winfo_width (mem_canvas cs) < 2 ^ 45 ->
  0 <= winfo_width (swap_canvas cs) < 2 ^ 45 ->
  0 <= winfo_width (disk_canvas cs) < 2 ^ 45 ->
  exists cs' pct,
    disk_pct d = Ok pct /\ percentage pct /\
    draw_usage_bars colors size m s d cs = (Ok tt, cs') /\
    shows_bar colors (mem_canvas cs') (color_for_load (m_percent m) colors) /\
    shows_bar colors (swap_canvas cs') (swap colors) /\
    shows_bar colors (disk_canvas cs') (disk colors).
Proof.
  intros Hm Hs Hd Wm Ws Wd.
  destruct (disk_pct_in_range d Hd) as (p & Hp & Hp0 & Hp1).
  destruct (draw_bar_shows colors size (mem_canvas cs) (m_percent m)
              (color_for_load (m_percent m) colors) Wm Hm) as (c1 & H1 & _ & _ & S1).
  destruct (draw_bar_shows colors size (swap_canvas cs) (m_percent s)
              (swap colors) Ws Hs) as (c2 & H2 & _ & _ & S2).
  destruct (draw_bar_shows colors size (disk_canvas cs) (Fin p)
              (disk colors) Wd (conj Hp0 Hp1)) as (c3 & H3 & _ & _ & S3).
  exists (UsageCanvases c1 c2 c3), (Fin p).
  split; [exact Hp|]. split; [exact (conj Hp0 Hp1)|].
  split; [unfold draw_usage_bars, draw_bars; now rewrite Hp, H1, H2, H3|].
  auto.
Qed.

Lemma usage_bars_within_canvases_witness :
  exists cs' pct,
    disk_pct (DiskUsage 100 40 60) = Ok pct /\ percentage pct /\
    draw_usage_bars dark 10 (MemSample 4 8 (Fin 50)) (MemSample 0 0 (Fin 0))
      (DiskUsage 100 40 60)
      (UsageCanvases (Canvas 300 16 []) (Canvas 300 16 []) (Canvas 0 0 []))
    = (Ok tt, cs') /\
    shows_bar dark (mem_canvas cs') (color_for_load (Fin 50) dark) /\
    shows_bar dark (swap_canvas cs') (swap dark) /\
    shows_bar dark (disk_canvas cs') (disk dark).
Proof.
  apply (usage_bars_within_canvases dark 10 (MemSample 4 8 (Fin 50))
           (MemSample 0 0 (Fin 0)) (DiskUsage 100 40 60)
           (UsageCanvases (Canvas 300 16 []) (Canvas 300 16 []) (Canvas 0 0 [])));
    cbn; try lia; split; apply Qle_bool_iff; reflexivity.
Defined.

(** ** Reading the CPU column back *)

(** The rounded quotient is the integer nearest to the exact one. *)
Lemma round_half_even_nearest num den K :
  0 < den ->
  Z.abs (num - round_half_even num den * den) <= Z.abs (num - K * den).
Proof.
  intros Hden. pose proof (round_half_even_near num den Hden) as Hn.
  set (m := round_half_even num den) in *.
  destruct (Z.eq_dec K m) as [-> | Hne]; [lia|].
  assert (Hj : den <= Z.abs ((m - K) * den)).
  { rewrite Z.abs_mul, (Z.abs_eq den) by lia.
    assert (1 <= Z.abs (m - K)) by lia. nia. }
  replace (num - K * den) with ((num - m * den) + (m - K) * den) by ring.
  lia.
Qed.

Lemma round_half_even_unique num den t :
  0 < den -> 2 * Z.abs (num - t * den) <= den ->
  (2 * Z.abs (num - t * den) = den -> Z.even t = true) ->
  round_half_even num den = t.
Proof.
  intros Hden Hnear Htie. unfold round_half_even.
  pose proof (Z.mod_pos_bound num den Hden) as Hr.
  pose proof (Z.div_mod num den ltac:(lia)) as Hdm.
  set (m := num / den) in *. set (r := num mod den) in *.
  assert (Hm : t = m \/ t = m + 1).
  { assert (num - t * den = (m - t) * den + r) by lia.
    destruct (Z.lt_trichotomy t m) as [Hlt | [-> | Hgt]]; [exfalso | now left |].
    - assert (den <= (m - t) * den) by nia. lia.
    - destruct (Z.eq_dec t (m + 1)) as [-> | Hne]; [now right | exfalso].
      assert ((m - t) * den <= - 2 * den) by nia. lia. }
  destruct (2 * r <? den) eqn:E1.
  - apply Z.ltb_lt in E1. destruct Hm as [-> | ->]; [reflexivity | exfalso].
    assert (num - (m + 1) * den = r - den) by lia. lia.
  - apply Z.ltb_ge in E1. destruct (den <? 2 * r) eqn:E2.
    + apply Z.ltb_lt in E2. destruct Hm as [-> | ->]; [exfalso | reflexivity].
      assert (num - m * den = r) by lia. lia.
    + apply Z.ltb_ge in E2. assert (H2r : 2 * r = den) by lia.
      destruct Hm as [-> | ->].
      * assert (num - m * den = r) by lia. rewrite Htie by lia. reflexivity.
      * assert (num - (m + 1) * den = r - den) by lia.
        assert (Hev : Z.even (m + 1) = true) by (apply Htie; lia).
        rewrite Z.even_add in Hev. cbn in Hev.
        destruct (Z.even m); [discriminate | reflexivity].
Qed.

Lemma round_half_even_tie_even num den :
  0 < den -> 2 * Z.abs (num - round_half_even num den * den) = den ->
  Z.even (round_half_even num den) = true.
Proof.
  intros Hden. unfold round_half_even.
  pose proof (Z.mod_pos_bound num den Hden) as Hr.
  pose proof (Z.div_mod num den ltac:(lia)) as Hdm.
  set (m := num / den) in *. set (r := num mod den) in *.
  destruct (2 * r <? den) eqn:E1.
  - apply Z.ltb_lt in E1. assert (num - m * den = r) by lia. lia.
  - apply Z.ltb_ge in E1. destruct (den <? 2 * r) eqn:E2.
    + apply Z.ltb_lt in E2. assert (num - (m + 1) * den = r - den) by lia. lia.
    + destruct (Z.even m) eqn:Em; intros _; [exact Em|].
      rewrite Z.even_add, Em. reflexivity.
Qed.

(** Rounding keeps a number that a float holds: here [m * 2 ^ j], an
    integer. *)
Lemma round_pos_exact_up p q m j :
  0 < p -> 0 < q -> 0 < m < 2 ^ 53 -> 0 <= j <= 971 ->
  p = m * 2 ^ j * q ->
  exists r, round_pos p q = Fin r /\ (r == p # Z.to_pos q)%Q.
Proof.
  intros Hp Hq Hm Hj Heq. unfold round_pos.
  pose proof (ilog2_frac_spec p q Hp Hq) as [Hlo _]. cbn zeta in Hlo.
  set (L := ilog2_frac p q) in *.
  assert (H2j : 0 < 2 ^ j) by (apply Z.pow_pos_nonneg; lia).
  assert (HL : L <= 52 + j).
  { destruct (Z.le_gt_cases L (52 + j)) as [|Hgt]; [assumption | exfalso].
    rewrite (pow2_nonneg L), (pow2_nonpos (- L)) in Hlo by lia.
    assert (2 ^ 53 * 2 ^ j <= 2 ^ L).
    { rewrite <- Z.pow_add_r by lia. apply Z.pow_le_mono_r; lia. }
    assert (H1 : m * 2 ^ j < 2 ^ L) by nia.
    assert (H2 : m * 2 ^ j * q < 2 ^ L * q) by (apply Z.mul_lt_mono_pos_r; lia).
    rewrite Heq in Hlo. lia. }
  set (e := Z.max (L - 52) emin).
  assert (He : e <= j) by (unfold e, emin; lia).
  assert (Hbig : m * 2 ^ j < 2 ^ 1024).
  { apply Z.lt_le_trans with (2 ^ 53 * 2 ^ j); [nia|].
    change (2 ^ 1024) with (2 ^ 53 * 2 ^ 971).
    apply Z.mul_le_mono_nonneg_l; [lia|]. apply Z.pow_le_mono_r; lia. }
  destruct (Z.le_gt_cases e 0) as [Hneg | Hpos].
  - rewrite (pow2_nonpos e), (pow2_nonneg (- e)) by lia.
    set (X := 2 ^ (- e)).
    assert (HX : 0 < X) by (apply Z.pow_pos_nonneg; lia).
    assert (Hrhe : round_half_even (p * X) (q * 1) = m * 2 ^ j * X).
    { unfold round_half_even. replace (p * X) with (m * 2 ^ j * X * (q * 1)) by nia.
      rewrite Z.div_mul, Z.mod_mul by lia.
      destruct (2 * 0 <? q * 1) eqn:E; [reflexivity|]. apply Z.ltb_ge in E. lia. }
    rewrite Hrhe.
    destruct (2 ^ 1024 * X <=? m * 2 ^ j * X * 1) eqn:Ov; [apply Z.leb_le in Ov; nia|].
    eexists. split; [reflexivity|].
    unfold Qeq. cbn [Qnum Qden]. rewrite !Z2Pos.id by lia. nia.
  - rewrite (pow2_nonneg e), (pow2_nonpos (- e)) by lia.
    set (X := 2 ^ e).
    assert (HX : 0 < X) by (apply Z.pow_pos_nonneg; lia).
    assert (Hsplit : 2 ^ j = 2 ^ (j - e) * X).
    { unfold X. rewrite <- Z.pow_add_r by lia. f_equal. lia. }
    assert (HY : 0 < 2 ^ (j - e)) by (apply Z.pow_pos_nonneg; lia).
    assert (Hrhe : round_half_even (p * 1) (q * X) = m * 2 ^ (j - e)).
    { unfold round_half_even. replace (p * 1) with (m * 2 ^ (j - e) * (q * X)) by nia.
      rewrite Z.div_mul, Z.mod_mul by nia.
      destruct (2 * 0 <? q * X) eqn:E; [reflexivity|]. apply Z.ltb_ge in E. nia. }
    rewrite Hrhe.
    destruct (2 ^ 1024 * 1 <=? m * 2 ^ (j - e) * X) eqn:Ov; [apply Z.leb_le in Ov; nia|].
    eexists. split; [reflexivity|].
    unfold Qeq. cbn [Qnum Qden]. rewrite !Z2Pos.id by lia. nia.
Qed.

Lemma binary64_cases q :
  binary64 q -> (0 <= q)%Q ->
  (exists m j, 0 < m < 2 ^ 53 /\ 0 <= j <= 971 /\ (q == inject_Z (m * 2 ^ j))%Q) \/
  (exists M k, 0 <= M < 2 ^ 53 /\ 0 <= k <= 1074 /\ M < 2 ^ 52 * 2 ^ k /\
               (q == M # Z.to_pos (2 ^ k))%Q).
Proof.
  intros (m & e & Hm & He & Hq) H0. unfold emin in He.
  assert (Hm0 : 0 <= m).
  { rewrite Hq in H0. unfold Qle in H0. cbn [Qnum Qden] in H0.
    pose proof (pow2_pos e). nia. }
  destruct (Z.le_gt_cases 0 e) as [Hpos | Hneg].
  - rewrite (pow2_nonneg e), (pow2_nonpos (- e)) in Hq by lia.
    assert (H2e : 0 < 2 ^ e) by (apply Z.pow_pos_nonneg; lia).
    destruct (Z.le_gt_cases (2 ^ 52) (m * 2 ^ e)) as [Hbig | Hsmall].
    + left. exists m, e. split; [nia|]. split; [lia | exact Hq].
    + right. exists (m * 2 ^ e), 0. split; [nia|]. split; [lia|]. split; [lia | exact Hq].
  - rewrite (pow2_nonpos e), (pow2_nonneg (- e)) in Hq by lia.
    assert (H2k : 2 <= 2 ^ (- e)).
    { change 2 with (2 ^ 1) at 1. apply Z.pow_le_mono_r; lia. }
    right. exists m, (- e). split; [lia|]. split; [lia|]. split; [nia|].
    now rewrite Z.mul_1_r in Hq.
Qed.

Lemma format_1f_by_tenths a b :
  (0 <= a)%Q -> (0 <= b)%Q -> tenths a = tenths b ->
  format_1f (Fin a) = format_1f (Fin b).
Proof. intros Ha Hb E. now rewrite !format_1f_nonneg, E by assumption. Qed.

Lemma shown_cpu_nonneg q : (0 <= q)%Q -> shown_cpu (Fin q) = RN (tenths q # 10).
Proof.
  intros H. unfold shown_cpu. destruct (Qnum q <? 0) eqn:E; [|reflexivity].
  apply Z.ltb_lt in E. unfold Qle in H. cbn in H. lia.
Qed.

(** An integer that a float holds is read back as it was printed. *)
Lemma read_back_integer q m j :
  0 < m < 2 ^ 53 -> 0 <= j <= 971 -> (q == inject_Z (m * 2 ^ j))%Q ->
  exists y, RN (tenths q # 10) = Fin y /\ (y == q)%Q.
Proof.
  intros Hm Hj Hq.
  assert (H2j : 0 < 2 ^ j) by (apply Z.pow_pos_nonneg; lia).
  set (n := m * 2 ^ j) in *. assert (Hn : 0 < n) by (unfold n; nia).
  assert (Ht : tenths q = 10 * n).
  { rewrite (tenths_Qeq _ _ Hq). unfold tenths, round_half_even. cbn [Qnum Qden inject_Z].
    rewrite Z.div_1_r, Z.mod_1_r, Z.abs_eq by lia. reflexivity. }
  rewrite Ht. unfold RN. cbn [Qnum Qden].
  destruct (10 * n) as [|p|p] eqn:Ep; try lia.
  destruct (round_pos_exact_up (Z.pos p) 10 m j) as (r & Hr & Hv); try lia.
  exists r. split; [exact Hr|]. rewrite Hv, Hq.
  unfold Qeq. cbn [Qnum Qden inject_Z Z.to_pos]. lia.
Qed.

(** A smaller number is read back as the float nearest to what was
    printed, and that float prints the same. *)
Lemma read_back_fraction M k :
  0 <= M < 2 ^ 53 -> 0 <= k <= 1074 -> M < 2 ^ 52 * 2 ^ k ->
  exists y, RN (tenths (M # Z.to_pos (2 ^ k)) # 10) = Fin y /\ (0 <= y)%Q /\
            tenths y = tenths (M # Z.to_pos (2 ^ k)).
Proof.
  intros HM Hk Hsmall.
  assert (HD : 0 < 2 ^ k) by (apply Z.pow_pos_nonneg; lia).
  set (D := 2 ^ k) in *.
  assert (Ht : tenths (M # Z.to_pos D) = round_half_even (10 * M) D).
  { unfold tenths. cbn [Qnum Qden]. now rewrite Z2Pos.id, Z.abs_eq by lia. }
  rewrite Ht. set (t := round_half_even (10 * M) D).
  pose proof (round_half_even_near (10 * M) D HD) as Hnear. fold t in Hnear.
  assert (Ht0 : 0 <= t) by (apply round_half_even_nonneg; lia).
  assert (Htmax : t <= 10 * 2 ^ 52) by (apply round_half_even_le; lia).
  unfold RN. cbn [Qnum Qden].
  destruct t as [|pt|pt] eqn:Et; [| |lia].
  { exists 0%Q. split; [reflexivity|]. split; [apply Qle_refl | reflexivity]. }
  rewrite <- Et in *. assert (Htpos : 0 < t) by lia. clear Ht0.
  unfold round_pos.
  pose proof (ilog2_frac_spec t 10 Htpos ltac:(lia)) as [Hlo _]. cbn zeta in Hlo.
  set (L := ilog2_frac t 10) in *.
  assert (HL : L <= 52).
  { destruct (Z.le_gt_cases L 52) as [|Hgt]; [assumption | exfalso].
    rewrite (pow2_nonneg L), (pow2_nonpos (- L)) in Hlo by lia.
    assert (2 ^ 53 <= 2 ^ L) by (apply Z.pow_le_mono_r; lia). lia. }
  set (e := Z.max (L - 52) emin).
  assert (He : emin <= e <= 0) by (unfold e, emin; lia).
  rewrite (pow2_nonpos e), (pow2_nonneg (- e)) by lia.
  set (G := 2 ^ (- e)).
  assert (HG : 0 < G) by (apply Z.pow_pos_nonneg; lia).
  change (10 * 1) with 10. rewrite Z.mul_1_r.
  set (mm := round_half_even (t * G) 10).
  assert (Hmm0 : 0 <= mm) by (apply round_half_even_nonneg; nia).
  assert (Hmmle : mm <= 2 ^ 52 * G) by (apply round_half_even_le; nia).
  destruct (2 ^ 1024 * G <=? mm) eqn:Ov.
  { apply Z.leb_le in Ov. assert (2 ^ 52 < 2 ^ 1024) by reflexivity. nia. }
  eexists. split; [reflexivity|]. split; [unfold Qle; cbn; lia|].
  unfold tenths. cbn [Qnum Qden]. rewrite Z2Pos.id, Z.abs_eq by lia.
  pose proof (fun K => round_half_even_nearest (t * G) 10 K ltac:(lia)) as Hbest.
  fold mm in Hbest.
  set (a := Z.abs (10 * mm - t * G)).
  set (b := Z.abs (10 * M - t * D)) in *.
  assert (Ha : forall K, a <= Z.abs (t * G - K * 10)).
  { intros K. specialize (Hbest K). unfold a. lia. }
  assert (Hkey : a * D <= b * G).
  { destruct (Z.le_gt_cases k (- e)) as [Hgrid | Hoff].
    - assert (Hsplit : G = 2 ^ (- e - k) * D).
      { unfold G, D. rewrite <- Z.pow_add_r by lia. f_equal. lia. }
      set (H := 2 ^ (- e - k)) in *.
      assert (HH : 0 < H) by (apply Z.pow_pos_nonneg; lia).
      specialize (Ha (M * H)).
      replace (t * G - M * H * 10) with (- (H * (10 * M - t * D))) in Ha
        by (rewrite Hsplit; ring).
      rewrite Z.abs_opp, Z.abs_mul, (Z.abs_eq H) in Ha by lia. fold b in Ha.
      rewrite Hsplit. nia.
    - assert (HeL : e = L - 52) by (unfold e, emin in *; lia).
      assert (HA : 10 * 2 ^ 52 <= t * G).
      { destruct (Z.le_gt_cases 0 L) as [HL0 | HL0].
        - rewrite (pow2_nonneg L), (pow2_nonpos (- L)) in Hlo by lia.
          assert (2 ^ 52 = 2 ^ L * G).
          { unfold G. rewrite <- Z.pow_add_r by lia. f_equal. lia. }
          nia.
        - rewrite (pow2_nonpos L), (pow2_nonneg (- L)) in Hlo by lia.
          assert (G = 2 ^ (- L) * 2 ^ 52).
          { unfold G. rewrite <- Z.pow_add_r by lia. f_equal. lia. }
          nia. }
      assert (HDG : 2 * G <= D).
      { assert (D = 2 ^ (k - - e) * G).
        { unfold G, D. rewrite <- Z.pow_add_r by lia. f_equal. lia. }
        assert (2 <= 2 ^ (k - - e)).
        { change 2 with (2 ^ 1) at 1. apply Z.pow_le_mono_r; lia. }
        nia. }
      assert (HB : M * G < 2 ^ 52 * D) by nia.
      specialize (Ha (2 ^ 52)). rewrite Z.abs_eq in Ha by lia.
      assert (a * D <= (t * G - 2 ^ 52 * 10) * D) by nia.
      assert ((t * D - 10 * M) * G <= b * G).
      { apply Z.mul_le_mono_nonneg_r; [lia | unfold b; lia]. }
      nia. }
  assert (Ha0 : 0 <= a) by (unfold a; lia).
  assert (Hb0 : 0 <= b) by (unfold b; lia).
  fold b in Hnear.
  apply round_half_even_unique; [lia | |].
  - fold a. nia.
  - fold a. intros Htie.
    assert (Hb : 2 * b = D) by nia.
    unfold t. apply round_half_even_tie_even; [lia|]. fold t. fold b. exact Hb.
Qed.

(** X15. The CPU column survives the reading of the sort key: for a CPU
    percentage that is a float and not negative, [float] of the text that
    [:.1f] printed returns, and printing what it returns with [:.1f] gives
    the text back, whatever its size.  (The sort thus compares numbers that
    show as the texts of the column.) *)
Theorem cpu_column_reads_back (q : Q) :
  binary64 q -> (0 <= q)%Q ->
  exists y, py_float (format_1f (Fin q)) = Ok y /\ format_1f y = format_1f (Fin q).
Proof.
  intros Hb H0. exists (shown_cpu (Fin q)). split; [apply py_float_format_1f|].
  rewrite shown_cpu_nonneg by assumption.
  destruct (binary64_cases q Hb H0) as [(m & j & Hm & Hj & Hq) | (M & k & HM & Hk & Hs & Hq)].
  - destruct (read_back_integer q m j Hm Hj Hq) as (y & -> & Hy).
    now apply format_1f_Qeq.
  - rewrite (tenths_Qeq _ _ Hq).
    destruct (read_back_fraction M k HM Hk Hs) as (y & -> & Hy0 & Hy).
    apply format_1f_by_tenths; [assumption | assumption|].
    now rewrite Hy, (tenths_Qeq _ _ Hq).
Qed.

Lemma cpu_column_reads_back_witness :
  exists y, py_float (format_1f (Fin (3 # 8))) = Ok y /\ format_1f y = format_1f (Fin (3 # 8)).
Proof.
  apply (cpu_column_reads_back (3 # 8)).
  - exists 3, (-3). split; [reflexivity|]. split; [unfold emin; lia | reflexivity].
  - unfold Qle. cbn. lia.
Defined.

(** ** The interval shortcuts, one after the other *)

(** X16. From an interval within [250 ms, 10000 ms], Alt-plus followed
    by Alt-minus gives the interval back, except above 9500 ms, where the
    pair ends at 9500; Alt-minus followed by Alt-plus gives it back, except
    below 750 ms, where the pair ends at 750.  Neither pair fails. *)
Theorem interval_steps_cancel (s : SysMon) :
  250 <= update_interval s <= 10000 ->
  (exists s', (_increase_interval;; _decrease_interval) s = (Ok tt, s') /\
              update_interval s' = Z.min (update_interval s) 9500) /\
  (exists s', (_decrease_interval;; _increase_interval) s = (Ok tt, s') /\
              update_interval s' = Z.max (update_interval s) 750).
Proof.
  intros Hr. split.
  - destruct (increase_interval_ok s Hr) as (s1 & H1 & E1).
    destruct (decrease_interval_ok s1 ltac:(lia)) as (s2 & H2 & E2).
    exists s2. split; [|lia].
    unfold mbind at 1, M_bind at 1. now rewrite H1.
  - destruct (decrease_interval_ok s Hr) as (s1 & H1 & E1).
    destruct (increase_interval_ok s1 ltac:(lia)) as (s2 & H2 & E2).
    exists s2. split; [|lia].
    unfold mbind at 1, M_bind at 1. now rewrite H1.
Qed.

Lemma interval_steps_cancel_witness :
  (exists s', (_increase_interval;; _decrease_interval) sysmon_1500 = (Ok tt, s') /\
              update_interval s' = Z.min (update_interval sysmon_1500) 9500) /\
  (exists s', (_decrease_interval;; _increase_interval) sysmon_1500 = (Ok tt, s') /\
              update_interval s' = Z.max (update_interval sysmon_1500) 750).
Proof.
  apply (interval_steps_cancel sysmon_1500). cbn. lia.
Defined.
